(** * The BESS module graph runtime (core/module.c) and logger (core/log.c)

    A shallow embedding of the C code as state-passing functions over an
    explicit heap, and the properties of the specification proved about it.

    Layout: Part I holds the definitions (data model, heap monad, the
    functions of module.c and log.c, the consistency predicate); Part II the
    lemmas and theorems. *)

From stdpp Require Import gmap strings list pretty.
From Stdlib Require Import ZArith Lia Ascii.

(* ===================================================================== *)
(** * Part I: definitions                                                 *)
(* ===================================================================== *)

(** ** Constants *)

(** errno values (Linux <errno.h>). *)
Definition ENOMEM : Z := 12.
Definition EBUSY  : Z := 16.
Definition EEXIST : Z := 17.
Definition EINVAL : Z := 22.

(** Modelled from the spec: the limits live in module.h, task.h and log.h,
    which are not part of the sources at hand; section 6 of the spec lists
    them as implementation-chosen constants.  They are taken as parameters. *)
Class Limits := {
  MAX_GATES : Z;
  MAX_TASKS_PER_MODULE : nat;
  MODULE_NAME_LEN : nat;
  INVALID_TASK_ID : Z;
  MAX_LOG_LEN : Z;
}.

(** The values of the BESS tree the sources come from. *)
Definition bess_limits : Limits := {|
  MAX_GATES := 8192;
  MAX_TASKS_PER_MODULE := 32;
  MODULE_NAME_LEN := 128;
  INVALID_TASK_ID := 65535;
  MAX_LOG_LEN := 2048;
|}.

(** [gate_idx_t] is a 16-bit unsigned integer. *)
Definition GATE_IDX_MOD : Z := 65536.
Definition INT_MAX : Z := 2147483647.

(** ** Data model *)

(** Addresses.  Each kind of object lives in its own heap; [None] in a
    pointer-typed field is the NULL pointer. *)
Abbreviation ptr := nat (only parsing).

(** [struct mclass].  Function pointers are kept as opaque identifiers.  The
    [init] hook is external code: towards the core it is the list of
    [register_task] arguments it issues on the new module and the error
    object it returns (its code; NULL is [None]). *)
Record mclass := Mclass {
  name : string;
  def_module_name : option string;
  num_igates : Z;
  num_ogates : Z;
  init : option (Z → list Z * option Z);
  deinit : bool;
  process_batch : option nat;
  run_task : option nat;
}.

(** [struct gates]: the array [arr]; [curr_size] is its length. *)
Record gates := Gates { arr : list (option ptr) }.

Definition curr_size (g : gates) : Z := Z.of_nat (length (arr g)).

(** [struct gate].  The intrusive list [in.ogates_upstream] of an input gate
    is kept as the list of the output gates linked on it, in list order; the
    node [out.igate_upstream] of an output gate is its occurrence there. *)
Record gate := Gate {
  g_m : option ptr;
  gate_idx : Z;
  g_f : option nat;
  g_arg : option ptr;
  out_igate : option ptr;
  out_igate_idx : Z;
  in_ogates_upstream : list ptr;
}.

(** What [rte_zmalloc] hands out for a gate. *)
Definition zero_gate : gate :=
  Gate None 0 None None None 0 [].

(** Modelled from the spec: task.c is absent; a task is "created by
    task_create(module, arg)" and remembers both. *)
Record task := Task { t_m : ptr; t_arg : Z }.

(** [struct module]; [m_name] is the name buffer ([None]: not allocated). *)
Record module := Module_ {
  m_mclass : mclass;
  m_name : option string;
  tasks : list (option ptr);
  igates : gates;
  ogates : gates;
}.

(** Calls recorded while a module is torn down. *)
Inductive event :=
  | EvDeinit (m : ptr)
  | EvDisconnect (m : ptr) (idx : Z)
  | EvTaskDestroy (t : ptr)
  | EvNsRemove (nm : string)
  | EvFree (m : ptr).

(** The program state: the three heaps, the namespace (modelled from the
    spec: namespace.c is absent; "a typed mapping (type_tag, name) → handle",
    of which only type MODULE is used), the outcome of the allocation
    requests to come ([false]: the request fails; none left: it succeeds),
    and the teardown log. *)
Record state := State {
  modules : gmap nat module;
  gmem : gmap nat gate;
  tmem : gmap nat task;
  ns : gmap string nat;
  alloc_plan : list bool;
  trace : list event;
}.

Definition empty_state : state := State ∅ ∅ ∅ ∅ [] [].

Definition set_modules (f : gmap nat module → gmap nat module) (s : state) : state :=
  State (f (modules s)) (gmem s) (tmem s) (ns s) (alloc_plan s) (trace s).
Definition set_gmem (f : gmap nat gate → gmap nat gate) (s : state) : state :=
  State (modules s) (f (gmem s)) (tmem s) (ns s) (alloc_plan s) (trace s).
Definition set_tmem (f : gmap nat task → gmap nat task) (s : state) : state :=
  State (modules s) (gmem s) (f (tmem s)) (ns s) (alloc_plan s) (trace s).
Definition set_ns (f : gmap string nat → gmap string nat) (s : state) : state :=
  State (modules s) (gmem s) (tmem s) (f (ns s)) (alloc_plan s) (trace s).
Definition set_alloc_plan (p : list bool) (s : state) : state :=
  State (modules s) (gmem s) (tmem s) (ns s) p (trace s).
Definition set_trace (f : list event → list event) (s : state) : state :=
  State (modules s) (gmem s) (tmem s) (ns s) (alloc_plan s) (f (trace s)).

(** ** The heap monad

    A computation either returns a value and a new state, or does not return
    normally ([None]): it dereferenced a NULL or dangling pointer, wrote
    outside an array, failed an [assert], or loops forever. *)
Definition M (A : Type) : Type := state → option (A * state).

Definition ret {A} (a : A) : M A := λ s, Some (a, s).
Definition fault {A} : M A := λ _, None.
Definition bind {A B} (c : M A) (k : A → M B) : M B :=
  λ s, match c s with Some (a, s') => k a s' | None => None end.

Notation "'let!' x ':=' c 'in' k" := (bind c (λ x, k))
  (at level 10, x name, c at level 100, k at level 200,
   format "'[v' 'let!'  x  ':='  c  'in' '/' k ']'").

Definition gets {A} (f : state → A) : M A := λ s, Some (f s, s).
Definition modify (f : state → state) : M unit := λ s, Some (tt, f s).

(** Dereference a possibly-NULL pointer-valued field. *)
Definition deref {A} (o : option A) : M A :=
  match o with Some a => ret a | None => fault end.

Definition get_module (m : ptr) : M module := λ s, deref (modules s !! m) s.
Definition put_module (m : ptr) (md : module) : M unit :=
  let! _ := get_module m in modify (set_modules <[m := md]>).
Definition get_gate (g : ptr) : M gate := λ s, deref (gmem s !! g) s.
Definition put_gate (g : ptr) (v : gate) : M unit :=
  let! _ := get_gate g in modify (set_gmem <[g := v]>).
Definition get_task (t : ptr) : M task := λ s, deref (tmem s !! t) s.
Definition emit (e : event) : M unit := modify (set_trace (λ tr, tr ++ [e])).

(** Run [body] on the elements of [l] in order. *)
Fixpoint for_each {A} (l : list A) (body : A → M unit) : M unit :=
  match l with
  | [] => ret tt
  | x :: l' => let! _ := body x in for_each l' body
  end.

(** The indices [0 .. n-1] of a counting loop. *)
Definition upto (n : Z) : list Z := Z.of_nat <$> seq 0 (Z.to_nat n).

(** ** Allocation *)

(** One allocation request: does it succeed? *)
Definition rte_alloc_ok : M bool := λ s,
  match alloc_plan s with
  | [] => Some (true, s)
  | b :: p => Some (b, set_alloc_plan p s)
  end.

(** [rte_zmalloc("gate", sizeof(struct gate), 0)]. *)
Definition rte_zmalloc_gate : M (option ptr) :=
  let! ok := rte_alloc_ok in
  if ok : bool then
    let! g := gets (λ s, fresh (dom (gmem s))) in
    let! _ := modify (set_gmem <[g := zero_gate]>) in
    ret (Some g)
  else ret None.

(** [rte_free] of a gate; freeing NULL does nothing. *)
Definition rte_free_gate (g : option ptr) : M unit :=
  match g with
  | Some g => modify (set_gmem (delete g))
  | None => ret tt
  end.

(** Modelled from the spec: [task_create(m, arg)] of the absent task.c,
    "creates a task through the external scheduler bound to (m, arg)";
    NULL on failure. *)
Definition task_create (m : ptr) (a : Z) : M (option ptr) :=
  let! ok := rte_alloc_ok in
  if ok : bool then
    let! t := gets (λ s, fresh (dom (tmem s))) in
    let! _ := modify (set_tmem <[t := Task m a]>) in
    ret (Some t)
  else ret None.

(** Modelled from the spec: [task_destroy] of the absent task.c releases the
    task. *)
Definition task_destroy (t : ptr) : M unit :=
  let! _ := get_task t in
  let! _ := emit (EvTaskDestroy t) in
  modify (set_tmem (delete t)).

(** ** Task registry *)

Definition set_tasks (md : module) (ts : list (option ptr)) : module :=
  Module_ (m_mclass md) (m_name md) ts (igates md) (ogates md).

(** The scan [for (id = 0; id < MAX_TASKS_PER_MODULE; id++) if (P(tasks[id]))]
    with [n] slots left to visit: the first index whose slot satisfies [P]. *)
Fixpoint scan_tasks (P : option ptr → bool) (ts : list (option ptr))
    (id n : nat) : M (option nat) :=
  match n with
  | O => ret None
  | S n' =>
      let! slot := deref (ts !! id) in
      if P slot then ret (Some id) else scan_tasks P ts (S id) n'
  end.

Definition is_null (slot : option ptr) : bool :=
  match slot with None => true | Some _ => false end.

Definition register_task `{Limits} (m : ptr) (a : Z) : M Z :=
  let! md := get_module m in
  match run_task (m_mclass md) with
  | None => ret INVALID_TASK_ID
  | Some _ =>
      let! found := scan_tasks is_null (tasks md) 0 MAX_TASKS_PER_MODULE in
      match found with
      | None => ret INVALID_TASK_ID
      | Some id =>
          let! t := task_create m a in
          match t with
          | None => ret INVALID_TASK_ID
          | Some t =>
              let! md := get_module m in
              let! _ := put_module m (set_tasks md (<[id := Some t]> (tasks md))) in
              ret (Z.of_nat id)
          end
      end
  end.

Definition task_to_tid `{Limits} (t : ptr) : M Z :=
  let! tk := get_task t in
  let! md := get_module (t_m tk) in
  let! found := scan_tasks (λ slot, bool_decide (slot = Some t)) (tasks md)
                  0 MAX_TASKS_PER_MODULE in
  match found with
  | Some id => ret (Z.of_nat id)
  | None => ret INVALID_TASK_ID
  end.

Definition destroy_all_tasks `{Limits} (m : ptr) : M unit :=
  for_each (seq 0 MAX_TASKS_PER_MODULE) (λ i,
    let! md := get_module m in
    let! slot := deref (tasks md !! i) in
    match slot with
    | Some t =>
        let! _ := task_destroy t in
        let! md := get_module m in
        put_module m (set_tasks md (<[i := None]> (tasks md)))
    | None => ret tt
    end).

(** [num_module_tasks(m)]: the loop over the slots with its counter, [n]
    slots left to visit. *)
Fixpoint count_tasks (ts : list (option ptr)) (id n : nat) (cnt : Z) : M Z :=
  match n with
  | O => ret cnt
  | S n' =>
      let! slot := deref (ts !! id) in
      count_tasks ts (S id) n' (if is_null slot then cnt else (cnt + 1)%Z)
  end.

Definition num_module_tasks `{Limits} (m : ptr) : M Z :=
  let! md := get_module m in
  count_tasks (tasks md) 0 MAX_TASKS_PER_MODULE 0.

(** ** Namespace and module names *)

(** [find_module]: namespace lookup of type MODULE. *)
Definition find_module (nm : string) : M (option ptr) :=
  gets (λ s, ns s !! nm).

(** Modelled from the spec: [ns_insert] of the absent namespace.c,
    "insert(type, name, obj) → ok | EEXIST". *)
Definition ns_insert (nm : string) (m : ptr) : M Z :=
  let! old := gets (λ s, ns s !! nm) in
  match old with
  | Some _ => ret (- EEXIST)%Z
  | None => let! _ := modify (set_ns <[nm := m]>) in ret 0%Z
  end.

(** Modelled from the spec: [ns_remove] of the absent namespace.c. *)
Definition ns_remove (nm : string) : M unit :=
  modify (set_ns (delete nm)).

(** Modelled from the spec: the iterator of the absent namespace.c,
    "init_iterator(type), next, release_iterator"; [ns_next] yields the
    registered objects one by one, each once, in an order the namespace
    fixes, and NULL after the last. *)
Definition ns_elements (s : state) : list ptr := (map_to_list (ns s)).*2.

(** The [while (1)] loop of [list_modules] over what the iterator has yet to
    yield; [p_arr] is the caller's array, [ret] and [iter_cnt] the two
    counters.  A store beyond the array is a fault. *)
Fixpoint list_modules_loop (it : list ptr) (p_arr : list (option ptr))
    (arr_size offset ret iter_cnt : Z) : option (Z * list (option ptr)) :=
  match it with
  | [] => Some (ret, p_arr)
  | module :: it' =>
      if (iter_cnt <? offset)%Z
      then list_modules_loop it' p_arr arr_size offset ret (iter_cnt + 1)
      else if (arr_size <=? ret)%Z then Some (ret, p_arr)
      else if (Z.to_nat ret <? length p_arr)%nat
      then list_modules_loop it' (<[Z.to_nat ret := Some module]> p_arr)
             arr_size offset (ret + 1) (iter_cnt + 1)
      else None
  end.

(** [list_modules(p_arr, arr_size, offset)]: the count and the array. *)
Definition list_modules (p_arr : list (option ptr)) (arr_size offset : Z)
    : M (Z * list (option ptr)) :=
  let! it := gets ns_elements in
  deref (list_modules_loop it p_arr arr_size offset 0 0).

(** <ctype.h> in the C locale. *)
Definition islower (c : ascii) : bool :=
  let n := nat_of_ascii c in (97 <=? n)%nat && (n <=? 122)%nat.
Definition isupper (c : ascii) : bool :=
  let n := nat_of_ascii c in (65 <=? n)%nat && (n <=? 90)%nat.
Definition tolower (c : ascii) : ascii :=
  if isupper c then ascii_of_nat (nat_of_ascii c + 32) else c.

(** The loop "CamelCase -> camel_case" of [set_default_name]; [prev] is
    [*(t - 1)], absent at the first character. *)
Fixpoint snake_case_from (prev : option ascii) (t : string) : string :=
  match t with
  | EmptyString => EmptyString
  | String c t' =>
      let rest := String (tolower c) (snake_case_from (Some c) t') in
      match prev with
      | Some p => if islower p && isupper c then String "_" rest else rest
      | None => rest
      end
  end.

Definition snake_case (template : string) : string :=
  snake_case_from None template.

(** The number of places in [t] where [set_default_name] writes an
    underscore: an upper-case letter after a lower-case one; [prev] is the
    character before [t]. *)
Fixpoint humps_from (prev : option ascii) (t : string) : nat :=
  match t with
  | EmptyString => 0
  | String c t' =>
      (match prev with
       | Some p => if islower p && isupper c then 1 else 0
       | None => 0
       end) + humps_from (Some c) t'
  end.

Definition humps (template : string) : nat := humps_from None template.

(** The size of the array [fmt] of [set_default_name] for a class name:
    [alloca(strlen(template) + 16)]. *)
Definition fmt_size (template : string) : nat := String.length template + 16.

Fixpoint has_percent (t : string) : bool :=
  match t with
  | EmptyString => false
  | String c t' => bool_decide (c = "%"%char) || has_percent t'
  end.

Definition set_name (md : module) (nm : option string) : module :=
  Module_ (m_mclass md) nm (tasks md) (igates md) (ogates md).

(** The probing loop [for (i = 0; ; i++)] of [set_default_name]:
    [snprintf(m->name, MODULE_NAME_LEN, fmt, i)] with [fmt] = [base] followed
    by "%d", the [assert] on its result, and the lookup.  [i] is an [int]. *)
Fixpoint probe_names `{Limits} (fuel : nat) (m : ptr) (base : string) (i : Z)
    : M unit :=
  match fuel with
  | O => fault
  | S fuel' =>
      if (INT_MAX <? i)%Z then fault else
      let cand := base +:+ pretty i in
      if (String.length cand <? MODULE_NAME_LEN)%nat then
        let! md := get_module m in
        let! _ := deref (m_name md) in
        let! _ := put_module m (set_name md (Some cand)) in
        let! found := find_module cand in
        match found with
        | None => ret tt
        | Some _ => probe_names fuel' m base (i + 1)%Z
        end
      else fault
  end.

(** The text before the number in a default name: the class's
    [def_module_name] if set, else its name in snake case. *)
Definition default_name_base (mc : mclass) : string :=
  match def_module_name mc with
  | Some d => d
  | None => snake_case (name mc)
  end.

(** The first half of [set_default_name], which fills the array [fmt] of
    [strlen + 16] bytes; the result is its text before the [%d] that
    [strcat] appends.  A [def_module_name] is copied and fits, with the
    [%d].  The snake-case loop writes the class name and one underscore for
    every lower-to-upper place in it; with the [%d] and the final NUL that
    is more than [fmt] holds when there are more than 13 such places, and
    the writes run past the array: a fault. *)
Definition default_fmt (mc : mclass) : M string :=
  match def_module_name mc with
  | Some d => ret d
  | None =>
      if (fmt_size (name mc)
          <? String.length (snake_case (name mc) +:+ "%d") + 1)%nat
      then fault
      else ret (snake_case (name mc))
  end.

(** [set_default_name].  A [%] in the base name would be a conversion
    specification of [snprintf]; such names are outside this model.  The
    probing loop gets one round more than there are names bound, which is
    all it can use (lemmas [probe_names_fuel], [set_default_name_run]). *)
Definition set_default_name `{Limits} (m : ptr) : M unit :=
  let! md := get_module m in
  let! base := default_fmt (m_mclass md) in
  if has_percent base then fault else
  let! n := gets (λ s, size (ns s)) in
  probe_names (S n) m base 0.

Definition register_module (m : ptr) : M Z :=
  let! md := get_module m in
  let! nm := deref (m_name md) in
  let! r := ns_insert nm m in
  if (r <? 0)%Z then ret r else ret 0%Z.

(** ** Module life cycle *)

(** [rte_zmalloc("module", sizeof(struct module) + priv_size, 0)] followed by
    [m->mclass = mclass]. *)
Definition rte_zmalloc_module `{Limits} (mc : mclass) : M (option ptr) :=
  let! ok := rte_alloc_ok in
  if ok : bool then
    let! m := gets (λ s, fresh (dom (modules s))) in
    let md := Module_ mc None (replicate MAX_TASKS_PER_MODULE None)
                (Gates []) (Gates []) in
    let! _ := modify (set_modules <[m := md]>) in
    ret (Some m)
  else ret None.

(** [m->name = rte_zmalloc("name", MODULE_NAME_LEN, 0)]; tells whether the
    buffer was obtained. *)
Definition rte_zmalloc_name (m : ptr) : M bool :=
  let! ok := rte_alloc_ok in
  if ok : bool then
    let! md := get_module m in
    let! _ := put_module m (set_name md (Some ""%string)) in
    ret true
  else ret false.

(** The [fail:] exit of [create_module] with a module at hand. *)
Definition create_fail `{Limits} (m : ptr) (err : Z) : M (option ptr * option Z) :=
  let! _ := destroy_all_tasks m in
  let! _ := modify (set_modules (delete m)) in
  ret (None, Some err).

(** [create_module(name, mclass, arg, perr)]: the module (NULL: [None]) and
    [*perr] (the code of the error object). *)
Definition create_module `{Limits} (nm : option string) (mc : mclass) (a : Z)
    : M (option ptr * option Z) :=
  let! dup := match nm with
              | Some n => find_module n
              | None => ret None
              end in
  match dup with
  | Some _ => ret (None, Some EEXIST)
  | None =>
      let! mo := rte_zmalloc_module mc in
      match mo with
      | None => ret (None, Some ENOMEM)
      | Some m =>
          let! got := rte_zmalloc_name m in
          if negb got then create_fail m ENOMEM else
          let! _ := match nm with
                    | None => set_default_name m
                    | Some n =>
                        let! md := get_module m in
                        put_module m
                          (set_name md
                             (Some (String.substring 0 (MODULE_NAME_LEN - 1) n)))
                    end in
          let! perr := match init mc with
                       | Some hook =>
                           let! _ := for_each (hook a).1 (λ ta,
                                       let! _ := register_task m ta in ret tt) in
                           ret (hook a).2
                       | None => ret None
                       end in
          match perr with
          | Some e => create_fail m e
          | None =>
              let! r := register_module m in
              if bool_decide (r ≠ 0%Z) then create_fail m (- r)%Z
              else ret (Some m, None)
          end
      end
  end.

(** ** Gate fabric *)

(** The two gate arrays of a module. *)
Inductive side := Igates | Ogates.

#[global] Instance side_eq_dec : EqDecision side.
Proof. solve_decision. Defined.

Definition get_gates (sd : side) (md : module) : gates :=
  match sd with Igates => igates md | Ogates => ogates md end.

Definition set_gates (sd : side) (md : module) (g : gates) : module :=
  match sd with
  | Igates => Module_ (m_mclass md) (m_name md) (tasks md) g (ogates md)
  | Ogates => Module_ (m_mclass md) (m_name md) (tasks md) (igates md) g
  end.

(** Modelled from the spec: [is_active_gate] of the absent module.h; "slot
    emptiness (null) means not an active gate". *)
Definition is_active_gate (g : gates) (idx : Z) : bool :=
  (0 <=? idx)%Z && (idx <? curr_size g)%Z &&
  match arr g !! Z.to_nat idx with
  | Some (Some _) => true
  | _ => false
  end.

(** [gates->arr[idx]], read and written. *)
Definition read_slot (g : gates) (idx : Z) : M (option ptr) :=
  if (0 <=? idx)%Z then deref (arr g !! Z.to_nat idx) else fault.

Definition write_slot (m : ptr) (sd : side) (idx : Z) (v : option ptr) : M unit :=
  let! md := get_module m in
  let g := get_gates sd md in
  if (0 <=? idx)%Z && (idx <? curr_size g)%Z then
    put_module m (set_gates sd md (Gates (<[Z.to_nat idx := v]> (arr g))))
  else fault.

(** Modelled from the spec: the list operations of the absent cdlist.h, on
    "the set of upstream ogates" of an input gate: initialise, "add the new
    ogate to the igate's upstream set", "remove the ogate from its downstream
    igate's upstream set", and the emptiness test. *)
Definition set_upstream (g : gate) (l : list ptr) : gate :=
  Gate (g_m g) (gate_idx g) (g_f g) (g_arg g) (out_igate g) (out_igate_idx g) l.

Definition cdlist_head_init (igate : ptr) : M unit :=
  let! ig := get_gate igate in put_gate igate (set_upstream ig []).

Definition cdlist_add_tail (igate ogate : ptr) : M unit :=
  let! ig := get_gate igate in
  put_gate igate (set_upstream ig (in_ogates_upstream ig ++ [ogate])).

Definition cdlist_del (igate ogate : ptr) : M unit :=
  let! ig := get_gate igate in
  put_gate igate
    (set_upstream ig (filter (λ o, o ≠ ogate) (in_ogates_upstream ig))).

Definition cdlist_is_empty (igate : ptr) : M bool :=
  let! ig := get_gate igate in
  ret (bool_decide (in_ogates_upstream ig = [])).

(** The loop [while (new_size <= gate) new_size *= 2] of [grow_gates] on
    16-bit unsigned integers, with [fuel] doublings allowed. *)
Fixpoint grow_size (fuel : nat) (new_size gate : Z) : option Z :=
  if (new_size <=? gate)%Z then
    match fuel with
    | O => None
    | S fuel' => grow_size fuel' ((new_size * 2) mod GATE_IDX_MOD)%Z gate
    end
  else Some new_size.

(** [grow_gates(m, gates, gate)].  Sixteen doublings decide the loop: after
    them [new_size] is 0 and stays so (lemma [grow_size_fuel]), and the
    loop does not end.  A new size below the old one would make the [memset]
    length wrap around. *)
Definition grow_gates `{Limits} (m : ptr) (sd : side) (gate : Z) : M Z :=
  let! md := get_module m in
  let g := get_gates sd md in
  let start := if (curr_size g =? 0)%Z then 1%Z else curr_size g in
  let! doubled := deref (grow_size 16 start gate) in
  let new_size := if (MAX_GATES <? doubled)%Z then MAX_GATES else doubled in
  let! ok := rte_alloc_ok in
  if ok : bool then
    if (new_size <? curr_size g)%Z then fault else
    let! _ := put_module m
                (set_gates sd md (Gates (resize (Z.to_nat new_size) None (arr g)))) in
    ret 0%Z
  else ret (- ENOMEM)%Z.

(** [connect_modules(m_prev, ogate_idx, m_next, igate_idx)]. *)
Definition connect_modules `{Limits} (m_prev : ptr) (ogate_idx : Z)
    (m_next : ptr) (igate_idx : Z) : M Z :=
  let! prev := get_module m_prev in
  let! next := get_module m_next in
  if bool_decide (process_batch (m_mclass next) = None) then ret (- EINVAL)%Z else
  if (num_ogates (m_mclass prev) <=? ogate_idx)%Z || (MAX_GATES <=? ogate_idx)%Z
  then ret (- EINVAL)%Z else
  if (num_igates (m_mclass next) <=? igate_idx)%Z || (MAX_GATES <=? igate_idx)%Z
  then ret (- EINVAL)%Z else
  let! r := if (curr_size (ogates prev) <=? ogate_idx)%Z
            then grow_gates m_prev Ogates ogate_idx else ret 0%Z in
  if bool_decide (r ≠ 0%Z) then ret r else
  let! prev := get_module m_prev in
  if is_active_gate (ogates prev) ogate_idx then ret (- EBUSY)%Z else
  let! next := get_module m_next in
  let! r := if (curr_size (igates next) <=? igate_idx)%Z
            then grow_gates m_next Igates igate_idx else ret 0%Z in
  if bool_decide (r ≠ 0%Z) then ret r else
  let! og := rte_zmalloc_gate in
  match og with
  | None => ret (- ENOMEM)%Z
  | Some ogate =>
      let! _ := write_slot m_prev Ogates ogate_idx (Some ogate) in
      let! next := get_module m_next in
      let! old := read_slot (igates next) igate_idx in
      let! ig := match old with
                 | Some igate => ret (Some igate)
                 | None =>
                     let! fresh_ig := rte_zmalloc_gate in
                     match fresh_ig with
                     | None =>
                         let! _ := rte_free_gate (Some ogate) in ret None
                     | Some igate =>
                         let! _ := write_slot m_next Igates igate_idx (Some igate) in
                         let! g := get_gate igate in
                         let! _ := put_gate igate
                                     (Gate (Some m_next) igate_idx
                                        (process_batch (m_mclass next))
                                        (Some m_next)
                                        (out_igate g) (out_igate_idx g)
                                        (in_ogates_upstream g)) in
                         let! _ := cdlist_head_init igate in
                         ret (Some igate)
                     end
                 end in
      match ig with
      | None => ret (- ENOMEM)%Z
      | Some igate =>
          let! next := get_module m_next in
          let! g := get_gate ogate in
          let! _ := put_gate ogate
                      (Gate (Some m_prev) ogate_idx
                         (process_batch (m_mclass next)) (Some m_next)
                         (Some igate) igate_idx (in_ogates_upstream g)) in
          let! _ := cdlist_add_tail igate ogate in
          ret 0%Z
      end
  end.

(** [disconnect_modules(m_prev, ogate_idx)]. *)
Definition disconnect_modules (m_prev : ptr) (ogate_idx : Z) : M Z :=
  let! prev := get_module m_prev in
  if (num_ogates (m_mclass prev) <=? ogate_idx)%Z then ret (- EINVAL)%Z else
  if negb (is_active_gate (ogates prev) ogate_idx) then ret 0%Z else
  let! slot := read_slot (ogates prev) ogate_idx in
  match slot with
  | None => ret 0%Z
  | Some ogate =>
      let! og := get_gate ogate in
      let! igate := deref (out_igate og) in
      let! _ := cdlist_del igate ogate in
      let! empty := cdlist_is_empty igate in
      let! _ := if empty : bool then
                  let! ig := get_gate igate in
                  let! m_next := deref (g_m ig) in
                  let! og := get_gate ogate in
                  let! _ := write_slot m_next Igates (out_igate_idx og) None in
                  rte_free_gate (Some igate)
                else ret tt in
      let! _ := rte_free_gate (Some ogate) in
      let! _ := write_slot m_prev Ogates ogate_idx None in
      ret 0%Z
  end.

(** [destroy_module(m)].  The "safe" list walk reads the link to the next
    node before the body runs, and the body unlinks the current node only:
    the walk visits the output gates linked at its start, in order.  Neither
    loop body resizes a gate array, so the bounds are those at loop entry. *)
Definition destroy_module `{Limits} (m : ptr) : M unit :=
  let! md := get_module m in
  let! _ := if deinit (m_mclass md) then emit (EvDeinit m) else ret tt in
  let! _ := for_each (upto (curr_size (igates md))) (λ i,
              let! md := get_module m in
              if negb (is_active_gate (igates md) i) then ret tt else
              let! slot := read_slot (igates md) i in
              let! igate := deref slot in
              let! ig := get_gate igate in
              for_each (in_ogates_upstream ig) (λ ogate,
                let! og := get_gate ogate in
                let! om := deref (g_m og) in
                let! _ := emit (EvDisconnect om (gate_idx og)) in
                let! _ := disconnect_modules om (gate_idx og) in
                ret tt)) in
  let! md := get_module m in
  let! _ := for_each (upto (curr_size (ogates md))) (λ i,
              let! _ := emit (EvDisconnect m i) in
              let! _ := disconnect_modules m i in
              ret tt) in
  let! _ := destroy_all_tasks m in
  let! md := get_module m in
  let! nm := deref (m_name md) in
  let! _ := emit (EvNsRemove nm) in
  let! _ := ns_remove nm in
  let! _ := emit (EvFree m) in
  modify (set_modules (delete m)).

(** ** The logger (core/log.c) *)

Module Log.

Definition MAX_LOG_PRIORITY : Z := 7.
Definition LOG_ERR : Z := 3.

Definition NUL : ascii := "000"%char.
Definition LF : ascii := "010"%char.

(** [struct logger]: the array [buf] of [MAX_LOG_LEN * 2] characters and
    [len]. *)
Record logger := Logger { buf : list ascii; len : Z }.

(** One thread's [loggers] array, and the calls made to [do_log] so far:
    priority and the [len] characters at [data]. *)
Record log_state := LogState {
  loggers : list logger;
  sink : list (Z * list ascii);
}.

(** The text a logger holds: the first [len] characters of [buf]. *)
Definition pending (lg : logger) : list ascii :=
  take (Z.to_nat (len lg)) (buf lg).

Definition do_log (priority : Z) (data : list ascii) (st : log_state) : log_state :=
  LogState (loggers st) (sink st ++ [(priority, data)]).

(** Overwrite [b] from offset [off] on with [data]. *)
Definition store (b : list ascii) (off : nat) (data : list ascii) : list ascii :=
  take off b ++ data ++ drop (off + length data) b.

(** [vsnprintf(buf + off, size, fmt, ap)] where the conversions produce
    [msg]: at most [size - 1] characters and a terminating NUL are written;
    the result is the length of [msg]. *)
Definition vsnprintf (b : list ascii) (off size : nat) (msg : list ascii)
    : list ascii * Z :=
  match size with
  | O => (b, Z.of_nat (length msg))
  | S k => (store b off (take k msg ++ [NUL]), Z.of_nat (length msg))
  end.

(** [strchr(p, '\n')] on the characters from [p] on: [None] when the scan
    leaves the array, [Some None] for a NULL result, else the offset of the
    first line feed. *)
Fixpoint strchr_lf (l : list ascii) : option (option nat) :=
  match l with
  | [] => None
  | c :: l' =>
      if bool_decide (c = LF) then Some (Some O)
      else if bool_decide (c = NUL) then Some None
      else match strchr_lf l' with
           | Some (Some k) => Some (Some (S k))
           | r => r
           end
  end.

(** The [for (;;)] loop of [log_vfmt]: [p] is an offset into [b]; the result
    is the final [p], [len] and state. *)
Fixpoint flush_lines (fuel : nat) (priority : Z) (b : list ascii) (p : nat)
    (ln : Z) (st : log_state) : option (nat * Z * log_state) :=
  match fuel with
  | O => None
  | S fuel' =>
      match strchr_lf (drop p b) with
      | None => None
      | Some None => Some (p, ln, st)
      | Some (Some k) =>
          flush_lines fuel' priority b (p + k + 1)
            (ln - (Z.of_nat k + 1))
            (do_log priority (take (k + 1) (drop p b)) st)
      end
  end.

Definition string_chars (s : string) : list ascii := String.list_ascii_of_string s.

(** [log_vfmt(priority, fmt, ap)]; [msg] is the formatted text.  Every round
    of the loop moves [p] forward, so one round per character of [buf] and a
    last one are all it can take. *)
Definition log_vfmt `{Limits} (priority : Z) (msg : list ascii) (st : log_state)
    : option log_state :=
  match loggers st !! Z.to_nat priority with
  | None => None
  | Some lg =>
      let free_space := (Z.of_nat (length (buf lg)) - len lg)%Z in
      if (free_space <? MAX_LOG_LEN)%Z then None else
      let '(b, to_write) :=
        vsnprintf (buf lg) (Z.to_nat (len lg)) (Z.to_nat free_space) msg in
      if (free_space <=? to_write)%Z then
        Some (do_log LOG_ERR
                (string_chars ("Too large log message: " +:+ pretty to_write
                               +:+ " bytes" +:+ String LF EmptyString))
                (LogState (<[Z.to_nat priority := Logger b (len lg)]> (loggers st))
                   (sink st)))
      else
        let ln := (len lg + to_write)%Z in
        match flush_lines (S (length b)) priority b 0 ln st with
        | None => None
        | Some (p, ln, st') =>
            let b' := if bool_decide (p ≠ O) && (0 <? ln)%Z
                      then store b 0 (take (Z.to_nat ln) (drop p b))
                      else b in
            Some (LogState (<[Z.to_nat priority := Logger b' ln]> (loggers st'))
                    (sink st'))
        end
  end.

Definition _log `{Limits} (priority : Z) (msg : list ascii) (st : log_state)
    : option log_state :=
  if (priority <? 0)%Z || (MAX_LOG_PRIORITY <? priority)%Z then Some st
  else log_vfmt priority msg st.

(** A logger array as the loader leaves it: zeroed. *)
Definition fresh_loggers `{Limits} : list logger :=
  replicate (Z.to_nat (MAX_LOG_PRIORITY + 1))
    (Logger (replicate (Z.to_nat (MAX_LOG_LEN * 2)) NUL) 0).

End Log.

(** ** Consistency of the gate graph

    The invariants of the data model (section 3 of the spec), in the form
    that connection and disconnection keep: the two directions of the gate
    references, and with them where each gate sits. *)

(** The gate installed in slot [idx] of a gate array of module [m]. *)
Definition slot_in (sd : side) (mods : gmap nat module) (m : ptr) (idx : nat)
    : option ptr :=
  match mods !! m with
  | Some md =>
      match arr (get_gates sd md) !! idx with
      | Some (Some g) => Some g
      | _ => None
      end
  | None => None
  end.

Definition slot_at (sd : side) (s : state) (m : ptr) (idx : nat) : option ptr :=
  slot_in sd (modules s) m idx.

(** [P idx g] for every gate [g] installed in a slot [idx] of the array. *)
Definition slots_ok (P : nat → ptr → Prop) (a : list (option ptr)) : Prop :=
  ∀ idx g, a !! idx = Some (Some g) → P idx g.

(** The active output gate [o] in slot [idx] of module [m]: it is live and
    knows its place, its index is one the class allows, and it references an
    input gate that is installed where [o] says, on the module [o] calls,
    and that has [o] among its upstream gates. *)
Definition ogate_ok (s : state) (m : ptr) (md : module) (idx : nat) (o : ptr) : Prop :=
  match gmem s !! o with
  | Some og =>
      g_m og = Some m ∧ gate_idx og = Z.of_nat idx ∧
      (Z.of_nat idx < num_ogates (m_mclass md))%Z ∧
      (0 ≤ out_igate_idx og)%Z ∧
      match out_igate og with
      | Some i =>
          match gmem s !! i with
          | Some ig =>
              o ∈ in_ogates_upstream ig ∧ g_arg og = g_m ig ∧
              match g_m ig with
              | Some mn =>
                  slot_at Igates s mn (Z.to_nat (out_igate_idx og)) = Some i
              | None => False
              end
          | None => False
          end
      | None => False
      end
  | None => False
  end.

(** What an input gate asks of an output gate [o] on its upstream list. *)
Definition upstream_ok (s : state) (i : ptr) (idx : nat) (o : ptr) : Prop :=
  match gmem s !! o with
  | Some og =>
      out_igate og = Some i ∧ out_igate_idx og = Z.of_nat idx ∧
      (0 ≤ gate_idx og)%Z ∧
      match g_m og with
      | Some mo => slot_at Ogates s mo (Z.to_nat (gate_idx og)) = Some o
      | None => False
      end
  | None => False
  end.

(** The active input gate [i] in slot [idx] of module [m]: it is live and
    knows its place, its upstream list is not empty and names each gate
    once, and every gate on it is an active output gate referencing [i]. *)
Definition igate_ok (s : state) (m : ptr) (idx : nat) (i : ptr) : Prop :=
  match gmem s !! i with
  | Some ig =>
      g_m ig = Some m ∧ gate_idx ig = Z.of_nat idx ∧ out_igate ig = None ∧
      in_ogates_upstream ig ≠ [] ∧ NoDup (in_ogates_upstream ig) ∧
      Forall (upstream_ok s i idx) (in_ogates_upstream ig)
  | None => False
  end.

Definition module_gates_ok `{Limits} (s : state) (m : ptr) (md : module) : Prop :=
  slots_ok (ogate_ok s m md) (arr (ogates md)) ∧
  slots_ok (igate_ok s m) (arr (igates md)) ∧
  (curr_size (ogates md) ≤ MAX_GATES)%Z ∧
  (curr_size (igates md) ≤ MAX_GATES)%Z.

Definition consistent `{Limits} (s : state) : Prop :=
  map_Forall (module_gates_ok s) (modules s).

(** Task slots "contain only live tasks owned by this module", each once;
    the array has its fixed length and the name buffer exists. *)
Definition module_tasks_ok `{Limits} (s : state) (m : ptr) (md : module) : Prop :=
  length (tasks md) = MAX_TASKS_PER_MODULE ∧
  NoDup (omap id (tasks md)) ∧
  Forall (λ t, match tmem s !! t with
               | Some tk => t_m tk = m
               | None => False
               end) (omap id (tasks md)) ∧
  is_Some (m_name md).

Definition tasks_ok `{Limits} (s : state) : Prop :=
  map_Forall (module_tasks_ok s) (modules s).

(** The predicates are decidable, so they can be evaluated on a state. *)
Lemma slots_ok_Forall (P : nat → ptr → Prop) (a : list (option ptr)) :
  slots_ok P a ↔
  Forall (λ ix, match ix.2 with Some g => P ix.1 g | None => True end)
    (imap pair a).
Proof.
  unfold slots_ok. rewrite Forall_lookup. split.
  - intros Hs k [idx x] Hk. rewrite list_lookup_imap in Hk.
    destruct (a !! k) as [[g|]|] eqn:Ha; simplify_eq/=; [by apply Hs|done].
  - intros Hf idx g Ha.
    specialize (Hf idx (idx, Some g)). simpl in Hf. apply Hf.
    by rewrite list_lookup_imap, Ha.
Qed.

#[global] Instance slots_ok_dec (P : nat → ptr → Prop)
  `{∀ idx g, Decision (P idx g)} a : Decision (slots_ok P a).
Proof.
  assert (∀ ix : nat * option nat,
    Decision (match ix.2 with Some g => P ix.1 g | None => True end)) as Hd
    by (intros [idx [g|]]; simpl; apply _).
  destruct (Forall_dec _ (dec := Hd) (imap pair a)) as [Hf|Hf].
  - left. abstract (by apply slots_ok_Forall).
  - right. abstract (by rewrite slots_ok_Forall).
Defined.

#[global] Instance upstream_ok_dec s i idx o : Decision (upstream_ok s i idx o).
Proof. unfold upstream_ok. repeat case_match; apply _. Defined.

#[global] Instance ogate_ok_dec s m md idx o : Decision (ogate_ok s m md idx o).
Proof. unfold ogate_ok. repeat case_match; apply _. Defined.

#[global] Instance igate_ok_dec s m idx i : Decision (igate_ok s m idx i).
Proof. unfold igate_ok. repeat case_match; apply _. Defined.

#[global] Instance module_gates_ok_dec `{Limits} s m md :
  Decision (module_gates_ok s m md).
Proof. unfold module_gates_ok. apply _. Defined.

#[global] Instance consistent_dec `{Limits} s : Decision (consistent s).
Proof. unfold consistent. apply _. Defined.

#[global] Instance module_tasks_ok_dec `{Limits} s m md :
  Decision (module_tasks_ok s m md).
Proof.
  unfold module_tasks_ok.
  assert (∀ t, Decision (match tmem s !! t with
                         | Some tk => t_m tk = m
                         | None => False
                         end)) by (intros t; case_match; apply _).
  apply _.
Defined.

#[global] Instance tasks_ok_dec `{Limits} s : Decision (tasks_ok s).
Proof. unfold tasks_ok. apply _. Defined.

(** ** Vocabulary of the statements *)

(** Does the next allocation request succeed? *)
Definition next_alloc_ok (s : state) : bool :=
  match alloc_plan s with b :: _ => b | [] => true end.

(** Slot [id] is the lowest-index empty slot of [ts]. *)
Definition first_empty (ts : list (option ptr)) (id : nat) : Prop :=
  ts !! id = Some None ∧ ∀ j, j < id → ts !! j ≠ Some None.

(** Task slot [id] of module [m]. *)
Definition slot_of_task (s : state) (m : ptr) (id : nat) : option (option ptr) :=
  match modules s !! m with
  | Some md => tasks md !! id
  | None => None
  end.

(** The effect of a slot assignment and of an array growth on a module. *)
Definition put_slot (sd : side) (n : nat) (v : option ptr) (md : module) : module :=
  set_gates sd md (Gates (<[n := v]> (arr (get_gates sd md)))).

Definition grow_to (sd : side) (n : nat) (md : module) : module :=
  set_gates sd md (Gates (resize n None (arr (get_gates sd md)))).

(** An input gate with output gate [o] taken off its upstream list. *)
Definition unlink (o : ptr) (ig : gate) : gate :=
  set_upstream ig (filter (λ x, x ≠ o) (in_ogates_upstream ig)).

(** The heaps after [disconnect_modules] has cut the active output gate [o]
    in slot [n] of [m_prev] from the input gate [i] (in slot [k] of [mn]). *)
Definition disconnected_modules (m_prev : ptr) (n : nat) (o : ptr) (ig : gate)
    (mn : ptr) (k : nat) (mods : gmap nat module) : gmap nat module :=
  alter (put_slot Ogates n None) m_prev
    (if bool_decide (in_ogates_upstream (unlink o ig) = [])
     then alter (put_slot Igates k None) mn mods else mods).

Definition disconnected_gmem (o i : ptr) (ig : gate) (g : gmap nat gate)
    : gmap nat gate :=
  delete o (if bool_decide (in_ogates_upstream (unlink o ig) = [])
            then delete i (<[i := unlink o ig]> g)
            else <[i := unlink o ig]> g).

(** The outcome of the allocation request that comes [k] requests after
    the next one. *)
Definition nth_alloc_ok (s : state) (k : nat) : bool := nth k (alloc_plan s) true.

(** The result of [connect_modules] as the spec lists it: the checks in
    order, the first failure returned; [prev] and [next] are the two modules.
    The array growths and the two gate allocations are the allocation
    requests of the call, in this order. *)
Definition connect_result `{Limits} (s : state) (prev next : module)
    (ogate_idx igate_idx : Z) : Z :=
  if bool_decide (process_batch (m_mclass next) = None) then (- EINVAL)%Z
  else if bool_decide (num_ogates (m_mclass prev) ≤ ogate_idx ∨
                       MAX_GATES ≤ ogate_idx)%Z then (- EINVAL)%Z
  else if bool_decide (num_igates (m_mclass next) ≤ igate_idx ∨
                       MAX_GATES ≤ igate_idx)%Z then (- EINVAL)%Z
  else
    let grow_o := bool_decide (curr_size (ogates prev) ≤ ogate_idx)%Z in
    let grow_i := bool_decide (curr_size (igates next) ≤ igate_idx)%Z in
    let new_i := negb (is_active_gate (igates next) igate_idx) in
    let k1 := if grow_o then 1 else 0 in
    let k2 := k1 + (if grow_i then 1 else 0) in
    if grow_o && negb (nth_alloc_ok s 0) then (- ENOMEM)%Z
    else if is_active_gate (ogates prev) ogate_idx then (- EBUSY)%Z
    else if grow_i && negb (nth_alloc_ok s k1) then (- ENOMEM)%Z
    else if negb (nth_alloc_ok s k2) then (- ENOMEM)%Z
    else if new_i && negb (nth_alloc_ok s (S k2)) then (- ENOMEM)%Z
    else 0%Z.

(** Is slot [idx] of a gate array of module [m] active? *)
Definition active (sd : side) (s : state) (m : ptr) (idx : Z) : bool :=
  match modules s !! m with
  | Some md => is_active_gate (get_gates sd md) idx
  | None => false
  end.

(** What a successful [connect_modules(m_prev, oi, m_next, ii)] has done to
    state [s]: a new output gate [o] sits in the slot of [m_prev], which was
    empty, and is linked at the tail of the input gate [i] in the slot of
    [m_next], which either was there with upstream list [up0] or is new;
    nothing else has changed in the gate heap or in any slot. *)
Definition connected (s s' : state) (m_prev : ptr) (oi : Z) (m_next : ptr)
    (ii : Z) (o i : ptr) (up0 : list ptr) : Prop :=
  ∃ prev' next' og ig,
    modules s' !! m_prev = Some prev' ∧ modules s' !! m_next = Some next' ∧
    gmem s' !! o = Some og ∧ gmem s' !! i = Some ig ∧
    gmem s !! o = None ∧ o ≠ i ∧ (o ∉ up0) ∧
    g_m og = Some m_prev ∧ gate_idx og = oi ∧ g_arg og = Some m_next ∧
    out_igate og = Some i ∧ out_igate_idx og = ii ∧
    g_m ig = Some m_next ∧ gate_idx ig = ii ∧ out_igate ig = None ∧
    in_ogates_upstream ig = up0 ++ [o] ∧
    (match slot_at Igates s m_next (Z.to_nat ii) with
     | Some i0 => i0 = i ∧ ∃ ig0, gmem s !! i = Some ig0 ∧
                    ig = set_upstream ig0 (up0 ++ [o]) ∧
                    in_ogates_upstream ig0 = up0
     | None => gmem s !! i = None ∧ up0 = []
     end) ∧
    slot_at Ogates s m_prev (Z.to_nat oi) = None ∧
    (∀ g, g ≠ o → g ≠ i → gmem s' !! g = gmem s !! g) ∧
    (∀ sd m k, slot_at sd s' m k =
       if decide (sd = Ogates ∧ m = m_prev ∧ k = Z.to_nat oi) then Some o
       else if decide (sd = Igates ∧ m = m_next ∧ k = Z.to_nat ii) then Some i
       else slot_at sd s m k) ∧
    (∀ m, match modules s' !! m, modules s !! m with
          | Some md', Some md =>
              m_mclass md' = m_mclass md ∧ tasks md' = tasks md ∧
              m_name md' = m_name md ∧
              (curr_size (ogates md) ≤ curr_size (ogates md'))%Z ∧
              (curr_size (igates md) ≤ curr_size (igates md'))%Z
          | None, None => True
          | _, _ => False
          end) ∧
    tmem s' = tmem s ∧ ns s' = ns s ∧ trace s' = trace s.

(** How the gate arrays of the modules of [mods'] come from those of [mods]:
    [fo] on the output array of [m_prev], [fi] on the input array of
    [m_next], and nothing else. *)
Definition shaped (m_prev m_next : ptr)
    (fo fi : list (option ptr) → list (option ptr))
    (mods mods' : gmap nat module) : Prop :=
  ∀ m, match mods' !! m, mods !! m with
       | Some md', Some md =>
           m_mclass md' = m_mclass md ∧ tasks md' = tasks md ∧
           m_name md' = m_name md ∧
           arr (ogates md') =
             (if decide (m = m_prev) then fo (arr (ogates md)) else arr (ogates md)) ∧
           arr (igates md') =
             (if decide (m = m_next) then fi (arr (igates md)) else arr (igates md))
       | None, None => True
       | _, _ => False
       end.

(** The number of allocation requests a successful [connect_modules] makes. *)
Definition connect_requests (prev next : module) (ogate_idx igate_idx : Z) : nat :=
  (if bool_decide (curr_size (ogates prev) ≤ ogate_idx)%Z then 1 else 0) +
  (if bool_decide (curr_size (igates next) ≤ igate_idx)%Z then 1 else 0) +
  1 + (if is_active_gate (igates next) igate_idx then 0 else 1).

(** The number of occupied slots of a task array. *)
Definition occupied (ts : list (option ptr)) : nat :=
  length (omap Datatypes.id ts).

(** A task heap with the tasks of [l] released. *)
Definition delete_all (l : list ptr) (mp : gmap nat task) : gmap nat task :=
  foldl (λ acc t, delete t acc) mp l.

(** The state [destroy_all_tasks] has made of [s] when it has been through
    the first [i] task slots of module [m], whose record in [s] is [md]. *)
Definition tasks_destroyed (m : ptr) (md : module) (i : nat) (s : state) : state :=
  State (<[m := set_tasks md (replicate i None ++ drop i (tasks md))]> (modules s))
        (gmem s)
        (delete_all (omap Datatypes.id (take i (tasks md))) (tmem s))
        (ns s) (alloc_plan s)
        (trace s ++ (EvTaskDestroy <$> omap Datatypes.id (take i (tasks md)))).

(** State [s'] is state [s] with one more module [m], under construction:
    its tasks are live, distinct and new, and nothing else differs in the
    module heap, the task heap, the gate heap and the namespace. *)
Definition half_built `{Limits} (s s' : state) (m : ptr) : Prop :=
  ∃ md,
    modules s' !! m = Some md ∧ modules s !! m = None ∧
    delete m (modules s') = modules s ∧
    length (tasks md) = MAX_TASKS_PER_MODULE ∧
    NoDup (omap Datatypes.id (tasks md)) ∧
    Forall (λ t, is_Some (tmem s' !! t)) (omap Datatypes.id (tasks md)) ∧
    delete_all (omap Datatypes.id (tasks md)) (tmem s') = tmem s ∧
    gmem s' = gmem s ∧ ns s' = ns s.

(** Two records of one gate that differ at most in the upstream list. *)
Definition same_gate (g g' : gate) : Prop :=
  g' = set_upstream g (in_ogates_upstream g').

(** State [s'] comes from state [s] by disconnections: the tasks, the
    namespace and the allocator are the same; the same modules are live,
    with their class, tasks, name and array sizes; a slot holds what it held
    or nothing; a live gate was live, with the same fields but for the
    upstream list. *)
Definition shrinks (s s' : state) : Prop :=
  tmem s' = tmem s ∧ ns s' = ns s ∧ alloc_plan s' = alloc_plan s ∧
  (∀ m, match modules s' !! m, modules s !! m with
        | Some md', Some md =>
            m_mclass md' = m_mclass md ∧ tasks md' = tasks md ∧
            m_name md' = m_name md ∧
            length (arr (ogates md')) = length (arr (ogates md)) ∧
            length (arr (igates md')) = length (arr (igates md))
        | None, None => True
        | _, _ => False
        end) ∧
  (∀ sd m k, slot_at sd s' m k = None ∨ slot_at sd s' m k = slot_at sd s m k) ∧
  (∀ g g', gmem s' !! g = Some g' → ∃ g0, gmem s !! g = Some g0 ∧ same_gate g0 g').

(** State [s'] comes from [s] by disconnections from the input gate [i]:
    every other input gate is where it was, as it was. *)
Definition cuts (i : ptr) (s s' : state) : Prop :=
  shrinks s s' ∧
  (∀ m k i', slot_at Igates s m k = Some i' → i' ≠ i →
     slot_at Igates s' m k = Some i') ∧
  (∀ g g0, gmem s !! g = Some g0 → out_igate g0 = None → g ≠ i →
     gmem s' !! g = Some g0).

(** The call [disconnect_modules(ogate->m, ogate->gate_idx)] for the output
    gate [o]. *)
Definition disconnect_call (s : state) (o : ptr) : option event :=
  match gmem s !! o with
  | Some og =>
      match g_m og with
      | Some mo => Some (EvDisconnect mo (gate_idx og))
      | None => None
      end
  | None => None
  end.

(** The calls for the upstream gates of the input gates in the slots [a],
    in the order of the slots and of each upstream list. *)
Definition upstream_calls (s : state) (a : list (option ptr)) : list event :=
  a ≫= λ slot,
    match slot with
    | Some i =>
        match gmem s !! i with
        | Some ig => omap (disconnect_call s) (in_ogates_upstream ig)
        | None => []
        end
    | None => []
    end.

(** What [destroy_module(m)] does in state [s], in order; [md] is the record
    of [m] and [nm] its name. *)
Definition destroy_trace (s : state) (m : ptr) (md : module) (nm : string)
    : list event :=
  (if deinit (m_mclass md) then [EvDeinit m] else []) ++
  upstream_calls s (arr (igates md)) ++
  (EvDisconnect m <$> upto (curr_size (ogates md))) ++
  (EvTaskDestroy <$> omap Datatypes.id (tasks md)) ++
  [EvNsRemove nm; EvFree m].

(** The bodies of the three loops of [destroy_module], by name: the walk
    over an upstream list, the loop over the input slots and the loop over
    the output slots. *)
Definition walk_body (ogate : ptr) : M unit :=
  let! og := get_gate ogate in
  let! om := deref (g_m og) in
  let! _ := emit (EvDisconnect om (gate_idx og)) in
  let! _ := disconnect_modules om (gate_idx og) in
  ret tt.

Definition igate_body (m : ptr) (i : Z) : M unit :=
  let! md := get_module m in
  if negb (is_active_gate (igates md) i) then ret tt else
  let! slot := read_slot (igates md) i in
  let! igate := deref slot in
  let! ig := get_gate igate in
  for_each (in_ogates_upstream ig) walk_body.

Definition ogate_body (m : ptr) (i : Z) : M unit :=
  let! _ := emit (EvDisconnect m i) in
  let! _ := disconnect_modules m i in
  ret tt.

(** The state [disconnect_modules] leaves when it cuts the active output
    gate [o] in slot [n] of [m_prev] from the input gate [i], whose record
    is [ig], in slot [k] of [mn]. *)
Definition disconnected (s : state) (m_prev : ptr) (n : nat) (o i : ptr)
    (ig : gate) (mn : ptr) (k : nat) : state :=
  State (disconnected_modules m_prev n o ig mn k (modules s))
        (disconnected_gmem o i ig (gmem s))
        (tmem s) (ns s) (alloc_plan s) (trace s).

(** [c], run in a state that satisfies [P], returns only results and states
    that satisfy [Q]. *)
Definition triple {A} (P : state → Prop) (c : M A) (Q : A → state → Prop)
    : Prop :=
  ∀ s a s', P s → c s = Some (a, s') → Q a s'.

(** No gate array is longer than [MAX_GATES]. *)
Definition sizes_ok `{Limits} (s : state) : Prop :=
  ∀ m md, modules s !! m = Some md →
    (curr_size (ogates md) ≤ MAX_GATES)%Z ∧ (curr_size (igates md) ≤ MAX_GATES)%Z.

(** The instance [m] of [create_module] in state [s]: it is of class [mc],
    its name buffer holds [nmo], its gate arrays are empty and the tasks in
    its slots are its own. *)
Definition instance_of (mc : mclass) (nmo : option string) (s : state) (m : ptr)
    : Prop :=
  ∃ md, modules s !! m = Some md ∧ m_mclass md = mc ∧ m_name md = nmo ∧
    igates md = Gates [] ∧ ogates md = Gates [] ∧
    Forall (λ t, ∃ tk, tmem s !! t = Some tk ∧ t_m tk = m)
      (omap Datatypes.id (tasks md)).

(** ** States used to try the theorems on *)

Module Demo.

(** A class with one hook of each kind, two input and two output gates. *)
Definition cls (nm : string) : mclass :=
  Mclass nm None 2 2 None true (Some 1) (Some 2).

(** A class without [run_task]. *)
Definition cls_no_task : mclass :=
  Mclass "Sink" None 1 0 None false (Some 1) None.

(** A class whose init hook registers two tasks and then reports EINVAL. *)
Definition cls_init_fails : mclass :=
  Mclass "Broken" None 1 1 (Some (λ _, ([5; 7]%Z, Some EINVAL))) true (Some 1) (Some 2).

(** The state a computation leaves ([s] itself if it does not return). *)
Definition after {A} (c : M A) (s : state) : state :=
  match c s with Some (_, s') => s' | None => s end.

Definition result {A} (c : M A) (s : state) : option A :=
  fst <$> c s.

(** Three modules [0], [1], [2] of a class named MyIPChecksum, created with
    the limits of BESS and default names. *)
Definition three_modules : state :=
  let mk := create_module (H := bess_limits) None (cls "MyIPChecksum") 0 in
  after mk (after mk (after mk empty_state)).

(** Fan-in: the output gates 0 of module 0 and 1 of module 2 both feed input
    gate 0 of module 1. *)
Definition fan_in : state :=
  after (connect_modules (H := bess_limits) 2 1 1 0)
    (after (connect_modules (H := bess_limits) 0 0 1 0) three_modules).

(** [fan_in] with output gate 0 of module 1 feeding input gate 0 of module 2
    and a task registered on module 1. *)
Definition wired : state :=
  after (register_task (H := bess_limits) 1 5)
    (after (connect_modules (H := bess_limits) 1 0 2 0) fan_in).

(** Module 0 with two tasks registered. *)
Definition two_tasks : state :=
  after (register_task (H := bess_limits) 0 7)
    (after (register_task (H := bess_limits) 0 5) three_modules).

(** [three_modules] with an allocator that serves three requests and
    refuses the fourth. *)
Definition fourth_alloc_fails : state :=
  set_alloc_plan [true; true; true; false] three_modules.

(** The module a call of [create_module] returned, and its name. *)
Definition created_ptr (r : option ((option ptr * option Z) * state)) : option ptr :=
  match r with
  | Some ((Some m, _), _) => Some m
  | _ => None
  end.

Definition created_name (r : option ((option ptr * option Z) * state))
    : option string :=
  match r with
  | Some ((Some m, _), s') =>
      match modules s' !! m with
      | Some md => m_name md
      | None => None
      end
  | _ => None
  end.

(** Scenario S3 of the spec: three creations without a name against a class
    named MyIPChecksum, the middle module destroyed, a fourth creation; the
    four names chosen. *)
Definition scenario_S3 : list (option string) :=
  let mk := create_module (H := bess_limits) None (cls "MyIPChecksum") 0 in
  let s1 := after mk empty_state in
  let s2 := after mk s1 in
  let s3 := after mk s2 in
  let s4 := after (destroy_module (H := bess_limits)
                     (default 0 (created_ptr (mk s1)))) s3 in
  [created_name (mk empty_state); created_name (mk s1);
   created_name (mk s2); created_name (mk s4)].

(** [three_modules] with a fourth module allocated and its name buffer
    obtained, as [create_module] has it when it calls [set_default_name]. *)
Definition naming : state :=
  after (rte_zmalloc_name 3)
    (after (rte_zmalloc_module (H := bess_limits) (cls "MyIPChecksum"))
       three_modules).

(** The record of module [m] (a blank one if [m] is not live). *)
Definition module_of (s : state) (m : ptr) : module :=
  default (Module_ cls_no_task None [] (Gates []) (Gates [])) (modules s !! m).

(** A name of 130 characters, longer than the name buffer of BESS. *)
Definition long_name : string :=
  String.string_of_list_ascii (replicate 130 "a"%char).

(** A thread that has logged [ab], a line feed and [cd] at priority 6
    (LOG_INFO): the line went out, the logger holds [cd]. *)
Definition log_start : Log.log_state :=
  Log.LogState (Log.fresh_loggers (H := bess_limits)) [].

Definition log_pending : Log.log_state :=
  default log_start
    (Log._log (H := bess_limits) 6
       (Log.string_chars "ab" ++ Log.LF :: Log.string_chars "cd") log_start).

(** Logger [p] of a thread (an empty one if there is none). *)
Definition logger_of (st : Log.log_state) (p : nat) : Log.logger :=
  default (Log.Logger [] 0) (Log.loggers st !! p).

End Demo.

(* ===================================================================== *)
(** * Part II: lemmas and theorems                                        *)
(* ===================================================================== *)

(** ** Stepping through monadic code *)

Lemma bind_Some {A B} (c : M A) (k : A → M B) s r :
  bind c k s = Some r ↔ ∃ a s', c s = Some (a, s') ∧ k a s' = Some r.
Proof.
  unfold bind. destruct (c s) as [[a s']|]; split.
  - intros Hk. exists a, s'. by split.
  - by intros (? & ? & [= <- <-] & ?).
  - done.
  - by intros (? & ? & ? & ?).
Qed.

Lemma bind_eq {A B} (c : M A) (k : A → M B) s a s' :
  c s = Some (a, s') → bind c k s = k a s'.
Proof. unfold bind. by intros ->. Qed.

Lemma get_module_eq s m md :
  modules s !! m = Some md → get_module m s = Some (md, s).
Proof. unfold get_module. by intros ->. Qed.

Lemma get_gate_eq s g v : gmem s !! g = Some v → get_gate g s = Some (v, s).
Proof. unfold get_gate. by intros ->. Qed.

Lemma get_task_eq s t v : tmem s !! t = Some v → get_task t s = Some (v, s).
Proof. unfold get_task. by intros ->. Qed.

Lemma put_module_eq s m md md' :
  modules s !! m = Some md →
  put_module m md' s = Some (tt, set_modules <[m := md']> s).
Proof. intros Hm. unfold put_module. by rewrite (bind_eq _ _ _ _ _ (get_module_eq _ _ _ Hm)). Qed.

Lemma put_gate_eq s g v v' :
  gmem s !! g = Some v → put_gate g v' s = Some (tt, set_gmem <[g := v']> s).
Proof. intros Hg. unfold put_gate. by rewrite (bind_eq _ _ _ _ _ (get_gate_eq _ _ _ Hg)). Qed.

(** Inversion of the primitive steps met in a hypothesis. *)
Ltac minv :=
  repeat match goal with
  | H : bind _ _ _ = Some _ |- _ =>
      apply bind_Some in H; destruct H as (? & ? & ? & H)
  | H : ret _ _ = Some _ |- _ => unfold ret in H; simplify_eq
  | H : fault _ = Some _ |- _ => discriminate H
  | H : gets _ _ = Some _ |- _ => unfold gets in H; simplify_eq
  | H : modify _ _ = Some _ |- _ => unfold modify in H; simplify_eq
  | H : deref ?o _ = Some _ |- _ =>
      let E := fresh "E" in
      destruct o eqn:E; [unfold deref, ret in H; simplify_eq|discriminate H]
  | H : get_module _ _ = Some _ |- _ => unfold get_module in H
  | H : get_gate _ _ = Some _ |- _ => unfold get_gate in H
  | H : get_task _ _ = Some _ |- _ => unfold get_task in H
  | H : put_module _ _ _ = Some _ |- _ => unfold put_module in H
  | H : put_gate _ _ _ = Some _ |- _ => unfold put_gate in H
  end.

(** Unfold the primitive steps and the state projections. *)
Ltac mred :=
  repeat progress
    (unfold bind, ret, fault, gets, modify, deref, get_module, put_module,
       get_gate, put_gate, get_task, emit;
     cbn [modules gmem tmem ns alloc_plan trace set_modules set_gmem set_tmem
          set_ns set_alloc_plan set_trace fst snd]).

Tactic Notation "mred" "in" hyp(H) :=
  repeat progress
    (unfold bind, ret, fault, gets, modify, deref, get_module, put_module,
       get_gate, put_gate, get_task, emit in H;
     cbn [modules gmem tmem ns alloc_plan trace set_modules set_gmem set_tmem
          set_ns set_alloc_plan set_trace fst snd] in H).

(** Step through the primitive operations, rewriting with the lookups at
    hand. *)
Ltac mgo :=
  repeat (mred;
          match goal with
          | H : ?m !! ?k = Some _ |- context [?m !! ?k] => rewrite H
          | |- context [<[?k := _]> _ !! ?k] => rewrite lookup_insert_eq
          end);
  mred.

Ltac zsolve :=
  unfold curr_size, get_gates, set_gates in *; cbn [arr igates ogates] in *;
  rewrite ?length_insert in *; lia.

(** Decide a comparison the code branches on. *)
Ltac zcond :=
  match goal with
  | |- context [(?a <? ?b)%Z] =>
      destruct (Z.ltb_spec a b); [try (exfalso; zsolve)|try (exfalso; zsolve)]
  | |- context [(?a <=? ?b)%Z] =>
      destruct (Z.leb_spec a b); [try (exfalso; zsolve)|try (exfalso; zsolve)]
  end.

(** ** Task registry *)

Section task_registry.
Context `{Limits}.

Lemma scan_tasks_spec P ts n id s :
  id + n = length ts →
  ∃ r, scan_tasks P ts id n s = Some (r, s) ∧
    match r with
    | Some k =>
        id ≤ k < length ts ∧ (∃ x, ts !! k = Some x ∧ P x = true) ∧
        ∀ j x, id ≤ j < k → ts !! j = Some x → P x = false
    | None => ∀ j x, id ≤ j → ts !! j = Some x → P x = false
    end.
Proof.
  revert id. induction n as [|n IH]; intros id Hlen; simpl.
  - exists None. split; [done|]. intros j x Hj Hx.
    apply lookup_lt_Some in Hx. lia.
  - destruct (lookup_lt_is_Some_2 ts id) as [x Hx]; [lia|].
    unfold bind at 1. rewrite Hx. simpl. destruct (P x) eqn:HP.
    + exists (Some id). split; [done|]. split; [lia|]. split; [eauto|].
      intros; lia.
    + destruct (IH (S id)) as (r & -> & Hr); [lia|].
      exists r. split; [done|]. destruct r as [k|].
      * destruct Hr as (Hk & Hx' & Hlow). split; [lia|]. split; [done|].
        intros j y Hj Hy. destruct (decide (j = id)) as [->|]; [congruence|].
        apply (Hlow j); [lia|done].
      * intros j y Hj Hy. destruct (decide (j = id)) as [->|]; [congruence|].
        apply (Hr j); [lia|done].
Qed.

Lemma rte_alloc_ok_run s :
  rte_alloc_ok s = Some (next_alloc_ok s, set_alloc_plan (tail (alloc_plan s)) s).
Proof. unfold rte_alloc_ok, next_alloc_ok. by destruct s as [? ? ? ? [|b p] ?]. Qed.

Lemma rte_alloc_ok_eq s :
  ∃ s', rte_alloc_ok s = Some (next_alloc_ok s, s') ∧
    modules s' = modules s ∧ gmem s' = gmem s ∧ tmem s' = tmem s ∧
    ns s' = ns s ∧ trace s' = trace s ∧
    alloc_plan s' = tail (alloc_plan s).
Proof.
  unfold rte_alloc_ok, next_alloc_ok. destruct s as [? ? ? ? [|b p] ?]; simpl;
    eexists; (split; [reflexivity|done]).
Qed.

(** What [register_task] does, path by path. *)
Lemma register_task_run s m a md :
  modules s !! m = Some md →
  length (tasks md) = MAX_TASKS_PER_MODULE →
  ∃ r s', register_task m a s = Some (r, s') ∧
    ((run_task (m_mclass md) = None ∨
      Forall (λ slot, slot ≠ None) (tasks md) ∨
      next_alloc_ok s = false) →
     r = INVALID_TASK_ID ∧ modules s' = modules s ∧ tmem s' = tmem s) ∧
    (run_task (m_mclass md) ≠ None →
     ¬ Forall (λ slot, slot ≠ None) (tasks md) →
     next_alloc_ok s = true →
     ∃ id t, first_empty (tasks md) id ∧ r = Z.of_nat id ∧
       tmem s !! t = None ∧ tmem s' = <[t := Task m a]> (tmem s) ∧
       modules s' = <[m := set_tasks md (<[id := Some t]> (tasks md))]> (modules s) ∧
       ∀ j, j ≠ id → <[id := Some t]> (tasks md) !! j = tasks md !! j).
Proof.
  intros Hm Hlen. unfold register_task.
  rewrite (bind_eq _ _ _ _ _ (get_module_eq _ _ _ Hm)).
  destruct (run_task (m_mclass md)) as [rt|] eqn:Hrt.
  2:{ eexists _, _. split; [reflexivity|]. split; [done|]. by intros []. }
  destruct (scan_tasks_spec is_null (tasks md) MAX_TASKS_PER_MODULE 0 s)
    as (found & Hscan & Hfound); [lia|].
  rewrite (bind_eq _ _ _ _ _ Hscan).
  destruct found as [id|].
  2:{ assert (Forall (λ slot, slot ≠ None) (tasks md)) as Hfull.
      { apply Forall_lookup. intros j x Hx ->.
        by specialize (Hfound j None ltac:(lia) Hx). }
      eexists _, _. split; [reflexivity|]. split; [done|]. by intros _ []. }
  destruct Hfound as (Hid & (x & Hx & Hnull) & Hlow).
  destruct x; [done|]. clear Hnull.
  assert (first_empty (tasks md) id) as Hfirst.
  { split; [done|]. intros j Hj Hnone.
    by specialize (Hlow j None ltac:(lia) Hnone). }
  assert (¬ Forall (λ slot, slot ≠ None) (tasks md)) as Hnotfull.
  { intros Hall. by eapply Forall_lookup_1 in Hall. }
  unfold task_create.
  destruct (rte_alloc_ok_eq s) as (s1 & Hal & Hmods & Hg & Ht & Hns & Htr & Hpl).
  unfold bind at 1. unfold bind at 1. rewrite Hal.
  destruct (next_alloc_ok s) eqn:Hok; simpl.
  2:{ eexists _, _. split; [reflexivity|]. split; [done|]. by intros _ _ [=]. }
  mred. rewrite Hmods, Hm. mred. rewrite Hmods, Hm. mred.
  eexists _, _. split; [reflexivity|]. split.
  { intros [[=]|[?|[=]]]. done. }
  intros _ _ _. exists id, (fresh (dom (tmem s1))).
  split; [done|]. split; [done|]. simpl. rewrite Ht, Hmods.
  split; [apply not_elem_of_dom, is_fresh|]. split; [done|]. split; [done|].
  intros j Hj. by rewrite list_lookup_insert_ne.
Qed.

(** C7: [register_task] returns [INVALID_TASK_ID] when the class has no
    [run_task] hook, when every slot is occupied, or when the task cannot be
    created, and then leaves the task slots alone; otherwise it creates a
    fresh task bound to [(m, a)], stores it in the lowest-index empty slot,
    returns that index, and changes no other slot and no other module. *)
Theorem register_task_spec s m a md :
  modules s !! m = Some md →
  length (tasks md) = MAX_TASKS_PER_MODULE →
  ∃ r s', register_task m a s = Some (r, s') ∧
    ((run_task (m_mclass md) = None ∨
      Forall (λ slot, slot ≠ None) (tasks md) ∨
      next_alloc_ok s = false) →
     r = INVALID_TASK_ID ∧ modules s' = modules s ∧ tmem s' = tmem s) ∧
    (run_task (m_mclass md) ≠ None →
     ¬ Forall (λ slot, slot ≠ None) (tasks md) →
     next_alloc_ok s = true →
     ∃ id t, first_empty (tasks md) id ∧ r = Z.of_nat id ∧
       tmem s !! t = None ∧ tmem s' = <[t := Task m a]> (tmem s) ∧
       modules s' = <[m := set_tasks md (<[id := Some t]> (tasks md))]> (modules s) ∧
       ∀ j, j ≠ id → <[id := Some t]> (tasks md) !! j = tasks md !! j).
Proof. apply register_task_run. Qed.

(** C9: [task_to_tid] undoes [register_task].  In a state whose task slots
    hold live tasks only, a call of [register_task] that returns an index
    other than [INVALID_TASK_ID] has put a task that did not exist before
    into that slot of [m], which was empty, and [task_to_tid] of that task
    then returns the same index, whatever the other slots hold. *)
Theorem task_to_tid_register_task s m a r s' :
  tasks_ok s →
  register_task m a s = Some (r, s') →
  r ≠ INVALID_TASK_ID →
  ∃ id t, r = Z.of_nat id ∧
    slot_of_task s m id = Some None ∧ tmem s !! t = None ∧
    slot_of_task s' m id = Some (Some t) ∧
    task_to_tid t s' = Some (r, s').
Proof.
  intros Hok Hrun Hr. unfold register_task in Hrun.
  apply bind_Some in Hrun as (md & s0 & Hget & Hrun).
  unfold get_module in Hget. destruct (modules s !! m) as [md'|] eqn:Hm;
    [|done]. mred in Hget. simplify_eq.
  destruct (Hok m md Hm) as (Hlen & Hnodup & Hlive & Hname).
  destruct (register_task_run s0 m a md Hm Hlen) as (r' & s'' & Hrun' & Hfail & Hsucc).
  unfold register_task in Hrun'.
  rewrite (bind_eq _ _ _ _ _ (get_module_eq _ _ _ Hm)) in Hrun'.
  rewrite Hrun in Hrun'. simplify_eq.
  destruct (decide (run_task (m_mclass md) = None)) as [Hrt|Hrt];
    [by destruct Hfail as [? _]; [left|]|].
  destruct (decide (Forall (λ slot, slot ≠ None) (tasks md))) as [Hfull|Hfull];
    [by destruct Hfail as [? _]; [right; left|]|].
  destruct (next_alloc_ok s0) eqn:Hal;
    [|by destruct Hfail as [? _]; [right; right|]].
  destruct (Hsucc Hrt Hfull eq_refl) as (id & t & [Hid Hlow] & -> & Hfresh & Htm & Hmods & _).
  exists id, t. split; [done|]. unfold slot_of_task.
  rewrite Hm, Hmods, lookup_insert_eq. cbn.
  assert (id < length (tasks md)) as Hlt by by eapply lookup_lt_Some.
  rewrite list_lookup_insert_eq by done.
  do 3 (split; [done|]).
  unfold task_to_tid.
  rewrite (bind_eq _ _ _ (Task m a) s''); [|by apply get_task_eq; rewrite Htm, lookup_insert_eq].
  rewrite (bind_eq _ _ _ _ s'' (get_module_eq _ _ _ ltac:(by rewrite Hmods; apply lookup_insert_eq))).
  cbn [t_m tasks set_tasks].
  destruct (scan_tasks_spec (λ slot, bool_decide (slot = Some t))
              (<[id := Some t]> (tasks md)) MAX_TASKS_PER_MODULE 0 s'')
    as (found & Hscan & Hfound); [rewrite length_insert; lia|].
  rewrite (bind_eq _ _ _ _ _ Hscan).
  destruct found as [k|].
  - destruct Hfound as (Hk & (x & Hx & Heq) & Hbelow).
    apply bool_decide_eq_true in Heq as ->.
    destruct (decide (k = id)) as [->|Hne]; [done|].
    rewrite list_lookup_insert_ne in Hx by done.
    assert (t ∈ omap Datatypes.id (tasks md)) as Hin.
    { apply list_elem_of_omap. exists (Some t). split; [|done].
      by eapply list_elem_of_lookup_2. }
    rewrite Forall_forall in Hlive. specialize (Hlive t Hin).
    by rewrite Hfresh in Hlive.
  - specialize (Hfound id (Some t) ltac:(lia)).
    rewrite list_lookup_insert_eq in Hfound by done.
    specialize (Hfound eq_refl). by apply bool_decide_eq_false in Hfound.
Qed.

End task_registry.

(** C7 at work on module 0 of [Demo.two_tasks]: slots 0 and 1 are taken,
    the class has [run_task] and the allocator is willing. *)
Lemma register_task_spec_witness :
  modules Demo.two_tasks !! 0 = Some (Demo.module_of Demo.two_tasks 0) ∧
  length (tasks (Demo.module_of Demo.two_tasks 0))
    = MAX_TASKS_PER_MODULE (Limits := bess_limits) ∧
  ∃ r s', register_task (H := bess_limits) 0 9 Demo.two_tasks = Some (r, s') ∧
    (run_task (m_mclass (Demo.module_of Demo.two_tasks 0)) ≠ None →
     ¬ Forall (λ slot, slot ≠ None) (tasks (Demo.module_of Demo.two_tasks 0)) →
     next_alloc_ok Demo.two_tasks = true →
     ∃ id, first_empty (tasks (Demo.module_of Demo.two_tasks 0)) id ∧
       r = Z.of_nat id).
Proof.
  assert (modules Demo.two_tasks !! 0 = Some (Demo.module_of Demo.two_tasks 0))
    as Hm by (vm_compute; reflexivity).
  assert (length (tasks (Demo.module_of Demo.two_tasks 0))
          = MAX_TASKS_PER_MODULE (Limits := bess_limits))
    as Hlen by (vm_compute; reflexivity).
  split; [exact Hm|]. split; [exact Hlen|].
  destruct (register_task_spec (H := bess_limits) _ 0 9 _ Hm Hlen)
    as (r & s' & Hrun & _ & Hok).
  exists r, s'. split; [exact Hrun|].
  intros H1 H2 H3. destruct (Hok H1 H2 H3) as (id & t & Hf & Hr & _).
  exists id. split; [exact Hf|exact Hr].
Defined.

(** C9 at work on the same state. *)
Lemma task_to_tid_register_task_witness :
  tasks_ok (H := bess_limits) Demo.two_tasks ∧
  register_task (H := bess_limits) 0 9 Demo.two_tasks
    = Some (2%Z, Demo.after (register_task (H := bess_limits) 0 9) Demo.two_tasks) ∧
  2%Z ≠ INVALID_TASK_ID (Limits := bess_limits) ∧
  ∃ t, task_to_tid (H := bess_limits) t
         (Demo.after (register_task (H := bess_limits) 0 9) Demo.two_tasks)
       = Some (2%Z, Demo.after (register_task (H := bess_limits) 0 9) Demo.two_tasks).
Proof.
  assert (tasks_ok (H := bess_limits) Demo.two_tasks) as Hok
    by (apply (bool_decide_unpack _); vm_compute; exact I).
  assert (register_task (H := bess_limits) 0 9 Demo.two_tasks
          = Some (2%Z, Demo.after (register_task (H := bess_limits) 0 9)
                         Demo.two_tasks)) as Hrun
    by (vm_compute; reflexivity).
  assert (2%Z ≠ INVALID_TASK_ID (Limits := bess_limits)) as Hr
    by (vm_compute; discriminate).
  split; [exact Hok|]. split; [exact Hrun|]. split; [exact Hr|].
  destruct (task_to_tid_register_task (H := bess_limits) _ 0 9 2%Z _ Hok Hrun Hr)
    as (id & t & _ & _ & _ & _ & Htid).
  exists t. exact Htid.
Defined.

(** ** Destroying the tasks of a module *)

Section task_teardown.
Context `{Limits}.

Lemma lookup_delete_all l (mp : gmap nat task) t :
  delete_all l mp !! t = if decide (t ∈ l) then None else mp !! t.
Proof.
  unfold delete_all. revert mp. induction l as [|x l IH]; intros mp; cbn.
  - by rewrite decide_False by apply not_elem_of_nil.
  - rewrite IH. destruct (decide (t ∈ l)) as [Hin|Hin].
    + by rewrite decide_True by (by right).
    + destruct (decide (t = x)) as [->|Hne].
      * rewrite decide_True by left. apply lookup_delete_eq.
      * rewrite decide_False by (by intros [?|?]%elem_of_cons).
        by apply lookup_delete_ne.
Qed.

Lemma delete_all_app l1 l2 (mp : gmap nat task) :
  delete_all (l1 ++ l2) mp = delete_all l2 (delete_all l1 mp).
Proof. unfold delete_all. by rewrite foldl_app. Qed.

Lemma set_tasks_id md : set_tasks md (tasks md) = md.
Proof. by destruct md. Qed.

Lemma tasks_destroyed_0 m md s :
  modules s !! m = Some md → tasks_destroyed m md 0 s = s.
Proof.
  intros Hm. unfold tasks_destroyed. cbn. rewrite set_tasks_id, insert_id by done.
  rewrite app_nil_r. by destruct s.
Qed.

Lemma tasks_destroyed_step m md i s :
  NoDup (omap Datatypes.id (tasks md)) →
  Forall (λ t, is_Some (tmem s !! t)) (omap Datatypes.id (tasks md)) →
  i < length (tasks md) →
  (let! md' := get_module m in
   let! slot := deref (tasks md' !! i) in
   match slot with
   | Some t =>
       let! _ := task_destroy t in
       let! md' := get_module m in
       put_module m (set_tasks md' (<[i := None]> (tasks md')))
   | None => ret tt
   end) (tasks_destroyed m md i s) = Some (tt, tasks_destroyed m md (S i) s).
Proof.
  intros Hnd Hlive Hi.
  destruct (lookup_lt_is_Some_2 _ _ Hi) as [slot Hslot].
  assert ((replicate i None ++ drop i (tasks md)) !! i = Some slot) as Hcur.
  { rewrite lookup_app_r by (rewrite length_replicate; lia).
    rewrite length_replicate, Nat.sub_diag, lookup_drop, Nat.add_0_r. done. }
  assert (<[i := None]> (replicate i None ++ drop i (tasks md))
          = replicate (S i) None ++ drop (S i) (tasks md)) as Hnext.
  { rewrite insert_app_r_alt by (rewrite length_replicate; lia).
    rewrite length_replicate, Nat.sub_diag.
    rewrite (drop_S _ _ _ Hslot). cbn [insert list_insert].
    rewrite replicate_S_end. by rewrite <- app_assoc. }
  unfold task_destroy. unfold tasks_destroyed at 1. mgo.
  cbn [tasks set_tasks]. rewrite Hcur. mgo.
  unfold tasks_destroyed. rewrite (take_S_r _ _ _ Hslot), omap_app.
  destruct slot as [t|]; cbn [omap list_omap Datatypes.id]; mgo.
  - assert (t ∉ omap Datatypes.id (take i (tasks md))) as Hnotin.
    { rewrite <- (take_drop_middle _ _ _ Hslot), omap_app in Hnd. cbn in Hnd.
      apply NoDup_app in Hnd as (_ & Hdisj & _). intros Hin.
      apply (Hdisj _ Hin). left. }
    assert (is_Some (tmem s !! t)) as [tk Htk].
    { rewrite Forall_forall in Hlive. apply Hlive.
      apply list_elem_of_omap. exists (Some t). split; [|done].
      by eapply list_elem_of_lookup_2. }
    rewrite lookup_delete_all, decide_False by done. rewrite Htk. mgo.
    cbn [tasks set_tasks m_mclass m_name igates ogates].
    do 2 f_equal. unfold set_modules, set_tmem, set_trace. cbn. f_equal.
    + rewrite insert_insert_eq. by rewrite Hnext.
    + by rewrite delete_all_app.
    + rewrite fmap_app. by rewrite app_assoc.
  - rewrite ?fmap_nil, !app_nil_r. do 2 f_equal. f_equal. f_equal.
    rewrite <- Hnext. by rewrite list_insert_id.
Qed.


Lemma destroy_all_tasks_loop m md s n i :
  NoDup (omap Datatypes.id (tasks md)) →
  Forall (λ t, is_Some (tmem s !! t)) (omap Datatypes.id (tasks md)) →
  i + n ≤ length (tasks md) →
  for_each (seq i n) (λ i,
    let! md' := get_module m in
    let! slot := deref (tasks md' !! i) in
    match slot with
    | Some t =>
        let! _ := task_destroy t in
        let! md' := get_module m in
        put_module m (set_tasks md' (<[i := None]> (tasks md')))
    | None => ret tt
    end) (tasks_destroyed m md i s) = Some (tt, tasks_destroyed m md (i + n) s).
Proof.
  intros Hnd Hlive. revert i. induction n as [|n IH]; intros i Hi; cbn [seq for_each].
  - by rewrite Nat.add_0_r.
  - rewrite (bind_eq _ _ _ _ _ (tasks_destroyed_step m md i s Hnd Hlive ltac:(lia))).
    rewrite IH by lia. by rewrite Nat.add_succ_r.
Qed.

Lemma destroy_all_tasks_run s m md :
  modules s !! m = Some md →
  length (tasks md) = MAX_TASKS_PER_MODULE →
  NoDup (omap Datatypes.id (tasks md)) →
  Forall (λ t, is_Some (tmem s !! t)) (omap Datatypes.id (tasks md)) →
  destroy_all_tasks m s = Some (tt, tasks_destroyed m md MAX_TASKS_PER_MODULE s).
Proof.
  intros Hm Hlen Hnd Hlive. unfold destroy_all_tasks.
  rewrite <- (tasks_destroyed_0 m md s Hm) at 1.
  by rewrite (destroy_all_tasks_loop m md s MAX_TASKS_PER_MODULE 0 Hnd Hlive) by lia.
Qed.

Lemma delete_all_ext l1 l2 (mp : gmap nat task) :
  (∀ t, t ∈ l1 ↔ t ∈ l2) → delete_all l1 mp = delete_all l2 mp.
Proof.
  intros Heq. apply map_eq. intros t. rewrite !lookup_delete_all.
  destruct (decide (t ∈ l1)) as [H1|H1].
  - by rewrite decide_True by (by apply Heq).
  - by rewrite decide_False by (by rewrite <- Heq).
Qed.

Lemma register_task_frame m a s r s' :
  register_task m a s = Some (r, s') →
  gmem s' = gmem s ∧ ns s' = ns s ∧ trace s' = trace s.
Proof.
  unfold register_task, task_create. intros Hrun.
  apply bind_Some in Hrun as (md & s1 & H1 & Hrun).
  unfold get_module in H1. destruct (modules s !! m); [|done]. mred in H1. simplify_eq.
  destruct (run_task (m_mclass md)); [|mred in Hrun; by simplify_eq].
  apply bind_Some in Hrun as (found & s2 & H2 & Hrun).
  assert (s2 = s1) as ->.
  { clear Hrun. revert H2. generalize 0. generalize MAX_TASKS_PER_MODULE.
    intros cnt. induction cnt as [|cnt IH]; intros idx; cbn [scan_tasks].
    - mred. by intros [= _ ->].
    - intros Hs. apply bind_Some in Hs as (slot & s3 & H3 & Hs).
      destruct (tasks md !! idx); [|done]. mred in H3. simplify_eq.
      destruct (is_null slot); [mred in Hs; by simplify_eq|by eapply IH]. }
  destruct found as [id|]; [|mred in Hrun; by simplify_eq].
  mred in Hrun. rewrite (rte_alloc_ok_run s1) in Hrun.
  destruct (next_alloc_ok s1).
  - mred in Hrun. destruct (modules s1 !! m); [|done]. mred in Hrun.
    destruct (modules s1 !! m); [|done]. mred in Hrun. by simplify_eq.
  - mred in Hrun. by simplify_eq.
Qed.

End task_teardown.

(** ** Counting and finding tasks *)

Section task_count.
Context `{Limits}.

Lemma count_tasks_run ts id n cnt s :
  id + n = length ts →
  count_tasks ts id n cnt s = Some ((cnt + Z.of_nat (occupied (drop id ts)))%Z, s).
Proof.
  revert id cnt. induction n as [|n IH]; intros id cnt Hlen; cbn [count_tasks].
  - rewrite drop_ge by lia. unfold ret, occupied. cbn. do 2 f_equal. lia.
  - destruct (lookup_lt_is_Some_2 ts id) as [x Hx]; [lia|].
    unfold bind at 1. rewrite Hx. cbn [deref ret].
    rewrite IH by lia. rewrite (drop_S _ _ _ Hx). unfold occupied.
    destruct x; cbn; do 2 f_equal; lia.
Qed.

Lemma num_module_tasks_run s m md :
  modules s !! m = Some md → length (tasks md) = MAX_TASKS_PER_MODULE →
  num_module_tasks m s = Some (Z.of_nat (occupied (tasks md)), s).
Proof.
  intros Hm Hlen. unfold num_module_tasks.
  rewrite (bind_eq _ _ _ _ _ (get_module_eq _ _ _ Hm)).
  rewrite count_tasks_run by lia. by rewrite drop_0.
Qed.

Lemma occupied_le ts : occupied ts ≤ length ts.
Proof.
  unfold occupied. induction ts as [|[x|] ts IH]; cbn; lia.
Qed.

Lemma occupied_full ts :
  occupied ts = length ts ↔ Forall (λ slot, slot ≠ None) ts.
Proof.
  unfold occupied. induction ts as [|[x|] ts IH]; cbn.
  - split; [constructor|done].
  - rewrite Forall_cons. split.
    + intros Heq. split; [done|]. apply IH. lia.
    + intros [_ Hall]. f_equal. by apply IH.
  - pose proof (occupied_le ts) as Hle. unfold occupied in Hle.
    split; [lia|]. by intros [? _]%Forall_cons.
Qed.

Lemma occupied_insert ts i t :
  ts !! i = Some None → occupied (<[i := Some t]> ts) = S (occupied ts).
Proof.
  unfold occupied. revert i. induction ts as [|x ts IH]; intros [|i] Hi;
    simplify_eq/=; [done|].
  destruct x; cbn; by rewrite IH.
Qed.

Lemma occupied_replicate n : occupied (replicate n None) = 0.
Proof. unfold occupied. induction n; [done|]. by cbn. Qed.

(** [register_task] and [num_module_tasks]: the call fails for want of a
    [run_task] hook, of a free slot (the count is at its maximum) or of
    memory, and for nothing else; a call that succeeds raises the count by
    one and one that fails leaves it. *)
Theorem register_task_count s m a md :
  modules s !! m = Some md →
  length (tasks md) = MAX_TASKS_PER_MODULE →
  ¬ (0 ≤ INVALID_TASK_ID < Z.of_nat MAX_TASKS_PER_MODULE)%Z →
  ∃ r s' n,
    register_task m a s = Some (r, s') ∧
    num_module_tasks m s = Some (n, s) ∧
    (0 ≤ n ≤ Z.of_nat MAX_TASKS_PER_MODULE)%Z ∧
    (r = INVALID_TASK_ID ↔
     run_task (m_mclass md) = None ∨ n = Z.of_nat MAX_TASKS_PER_MODULE ∨
     next_alloc_ok s = false) ∧
    num_module_tasks m s'
    = Some (if decide (r = INVALID_TASK_ID) then n else (n + 1)%Z, s').
Proof.
  intros Hm Hlen Hinv.
  destruct (register_task_run s m a md Hm Hlen) as (r & s' & Hrun & Hfail & Hsucc).
  exists r, s', (Z.of_nat (occupied (tasks md))).
  split; [done|]. split; [by apply num_module_tasks_run|].
  pose proof (occupied_le (tasks md)) as Hle. split; [lia|].
  assert (occupied (tasks md) = MAX_TASKS_PER_MODULE
          ↔ Forall (λ slot, slot ≠ None) (tasks md)) as Hfull
    by (rewrite <- Hlen; apply occupied_full).
  destruct (decide (run_task (m_mclass md) = None ∨
                    Forall (λ slot, slot ≠ None) (tasks md) ∨
                    next_alloc_ok s = false)) as [Hbad|Hgood].
  - destruct (Hfail Hbad) as (-> & Hmods & _).
    rewrite decide_True by done. split.
    + split; [|done]. intros _.
      destruct Hbad as [?|[?%Hfull|?]]; [by left| |by right; right].
      right; left. lia.
    + apply num_module_tasks_run; [|done]. by rewrite Hmods.
  - assert (run_task (m_mclass md) ≠ None) as H1 by tauto.
    assert (¬ Forall (λ slot, slot ≠ None) (tasks md)) as H2 by tauto.
    assert (next_alloc_ok s = true) as H3
      by (destruct (next_alloc_ok s); [done|tauto]).
    destruct (Hsucc H1 H2 H3)
      as (id & t & [Hid _] & -> & _ & _ & Hmods & _).
    assert (id < MAX_TASKS_PER_MODULE) as Hlt
      by (rewrite <- Hlen; by eapply lookup_lt_Some).
    assert (Z.of_nat id ≠ INVALID_TASK_ID) as Hne by lia.
    rewrite decide_False by done. split.
    + split; [done|]. intros [?|[Hn|?]]; [done| |congruence].
      exfalso. apply H2, Hfull. lia.
    + rewrite (num_module_tasks_run s' m
                 (set_tasks md (<[id := Some t]> (tasks md))));
        [|by rewrite Hmods, lookup_insert_eq|by cbn; rewrite length_insert].
      cbn [tasks set_tasks]. rewrite occupied_insert by done.
      do 2 f_equal. lia.
Qed.

Lemma NoDup_omap_lookup (ts : list (option ptr)) j k t :
  NoDup (omap Datatypes.id ts) →
  ts !! j = Some (Some t) → ts !! k = Some (Some t) → j = k.
Proof.
  revert j k. induction ts as [|x ts IH]; intros j k Hnd Hj Hk; [done|].
  assert (∀ i, ts !! i = Some (Some t) → t ∈ omap Datatypes.id ts) as Hin.
  { intros i Hi. apply list_elem_of_omap. exists (Some t). split; [|done].
    by eapply list_elem_of_lookup_2. }
  destruct x as [y|]; cbn in Hnd.
  - apply NoDup_cons in Hnd as [Hy Hnd].
    destruct j as [|j], k as [|k]; simplify_eq/=; try done.
    + by apply Hin in Hk.
    + by apply Hin in Hj.
    + f_equal. by apply IH.
  - destruct j as [|j], k as [|k]; simplify_eq/=. f_equal. by apply IH.
Qed.

(** What [task_to_tid] returns for a task that sits in a slot. *)
Lemma task_to_tid_run s m md j t :
  tasks_ok s → modules s !! m = Some md → tasks md !! j = Some (Some t) →
  task_to_tid t s = Some (Z.of_nat j, s).
Proof.
  intros Hok Hm Hj.
  destruct (Hok m md Hm) as (Hlen & Hnd & Hlive & _).
  assert (t ∈ omap Datatypes.id (tasks md)) as Hin.
  { apply list_elem_of_omap. exists (Some t). split; [|done].
    by eapply list_elem_of_lookup_2. }
  rewrite Forall_forall in Hlive. specialize (Hlive t Hin).
  destruct (tmem s !! t) as [tk|] eqn:Ht; [|done]. subst m.
  unfold task_to_tid.
  rewrite (bind_eq _ _ _ _ _ (get_task_eq _ _ _ Ht)).
  rewrite (bind_eq _ _ _ _ _ (get_module_eq _ _ _ Hm)).
  destruct (scan_tasks_spec (λ slot, bool_decide (slot = Some t))
              (tasks md) MAX_TASKS_PER_MODULE 0 s)
    as (found & Hscan & Hfound); [lia|].
  rewrite (bind_eq _ _ _ _ _ Hscan). destruct found as [k|].
  - destruct Hfound as (_ & (x & Hx & Heq) & _).
    apply bool_decide_eq_true in Heq as ->.
    by rewrite (NoDup_omap_lookup _ _ _ _ Hnd Hj Hx).
  - specialize (Hfound j (Some t) ltac:(lia) Hj).
    by apply bool_decide_eq_false in Hfound.
Qed.

(** In a state whose task slots are sound, [task_to_tid] gives, for every
    task in a slot of a module, the index of that slot, and changes
    nothing. *)
Theorem task_to_tid_slot s m md j t :
  tasks_ok s → modules s !! m = Some md → tasks md !! j = Some (Some t) →
  task_to_tid t s = Some (Z.of_nat j, s).
Proof. apply task_to_tid_run. Qed.

Lemma omap_insert_None_Some (ts : list (option ptr)) i t :
  ts !! i = Some None →
  omap Datatypes.id (<[i := Some t]> ts)
  = omap Datatypes.id (take i ts) ++ t :: omap Datatypes.id (drop (S i) ts).
Proof.
  revert i. induction ts as [|x ts IH]; intros [|i] Hi; simplify_eq/=; [done|].
  destruct x; cbn; by rewrite IH.
Qed.

Lemma omap_take_drop_None (ts : list (option ptr)) i :
  ts !! i = Some None →
  omap Datatypes.id ts
  = omap Datatypes.id (take i ts) ++ omap Datatypes.id (drop (S i) ts).
Proof.
  intros Hi. rewrite <- (take_drop_middle _ _ _ Hi) at 1.
  by rewrite omap_app.
Qed.

(** The soundness of the task slots depends on the modules and the task
    heap only. *)
Lemma tasks_ok_ext s s' :
  modules s' = modules s → tmem s' = tmem s → tasks_ok s → tasks_ok s'.
Proof.
  intros Hm Ht Hok m md Hmd. rewrite Hm in Hmd.
  destruct (Hok m md Hmd) as (? & ? & ? & ?).
  unfold module_tasks_ok. by rewrite Ht.
Qed.

Lemma register_task_sound s m a r s' :
  tasks_ok s → register_task m a s = Some (r, s') → tasks_ok s'.
Proof.
  intros Hok Hrun.
  assert (∃ md, modules s !! m = Some md) as [md Hm].
  { unfold register_task in Hrun.
    apply bind_Some in Hrun as (md & s0 & Hget & _).
    unfold get_module in Hget. destruct (modules s !! m); [eauto|done]. }
  destruct (Hok m md Hm) as (Hlen & Hnd & Hlive & Hname).
  destruct (register_task_run s m a md Hm Hlen) as (r' & s'' & Hrun' & Hfail & Hsucc).
  rewrite Hrun in Hrun'. simplify_eq.
  destruct (decide (run_task (m_mclass md) = None ∨
                    Forall (λ slot, slot ≠ None) (tasks md) ∨
                    next_alloc_ok s = false)) as [Hbad|Hgood].
  { destruct (Hfail Hbad) as (_ & Hmods & Htm). by eapply tasks_ok_ext. }
  assert (run_task (m_mclass md) ≠ None) as H1 by tauto.
  assert (¬ Forall (λ slot, slot ≠ None) (tasks md)) as H2 by tauto.
  assert (next_alloc_ok s = true) as H3
    by (destruct (next_alloc_ok s); [done|tauto]).
  destruct (Hsucc H1 H2 H3)
    as (id & t & [Hid _] & _ & Hfresh & Htm & Hmods & _).
  assert (∀ m' md' x, modules s !! m' = Some md' →
            x ∈ omap Datatypes.id (tasks md') → x ≠ t) as Hold.
  { intros m' md' x Hm' Hx ->.
    destruct (Hok m' md' Hm') as (_ & _ & Hlive' & _).
    rewrite Forall_forall in Hlive'. specialize (Hlive' t Hx).
    by rewrite Hfresh in Hlive'. }
  intros m' md' Hm'. rewrite Hmods in Hm'. unfold module_tasks_ok. rewrite Htm.
  destruct (decide (m' = m)) as [->|Hne].
  - rewrite lookup_insert_eq in Hm'. simplify_eq. cbn [tasks set_tasks m_name].
    rewrite length_insert. split; [done|].
    rewrite (omap_insert_None_Some _ _ _ Hid).
    rewrite (omap_take_drop_None _ _ Hid) in Hnd, Hlive.
    assert (∀ x, x ∈ omap Datatypes.id (take id (tasks md))
                     ++ omap Datatypes.id (drop (S id) (tasks md)) → x ≠ t)
      as Hold'.
    { intros x Hx. eapply (Hold m md); [done|].
      by rewrite (omap_take_drop_None _ _ Hid). }
    split; [|split; [|done]].
    + apply NoDup_app in Hnd as (Hn1 & Hdisj & Hn2).
      apply NoDup_app. split; [done|]. split.
      * intros x Hx [->|Hx']%elem_of_cons.
        -- eapply Hold'; [|done]. apply elem_of_app. by left.
        -- by eapply Hdisj.
      * apply NoDup_cons. split; [|done]. intros Hin.
        eapply Hold'; [|done]. apply elem_of_app. by right.
    + apply Forall_app in Hlive as [Hl1 Hl2].
      assert (∀ l, (∀ x, x ∈ l → x ≠ t) →
                Forall (λ t0, match tmem s !! t0 with
                              | Some tk => t_m tk = m
                              | None => False
                              end) l →
                Forall (λ t0, match <[t := Task m a]> (tmem s) !! t0 with
                              | Some tk => t_m tk = m
                              | None => False
                              end) l) as Hkeep.
      { intros l Hl Hall. apply Forall_forall. intros x Hx.
        rewrite lookup_insert_ne by (intros ->; by eapply Hl).
        by eapply Forall_forall in Hall. }
      apply Forall_app. split.
      * apply Hkeep; [|done]. intros x Hx. apply Hold'.
        apply elem_of_app. by left.
      * apply Forall_cons. split; [by rewrite lookup_insert_eq|].
        apply Hkeep; [|done]. intros x Hx. apply Hold'.
        apply elem_of_app. by right.
  - rewrite lookup_insert_ne in Hm' by done.
    destruct (Hok m' md' Hm') as (? & ? & Hlive' & ?).
    do 2 (split; [done|]). split; [|done].
    apply Forall_forall. intros x Hx.
    rewrite lookup_insert_ne by (intros ->; by eapply (Hold m' md')).
    by eapply Forall_forall in Hlive'.
Qed.

(** [register_task] keeps the task slots sound, whatever it returns: every
    slot of every module still holds a live task of that module, and no
    task sits in two slots. *)
Theorem register_task_keeps_tasks_ok s m a r s' :
  tasks_ok s → register_task m a s = Some (r, s') → tasks_ok s'.
Proof. apply register_task_sound. Qed.

(** What [destroy_all_tasks] leaves. *)
Lemma destroy_all_tasks_sound s m md :
  tasks_ok s → modules s !! m = Some md →
  ∃ s',
    destroy_all_tasks m s = Some (tt, s') ∧
    num_module_tasks m s' = Some (0%Z, s') ∧
    (∀ t, tmem s' !! t =
          if decide (t ∈ omap Datatypes.id (tasks md)) then None
          else tmem s !! t) ∧
    (∀ m', m' ≠ m → modules s' !! m' = modules s !! m') ∧
    gmem s' = gmem s ∧ ns s' = ns s ∧
    trace s' = trace s ++ (EvTaskDestroy <$> omap Datatypes.id (tasks md)) ∧
    tasks_ok s'.
Proof.
  intros Hok Hm. destruct (Hok m md Hm) as (Hlen & Hnd & Hlive & Hname).
  assert (Forall (λ t, is_Some (tmem s !! t)) (omap Datatypes.id (tasks md)))
    as Hlive'.
  { eapply Forall_impl; [exact Hlive|]. intros t Ht. cbn in Ht.
    by destruct (tmem s !! t). }
  eexists. split; [by apply destroy_all_tasks_run|].
  unfold tasks_destroyed. rewrite <- Hlen, firstn_all, drop_all, app_nil_r.
  cbn [modules gmem tmem ns trace].
  split; [|split; [|split; [|split; [|split; [|split]]]]]; try done.
  - erewrite num_module_tasks_run;
      [|cbn [modules]; apply lookup_insert_eq
       |cbn [tasks set_tasks]; by rewrite length_replicate].
    cbn [tasks set_tasks]. by rewrite occupied_replicate.
  - intros t. apply lookup_delete_all.
  - intros m' Hne. by rewrite lookup_insert_ne.
  - intros m' md'. cbn [modules]. unfold module_tasks_ok. cbn [tmem].
    destruct (decide (m' = m)) as [->|Hne].
    + rewrite lookup_insert_eq. intros [= <-]. cbn [tasks set_tasks m_name].
      rewrite length_replicate.
      assert (omap Datatypes.id (replicate (length (tasks md)) (@None ptr)) = [])
        as ->.
      { generalize (length (tasks md)). intros n. induction n; [done|]. by cbn. }
      split; [done|]. split; [apply NoDup_nil_2|]. split; [constructor|done].
    + rewrite lookup_insert_ne by done. intros Hm'.
      destruct (Hok m' md' Hm') as (? & ? & Hlive2 & ?).
      do 2 (split; [done|]). split; [|done].
      apply Forall_forall. intros x Hx.
      eapply Forall_forall in Hlive2; [|done].
      rewrite lookup_delete_all.
      rewrite decide_False; [done|].
      intros Hin. eapply Forall_forall in Hlive; [|done].
      destruct (tmem s !! x) as [tk|]; [congruence|done].
Qed.

(** In a state whose task slots are sound, [destroy_all_tasks(m)] returns;
    afterwards [num_module_tasks(m)] is 0, the tasks that sat in the slots of
    [m] are released, in slot order, and no other task is; the other
    modules, the gates and the namespace are as before, and the task slots
    are sound. *)
Theorem destroy_all_tasks_spec s m md :
  tasks_ok s → modules s !! m = Some md →
  ∃ s',
    destroy_all_tasks m s = Some (tt, s') ∧
    num_module_tasks m s' = Some (0%Z, s') ∧
    (∀ t, tmem s' !! t =
          if decide (t ∈ omap Datatypes.id (tasks md)) then None
          else tmem s !! t) ∧
    (∀ m', m' ≠ m → modules s' !! m' = modules s !! m') ∧
    gmem s' = gmem s ∧ ns s' = ns s ∧
    trace s' = trace s ++ (EvTaskDestroy <$> omap Datatypes.id (tasks md)) ∧
    tasks_ok s'.
Proof. apply destroy_all_tasks_sound. Qed.

End task_count.

(** [register_task_count] on module 0 of [Demo.two_tasks]. *)
Lemma register_task_count_witness :
  modules Demo.two_tasks !! 0 = Some (Demo.module_of Demo.two_tasks 0) ∧
  length (tasks (Demo.module_of Demo.two_tasks 0))
    = MAX_TASKS_PER_MODULE (Limits := bess_limits) ∧
  ¬ (0 ≤ INVALID_TASK_ID (Limits := bess_limits)
     < Z.of_nat (MAX_TASKS_PER_MODULE (Limits := bess_limits)))%Z ∧
  ∃ r s' n,
    register_task (H := bess_limits) 0 9 Demo.two_tasks = Some (r, s') ∧
    num_module_tasks (H := bess_limits) 0 Demo.two_tasks
      = Some (n, Demo.two_tasks) ∧
    num_module_tasks (H := bess_limits) 0 s'
      = Some (if decide (r = INVALID_TASK_ID (Limits := bess_limits))
              then n else (n + 1)%Z, s').
Proof.
  assert (modules Demo.two_tasks !! 0 = Some (Demo.module_of Demo.two_tasks 0))
    as Hm by (vm_compute; reflexivity).
  assert (length (tasks (Demo.module_of Demo.two_tasks 0))
          = MAX_TASKS_PER_MODULE (Limits := bess_limits))
    as Hlen by (vm_compute; reflexivity).
  assert (¬ (0 ≤ INVALID_TASK_ID (Limits := bess_limits)
             < Z.of_nat (MAX_TASKS_PER_MODULE (Limits := bess_limits)))%Z)
    as Hinv by (vm_compute; intros [_ ?]; discriminate).
  do 3 (split; [assumption|]).
  destruct (register_task_count (H := bess_limits) _ 0 9 _ Hm Hlen Hinv)
    as (r & s' & n & Hrun & Hn & _ & _ & Hn').
  exists r, s', n. exact (conj Hrun (conj Hn Hn')).
Defined.

(** [task_to_tid_slot] on the task in slot 1 of module 0 of
    [Demo.two_tasks]. *)
Lemma task_to_tid_slot_witness :
  tasks_ok (H := bess_limits) Demo.two_tasks ∧
  modules Demo.two_tasks !! 0 = Some (Demo.module_of Demo.two_tasks 0) ∧
  tasks (Demo.module_of Demo.two_tasks 0) !! 1 = Some (Some 1) ∧
  task_to_tid (H := bess_limits) 1 Demo.two_tasks = Some (1%Z, Demo.two_tasks).
Proof.
  assert (tasks_ok (H := bess_limits) Demo.two_tasks) as Hok
    by (apply (bool_decide_unpack _); vm_compute; exact I).
  assert (modules Demo.two_tasks !! 0 = Some (Demo.module_of Demo.two_tasks 0))
    as Hm by (vm_compute; reflexivity).
  assert (tasks (Demo.module_of Demo.two_tasks 0) !! 1 = Some (Some 1)) as Hj
    by (vm_compute; reflexivity).
  do 3 (split; [assumption|]).
  exact (task_to_tid_slot (H := bess_limits) _ 0 _ 1 1 Hok Hm Hj).
Defined.

(** [register_task_keeps_tasks_ok] on a third registration on module 0 of
    [Demo.two_tasks]. *)
Lemma register_task_keeps_tasks_ok_witness :
  tasks_ok (H := bess_limits) Demo.two_tasks ∧
  register_task (H := bess_limits) 0 9 Demo.two_tasks
    = Some (2%Z, Demo.after (register_task (H := bess_limits) 0 9) Demo.two_tasks) ∧
  tasks_ok (H := bess_limits)
    (Demo.after (register_task (H := bess_limits) 0 9) Demo.two_tasks).
Proof.
  assert (tasks_ok (H := bess_limits) Demo.two_tasks) as Hok
    by (apply (bool_decide_unpack _); vm_compute; exact I).
  assert (register_task (H := bess_limits) 0 9 Demo.two_tasks
          = Some (2%Z, Demo.after (register_task (H := bess_limits) 0 9)
                         Demo.two_tasks)) as Hrun
    by (vm_compute; reflexivity).
  do 2 (split; [assumption|]).
  exact (register_task_keeps_tasks_ok (H := bess_limits) _ 0 9 _ _ Hok Hrun).
Defined.

(** [destroy_all_tasks_spec] on module 0 of [Demo.two_tasks]. *)
Lemma destroy_all_tasks_spec_witness :
  tasks_ok (H := bess_limits) Demo.two_tasks ∧
  modules Demo.two_tasks !! 0 = Some (Demo.module_of Demo.two_tasks 0) ∧
  ∃ s',
    destroy_all_tasks (H := bess_limits) 0 Demo.two_tasks = Some (tt, s') ∧
    num_module_tasks (H := bess_limits) 0 s' = Some (0%Z, s') ∧
    trace s' = trace Demo.two_tasks ++
      (EvTaskDestroy <$> omap Datatypes.id (tasks (Demo.module_of Demo.two_tasks 0))) ∧
    tasks_ok (H := bess_limits) s'.
Proof.
  assert (tasks_ok (H := bess_limits) Demo.two_tasks) as Hok
    by (apply (bool_decide_unpack _); vm_compute; exact I).
  assert (modules Demo.two_tasks !! 0 = Some (Demo.module_of Demo.two_tasks 0))
    as Hm by (vm_compute; reflexivity).
  do 2 (split; [assumption|]).
  destruct (destroy_all_tasks_spec (H := bess_limits) _ 0 _ Hok Hm)
    as (s' & Hrun & Hn & _ & _ & _ & _ & Htr & Hok').
  exists s'. exact (conj Hrun (conj Hn (conj Htr Hok'))).
Defined.

(** ** Default names *)

Section names.
Context `{Limits}.

Lemma set_name_set_name md x y : set_name (set_name md x) y = set_name md y.
Proof. done. Qed.

Lemma probe_names_run fuel m base md s i k :
  modules s !! m = Some md → is_Some (m_name md) →
  (i ≤ k)%Z → (k ≤ INT_MAX)%Z → Z.to_nat (k - i) < fuel →
  (∀ j, (i ≤ j < k)%Z → is_Some (ns s !! (base +:+ pretty j))) →
  ns s !! (base +:+ pretty k) = None →
  (∀ j, (i ≤ j ≤ k)%Z → String.length (base +:+ pretty j) < MODULE_NAME_LEN) →
  probe_names fuel m base i s =
  Some (tt, set_modules <[m := set_name md (Some (base +:+ pretty k))]> s).
Proof.
  revert md s i. induction fuel as [|fuel IH];
    intros md s i Hm [nm0 Hnm] Hik Hk Hfuel Hbound Hfree Hfit; [lia|].
  cbn [probe_names].
  destruct (Z.ltb_spec INT_MAX i); [lia|].
  destruct (Nat.ltb_spec (String.length (base +:+ pretty i)) MODULE_NAME_LEN) as [_|Hlen].
  2:{ specialize (Hfit i ltac:(lia)). lia. }
  unfold find_module. mgo. rewrite Hnm. mgo.
  destruct (decide (i = k)) as [->|Hne].
  - by rewrite Hfree.
  - destruct (Hbound i ltac:(lia)) as [x ->].
    rewrite (IH (set_name md (Some (base +:+ pretty i)))
               (set_modules <[m := set_name md (Some (base +:+ pretty i))]> s)
               (i + 1)%Z); try done; try lia.
    + unfold set_modules. cbn. by rewrite insert_insert_eq.
    + cbn. by rewrite lookup_insert_eq.
    + intros j Hj. apply Hbound. lia.
    + intros j Hj. apply Hfit. lia.
Qed.

(** More fuel never changes what the probing loop returns. *)
Lemma probe_names_fuel fuel d m base i s r :
  probe_names fuel m base i s = Some r →
  probe_names (fuel + d) m base i s = Some r.
Proof.
  revert i s. induction fuel as [|fuel IH]; intros i s; [done|].
  cbn [probe_names Nat.add].
  destruct (INT_MAX <? i)%Z; [done|].
  destruct (String.length (base +:+ pretty i) <? MODULE_NAME_LEN); [|done].
  intros Hrun.
  apply bind_Some in Hrun as (md & s1 & H1 & Hrun). rewrite (bind_eq _ _ _ _ _ H1).
  apply bind_Some in Hrun as (nm & s2 & H2 & Hrun). rewrite (bind_eq _ _ _ _ _ H2).
  apply bind_Some in Hrun as (u & s3 & H3 & Hrun). rewrite (bind_eq _ _ _ _ _ H3).
  apply bind_Some in Hrun as (found & s4 & H4 & Hrun). rewrite (bind_eq _ _ _ _ _ H4).
  destruct found; [by apply IH|done].
Qed.

Lemma bounded_search (P : nat → Prop) `{∀ j, Decision (P j)} n :
  (∀ j, j < n → ¬ P j) ∨ (∃ k, k < n ∧ P k ∧ ∀ j, j < k → ¬ P j).
Proof.
  induction n as [|n [IH|(k & ? & ? & ?)]].
  - left. lia.
  - destruct (decide (P n)) as [HP|HP].
    + right. exists n. split; [lia|done].
    + left. intros j Hj. destruct (decide (j = n)) as [->|]; [done|]. apply IH. lia.
  - right. exists k. split; [lia|done].
Qed.

(** Among the first [size names + 1] candidates one is not bound; the
    lowest such. *)
Lemma least_free_candidate (names : gmap string nat) base :
  ∃ k, k ≤ size names ∧ names !! (base +:+ pretty (Z.of_nat k)) = None ∧
    ∀ j, j < k → names !! (base +:+ pretty (Z.of_nat j)) ≠ None.
Proof.
  destruct (bounded_search
              (λ j, names !! (base +:+ pretty (Z.of_nat j)) = None)
              (S (size names))) as [Hall|(k & ? & ? & ?)].
  2:{ exists k. split; [lia|done]. }
  exfalso.
  set (cands := (λ j, base +:+ pretty (Z.of_nat j)) <$> seq 0 (S (size names))).
  assert (NoDup cands) as Hnd.
  { apply NoDup_fmap_2; [|apply NoDup_seq].
    intros j1 j2 Heq. apply (inj (String.app base)) in Heq.
    apply (inj pretty) in Heq. lia. }
  assert (list_to_set cands ⊆ dom names) as Hsub.
  { intros x Hx. apply elem_of_list_to_set, list_elem_of_fmap in Hx as (j & -> & Hj).
    apply elem_of_seq in Hj. apply elem_of_dom.
    destruct (names !! (base +:+ pretty (Z.of_nat j))) eqn:E; [done|].
    destruct (Hall j); [lia|done]. }
  apply subseteq_size in Hsub.
  rewrite size_list_to_set, size_dom in Hsub by done.
  unfold cands in Hsub. rewrite length_fmap, length_seq in Hsub. lia.
Qed.

Lemma length_append (a b : string) :
  String.length (a +:+ b) = String.length a + String.length b.
Proof.
  induction a as [|c a IH]; [done|].
  change (String.length (String c a +:+ b)) with (S (String.length (a +:+ b))).
  by rewrite IH.
Qed.

Lemma snake_case_from_length prev t :
  String.length (snake_case_from prev t)
  = String.length t + humps_from prev t.
Proof.
  revert prev. induction t as [|c t IH]; intros prev; [done|].
  cbn [snake_case_from humps_from].
  destruct prev as [p|].
  - destruct (islower p && isupper c); cbn [String.length]; rewrite IH; lia.
  - cbn [String.length]. rewrite IH. lia.
Qed.

(** The text overruns [fmt] exactly when the class name has more than 13
    lower-to-upper places. *)
Lemma fmt_overrun template :
  (fmt_size template <? String.length (snake_case template +:+ "%d") + 1)%nat
  = bool_decide (13 < humps template).
Proof.
  rewrite length_append. unfold snake_case, humps, fmt_size.
  rewrite snake_case_from_length. cbn [String.length].
  destruct (Nat.ltb_spec (String.length template + 16)
              (String.length template + humps_from None template + 2 + 1)).
  - by rewrite bool_decide_eq_true_2 by lia.
  - by rewrite bool_decide_eq_false_2 by lia.
Qed.

Lemma default_fmt_run mc s :
  (def_module_name mc = None → humps (name mc) ≤ 13) →
  default_fmt mc s = Some (default_name_base mc, s).
Proof.
  intros Hfmt. unfold default_fmt, default_name_base.
  destruct (def_module_name mc) as [d|]; [done|].
  rewrite fmt_overrun, bool_decide_eq_false_2; [done|].
  specialize (Hfmt eq_refl). lia.
Qed.

Lemma default_fmt_Some mc s b s' :
  default_fmt mc s = Some (b, s') →
  b = default_name_base mc ∧ s' = s ∧
  (def_module_name mc = None → humps (name mc) ≤ 13).
Proof.
  unfold default_fmt, default_name_base.
  destruct (def_module_name mc) as [d|].
  - intros [= <- <-]. done.
  - rewrite fmt_overrun. case_bool_decide as Hh; [done|].
    intros [= <- <-]. split; [done|]. split; [done|]. lia.
Qed.

(** A class name with more than 13 lower-to-upper places and no
    [def_module_name]: [set_default_name] runs past [fmt]. *)
Lemma set_default_name_overrun s m md :
  modules s !! m = Some md →
  def_module_name (m_mclass md) = None → 13 < humps (name (m_mclass md)) →
  set_default_name m s = None.
Proof.
  intros Hm Hdef Hh. unfold set_default_name.
  rewrite (bind_eq _ _ _ _ _ (get_module_eq _ _ _ Hm)).
  unfold bind, default_fmt. rewrite Hdef, fmt_overrun.
  by rewrite bool_decide_eq_true_2.
Qed.

Lemma set_default_name_run s m md :
  modules s !! m = Some md → is_Some (m_name md) →
  (def_module_name (m_mclass md) = None → humps (name (m_mclass md)) ≤ 13) →
  has_percent (default_name_base (m_mclass md)) = false →
  (Z.of_nat (size (ns s)) ≤ INT_MAX)%Z →
  (∀ j, j ≤ size (ns s) →
        String.length (default_name_base (m_mclass md) +:+ pretty (Z.of_nat j))
        < MODULE_NAME_LEN) →
  ∃ k,
    (∀ j, j < k →
       is_Some (ns s !! (default_name_base (m_mclass md) +:+ pretty (Z.of_nat j)))) ∧
    ns s !! (default_name_base (m_mclass md) +:+ pretty (Z.of_nat k)) = None ∧
    set_default_name m s =
    Some (tt, set_modules
                <[m := set_name md
                         (Some (default_name_base (m_mclass md)
                                +:+ pretty (Z.of_nat k)))]> s).
Proof.
  intros Hm Hnm Hfmt Hpc Hmax Hfit.
  set (base := default_name_base (m_mclass md)) in *.
  destruct (least_free_candidate (ns s) base) as (k & Hk & Hfree & Hleast).
  exists k. split.
  { intros j Hj. specialize (Hleast j Hj).
    by destruct (ns s !! (base +:+ pretty (Z.of_nat j))). }
  split; [done|].
  unfold set_default_name.
  rewrite (bind_eq _ _ _ _ _ (get_module_eq _ _ _ Hm)).
  rewrite (bind_eq _ _ _ _ _ (default_fmt_run _ _ Hfmt)).
  fold base. rewrite Hpc. mgo.
  apply (probe_names_run _ m base md s 0 (Z.of_nat k)); try done; try lia.
  - intros j Hj. replace j with (Z.of_nat (Z.to_nat j)) by lia.
    specialize (Hleast (Z.to_nat j) ltac:(lia)).
    by destruct (ns s !! (base +:+ pretty (Z.of_nat (Z.to_nat j)))).
  - intros j Hj. replace j with (Z.of_nat (Z.to_nat j)) by lia. apply Hfit. lia.
Qed.

(** C6, as amended: [set_default_name] names the module with the class's
    [def_module_name] if set, otherwise with the class name in snake case (an
    underscore before every upper-case letter that follows a lower-case
    letter, every letter in lower case), followed by the lowest number [k],
    counting from 0, for which the name is not bound in the namespace.  This
    holds when the text fits the array [fmt] (a class name used for want of
    a [def_module_name] has at most 13 lower-to-upper places), when the base
    name has no [%], which [snprintf] would read as a conversion, when the
    names bound are no more than [INT_MAX], and when every candidate up to
    that many is shorter than [MODULE_NAME_LEN], so that the assertion
    holds.  For the class name MyIPChecksum the snake case is my_ipchecksum
    (no underscore between P and C: P is not lower-case), and scenario S3
    yields my_ipchecksum0, my_ipchecksum1, my_ipchecksum2 and, after the
    middle module is destroyed, my_ipchecksum1. *)
Theorem set_default_name_spec s m md :
  modules s !! m = Some md → is_Some (m_name md) →
  (def_module_name (m_mclass md) = None → humps (name (m_mclass md)) ≤ 13) →
  has_percent (default_name_base (m_mclass md)) = false →
  (Z.of_nat (size (ns s)) ≤ INT_MAX)%Z →
  (∀ j, j ≤ size (ns s) →
        String.length (default_name_base (m_mclass md) +:+ pretty (Z.of_nat j))
        < MODULE_NAME_LEN) →
  (∃ k,
    (∀ j, j < k →
       is_Some (ns s !! (default_name_base (m_mclass md) +:+ pretty (Z.of_nat j)))) ∧
    ns s !! (default_name_base (m_mclass md) +:+ pretty (Z.of_nat k)) = None ∧
    set_default_name m s =
    Some (tt, set_modules
                <[m := set_name md
                         (Some (default_name_base (m_mclass md)
                                +:+ pretty (Z.of_nat k)))]> s)) ∧
  snake_case "MyIPChecksum" = "my_ipchecksum"%string ∧
  Demo.scenario_S3 =
    [Some "my_ipchecksum0"; Some "my_ipchecksum1"; Some "my_ipchecksum2";
     Some "my_ipchecksum1"]%string.
Proof.
  intros Hm Hnm Hfmt Hpc Hmax Hfit.
  split; [by apply set_default_name_run|].
  split; vm_compute; reflexivity.
Qed.

End names.

(** The example of C6 as the spec has it fails: the names of scenario S3 are
    not my_ip_checksum0, my_ip_checksum1, my_ip_checksum2, my_ip_checksum1. *)
Lemma scenario_S3_counterexample :
  Demo.scenario_S3 ≠
    [Some "my_ip_checksum0"; Some "my_ip_checksum1"; Some "my_ip_checksum2";
     Some "my_ip_checksum1"]%string.
Proof. vm_compute. discriminate. Qed.

(** C6 at work on [Demo.naming]: three names are bound, so the fourth module
    gets number 3. *)
Lemma set_default_name_spec_witness :
  modules Demo.naming !! 3 = Some (Demo.module_of Demo.naming 3) ∧
  is_Some (m_name (Demo.module_of Demo.naming 3)) ∧
  humps (name (m_mclass (Demo.module_of Demo.naming 3))) ≤ 13 ∧
  has_percent (default_name_base (m_mclass (Demo.module_of Demo.naming 3))) = false ∧
  (Z.of_nat (size (ns Demo.naming)) ≤ INT_MAX)%Z ∧
  ∃ k, set_default_name (H := bess_limits) 3 Demo.naming =
       Some (tt, set_modules
                   <[3 := set_name (Demo.module_of Demo.naming 3)
                            (Some (default_name_base
                                     (m_mclass (Demo.module_of Demo.naming 3))
                                   +:+ pretty (Z.of_nat k)))]> Demo.naming).
Proof.
  assert (modules Demo.naming !! 3 = Some (Demo.module_of Demo.naming 3)) as Hm
    by (vm_compute; reflexivity).
  assert (is_Some (m_name (Demo.module_of Demo.naming 3))) as Hnm
    by (apply (bool_decide_unpack _); vm_compute; exact I).
  assert (humps (name (m_mclass (Demo.module_of Demo.naming 3))) ≤ 13) as Hfmt
    by (vm_compute; lia).
  assert (has_percent (default_name_base
            (m_mclass (Demo.module_of Demo.naming 3))) = false) as Hpc
    by (vm_compute; reflexivity).
  assert (Z.of_nat (size (ns Demo.naming)) ≤ INT_MAX)%Z as Hmax
    by (vm_compute; discriminate).
  do 5 (split; [assumption|]).
  destruct (set_default_name_spec (H := bess_limits) Demo.naming 3 _ Hm Hnm
              (λ _, Hfmt) Hpc Hmax)
    as [(k & _ & _ & Hrun) _].
  - assert (size (ns Demo.naming) = 3) as -> by (vm_compute; reflexivity).
    intros j Hj.
    do 4 (destruct j as [|j]; [vm_compute; lia|]). lia.
  - by exists k.
Defined.

(** A class name of 28 characters with 14 lower-to-upper places needs 45
    bytes of the 44 of [fmt]: [create_module] without a name does not
    return for it, while 13 such places are served. *)
Example set_default_name_overrun_run :
  humps "aBaBaBaBaBaBaBaBaBaBaBaBaBaB" = 14 ∧
  create_module (H := bess_limits) None
    (Demo.cls "aBaBaBaBaBaBaBaBaBaBaBaBaBaB") 0 Demo.three_modules = None ∧
  Demo.created_name
    (create_module (H := bess_limits) None
       (Demo.cls "aBaBaBaBaBaBaBaBaBaBaBaBaB") 0 Demo.three_modules)
  = Some "a_ba_ba_ba_ba_ba_ba_ba_ba_ba_ba_ba_ba_b0"%string.
Proof. repeat split; vm_compute; reflexivity. Qed.

(** ** Creation that fails

    From its first allocation to its [fail:] label, [create_module] keeps
    the state [half_built]: the state at entry plus the instance under
    construction.  Every step preserves this, and the [fail:] exit undoes
    it. *)

Section create.
Context `{Limits}.

(** Writing the name of the instance keeps the state half built. *)
Lemma half_built_rename s s' m md nm :
  half_built s s' m → modules s' !! m = Some md →
  half_built s (set_modules <[m := set_name md nm]> s') m.
Proof.
  intros (md0 & Hm & Hfresh & Hdel & Hlen & Hnd & Hlive & Hdall & Hg & Hns) Hmd.
  assert (md0 = md) as -> by congruence.
  exists (set_name md nm). cbn.
  split; [by rewrite lookup_insert_eq|]. split; [done|].
  split; [by rewrite delete_insert_eq|]. done.
Qed.

Lemma probe_names_half_built fuel m base i s0 s s' :
  half_built s0 s m → probe_names fuel m base i s = Some (tt, s') →
  half_built s0 s' m.
Proof.
  revert i s. induction fuel as [|fuel IH]; intros i s Hhb; [done|].
  cbn [probe_names]. destruct (INT_MAX <? i)%Z; [done|].
  destruct (String.length (base +:+ pretty i) <? MODULE_NAME_LEN); [|done].
  intros Hrun.
  apply bind_Some in Hrun as (md & s1 & H1 & Hrun).
  unfold get_module in H1. destruct (modules s !! m) as [md'|] eqn:Hm; [|done].
  mred in H1. simplify_eq.
  apply bind_Some in Hrun as (nm & s2 & H2 & Hrun).
  destruct (m_name md); [|done]. mred in H2. simplify_eq.
  rewrite (bind_eq _ _ _ _ _ (put_module_eq _ _ _ _ Hm)) in Hrun.
  unfold find_module in Hrun. mred in Hrun.
  destruct (ns s2 !! (base +:+ pretty i)).
  - eapply IH; [|exact Hrun]. by apply half_built_rename.
  - simplify_eq. by apply half_built_rename.
Qed.

Lemma set_default_name_half_built m s0 s s' :
  half_built s0 s m → set_default_name m s = Some (tt, s') → half_built s0 s' m.
Proof.
  intros Hhb Hrun. unfold set_default_name in Hrun.
  apply bind_Some in Hrun as (md & s1 & H1 & Hrun).
  unfold get_module in H1. destruct (modules s !! m); [|done]. mred in H1. simplify_eq.
  apply bind_Some in Hrun as (base & sb & H2 & Hrun).
  apply default_fmt_Some in H2 as (-> & -> & _).
  destruct (has_percent _); [done|]. mred in Hrun.
  by eapply probe_names_half_built.
Qed.

(** So does a task registration on the instance, failed or not. *)
Lemma half_built_register_task m a s0 s r s' :
  half_built s0 s m → register_task m a s = Some (r, s') → half_built s0 s' m.
Proof.
  intros (md & Hm & Hfresh & Hdel & Hlen & Hnd & Hlive & Hdall & Hg & Hns) Hrun.
  destruct (register_task_frame _ _ _ _ _ Hrun) as (Hg' & Hns' & _).
  destruct (register_task_run s m a md Hm Hlen) as (r' & s'' & Hrun' & Hfail & Hsucc).
  rewrite Hrun in Hrun'. injection Hrun' as <- <-.
  destruct (decide (run_task (m_mclass md) = None ∨
                    Forall (λ slot, slot ≠ None) (tasks md) ∨
                    next_alloc_ok s = false)) as [Hf|Hok].
  - destruct (Hfail Hf) as (_ & Hmods & Htm).
    exists md. rewrite Hmods, Htm, Hg', Hns'. done.
  - destruct (Hsucc) as (id & t & [Hid _] & _ & Hnew & Htm & Hmods & _).
    { intros ?. apply Hok. by left. }
    { intros ?. apply Hok. by right; left. }
    { destruct (next_alloc_ok s); [done|]. destruct Hok. by right; right. }
    assert (t ∉ omap Datatypes.id (tasks md)) as Hnotin.
    { intros Hin. rewrite Forall_forall in Hlive. destruct (Hlive _ Hin) as [? Hx].
      congruence. }
    assert (∀ x, x ∈ omap Datatypes.id (<[id := Some t]> (tasks md)) ↔
                 x = t ∨ x ∈ omap Datatypes.id (tasks md)) as Hmem.
    { intros x.
      rewrite <- (take_drop_middle _ _ _ Hid) at 2.
      rewrite <- (take_drop_middle _ _ _ Hid) at 1.
      rewrite insert_app_r_alt by (rewrite length_take; apply lookup_lt_Some in Hid; lia).
      rewrite length_take, Nat.min_l by (apply lookup_lt_Some in Hid; lia).
      rewrite Nat.sub_diag. cbn. rewrite !omap_app. cbn.
      rewrite !elem_of_app, elem_of_cons. tauto. }
    exists (set_tasks md (<[id := Some t]> (tasks md))).
    rewrite Hmods, Htm, Hg', Hns'. cbn [tasks set_tasks].
    split; [by rewrite lookup_insert_eq|]. split; [done|].
    split; [by rewrite delete_insert_eq|].
    split; [by rewrite length_insert|].
    split.
    { rewrite <- (take_drop_middle _ _ _ Hid) in Hnd |- *.
      rewrite insert_app_r_alt by (rewrite length_take; apply lookup_lt_Some in Hid; lia).
      rewrite length_take, Nat.min_l by (apply lookup_lt_Some in Hid; lia).
      rewrite Nat.sub_diag. cbn. rewrite omap_app in Hnd |- *. cbn in *.
      apply NoDup_app in Hnd as (Hn1 & Hdisj & Hn2).
      apply NoDup_app. split; [done|]. split.
      - intros x Hx [->|Hx']%elem_of_cons; [|by eapply Hdisj].
        apply Hnotin. rewrite <- (take_drop_middle _ _ _ Hid), omap_app.
        apply elem_of_app. by left.
      - apply NoDup_cons. split; [|done]. intros Hx.
        apply Hnotin. rewrite <- (take_drop_middle _ _ _ Hid), omap_app.
        apply elem_of_app. right. done. }
    split.
    { apply Forall_forall. intros x Hx. apply Hmem in Hx as [->|Hx].
      - by rewrite lookup_insert_eq.
      - rewrite lookup_insert_ne by (intros ->; done).
        rewrite Forall_forall in Hlive. by apply Hlive. }
    split; [|done].
    rewrite <- Hdall. apply map_eq. intros x. rewrite !lookup_delete_all.
    destruct (decide (x = t)) as [->|Hne].
    + rewrite (decide_True (P := t ∈ omap Datatypes.id (<[id := Some t]> (tasks md))))
        by (apply Hmem; by left).
      rewrite (decide_False (P := t ∈ omap Datatypes.id (tasks md))) by done. done.
    + rewrite lookup_insert_ne by done.
      destruct (decide (x ∈ omap Datatypes.id (tasks md))) as [Hx|Hx].
      * by rewrite decide_True by (apply Hmem; by right).
      * rewrite decide_False; [done|]. intros Hx'. by apply Hmem in Hx' as [?|?].
Qed.


Lemma half_built_ext s0 s s' m :
  half_built s0 s m →
  modules s' = modules s → tmem s' = tmem s → gmem s' = gmem s → ns s' = ns s →
  half_built s0 s' m.
Proof.
  intros (md & Hhb) Hm Ht Hg Hn. exists md. by rewrite Hm, Ht, Hg, Hn.
Qed.

Lemma half_built_register_loop m l s0 s s' :
  half_built s0 s m →
  for_each l (λ ta, let! _ := register_task m ta in ret tt) s = Some (tt, s') →
  half_built s0 s' m.
Proof.
  revert s. induction l as [|ta l IH]; intros s Hhb; cbn [for_each].
  - mred. by intros [= <-].
  - intros Hrun. apply bind_Some in Hrun as (u & s1 & H1 & Hrun).
    apply bind_Some in H1 as (r & s2 & H2 & H1). mred in H1. simplify_eq.
    eapply IH; [|exact Hrun]. by eapply half_built_register_task.
Qed.

(** The [fail:] exit gives back the state at entry. *)
Lemma create_fail_run s0 s m e :
  half_built s0 s m →
  ∃ s', create_fail m e s = Some ((None, Some e), s') ∧
    modules s' = modules s0 ∧ tmem s' = tmem s0 ∧ gmem s' = gmem s0 ∧
    ns s' = ns s0.
Proof.
  intros (md & Hm & Hfresh & Hdel & Hlen & Hnd & Hlive & Hdall & Hg & Hns).
  unfold create_fail.
  rewrite (bind_eq _ _ _ _ _ (destroy_all_tasks_run s m md Hm Hlen Hnd Hlive)).
  mred. eexists. split; [reflexivity|]. cbn.
  rewrite delete_insert_eq, Hdel.
  rewrite <- Hlen, firstn_all. done.
Qed.

Lemma rte_zmalloc_module_run mc s :
  rte_zmalloc_module mc s =
  Some (if next_alloc_ok s
        then (Some (fresh (dom (modules s))),
              set_modules
                <[fresh (dom (modules s)) :=
                    Module_ mc None (replicate MAX_TASKS_PER_MODULE None)
                      (Gates []) (Gates [])]>
                (set_alloc_plan (tail (alloc_plan s)) s))
        else (None, set_alloc_plan (tail (alloc_plan s)) s)).
Proof.
  unfold rte_zmalloc_module. rewrite (bind_eq _ _ _ _ _ (rte_alloc_ok_run s)).
  by destruct (next_alloc_ok s).
Qed.

Lemma omap_replicate_None {A} n : omap Datatypes.id (replicate n (@None A)) = [].
Proof. induction n; [done|]. by cbn. Qed.

Lemma half_built_fresh mc s :
  half_built s
    (set_modules
       <[fresh (dom (modules s)) :=
           Module_ mc None (replicate MAX_TASKS_PER_MODULE None)
             (Gates []) (Gates [])]>
       (set_alloc_plan (tail (alloc_plan s)) s))
    (fresh (dom (modules s))).
Proof.
  assert (modules s !! fresh (dom (modules s)) = None) as Hfresh
    by apply not_elem_of_dom, is_fresh.
  eexists. cbn. split; [apply lookup_insert_eq|]. split; [done|].
  split; [by rewrite delete_insert_eq, delete_id|].
  cbn. rewrite length_replicate, omap_replicate_None.
  split; [done|]. split; [apply NoDup_nil_2|]. split; [apply Forall_nil_2|]. done.
Qed.

(** A call of [create_module] that returns NULL leaves the module heap, the
    task heap, the gate heap and the namespace as they were, and sets the
    error. *)
Lemma create_module_null nm mc a s perr s' :
  create_module nm mc a s = Some ((None, perr), s') →
  modules s' = modules s ∧ tmem s' = tmem s ∧ gmem s' = gmem s ∧
  ns s' = ns s ∧ is_Some perr.
Proof.
  unfold create_module. intros Hrun.
  apply bind_Some in Hrun as (dup & s1 & Hdup & Hrun).
  assert (s1 = s) as ->.
  { destruct nm; unfold find_module in Hdup; mred in Hdup; by simplify_eq. }
  clear Hdup. destruct dup; [mred in Hrun; by simplify_eq|].
  pose proof (rte_zmalloc_module_run mc s) as Hz.
  destruct (next_alloc_ok s); rewrite (bind_eq _ _ _ _ _ Hz) in Hrun; clear Hz;
    [|mred in Hrun; by simplify_eq].
  pose proof (half_built_fresh mc s) as Hhb.
  set (m := fresh (dom (modules s))) in *.
  set (s1 := set_modules _ _) in *. clearbody s1 m.
  assert (∀ s2 e r, half_built s s2 m → create_fail m e s2 = Some ((None, perr), s') →
                    r = (modules s' = modules s ∧ tmem s' = tmem s ∧
                         gmem s' = gmem s ∧ ns s' = ns s ∧ is_Some perr) → r)
    as Hfail.
  { intros s2 e r Hhb2 Hcf ->.
    destruct (create_fail_run s s2 m e Hhb2) as (s3 & Hcf' & ? & ? & ? & ?).
    rewrite Hcf in Hcf'. simplify_eq. by repeat split. }
  apply bind_Some in Hrun as (got & s2 & Hname & Hrun).
  assert (half_built s s2 m) as Hhb2.
  { unfold rte_zmalloc_name in Hname.
    rewrite (bind_eq _ _ _ _ _ (rte_alloc_ok_run s1)) in Hname.
    destruct (next_alloc_ok s1).
    - apply bind_Some in Hname as (md & s3 & H3 & Hname).
      unfold get_module in H3. cbn in H3.
      destruct (modules s1 !! m) as [md'|] eqn:Hm1; [|done]. mred in H3. simplify_eq.
      rewrite (bind_eq _ _ _ _ _
                 (put_module_eq (set_alloc_plan (tail (alloc_plan s1)) s1) _ _ _ Hm1))
        in Hname.
      mred in Hname. simplify_eq.
      apply (half_built_rename s (set_alloc_plan (tail (alloc_plan s1)) s1));
        [by eapply half_built_ext|done].
    - mred in Hname. simplify_eq. by eapply half_built_ext. }
  clear Hname Hhb s1.
  destruct got; cbn [negb] in Hrun; [|by eapply Hfail].
  apply bind_Some in Hrun as (u & s3 & Hnaming & Hrun).
  assert (half_built s s3 m) as Hhb3.
  { destruct nm as [n|]; destruct u.
    - apply bind_Some in Hnaming as (md & s4 & H4 & Hnaming).
      unfold get_module in H4.
      destruct (modules s2 !! m) as [md'|] eqn:Hm2; [|done]. mred in H4. simplify_eq.
      rewrite (put_module_eq _ _ _ _ Hm2) in Hnaming. simplify_eq.
      by apply half_built_rename.
    - by eapply set_default_name_half_built. }
  clear Hnaming Hhb2 s2.
  apply bind_Some in Hrun as (err & s4 & Hinit & Hrun).
  assert (half_built s s4 m) as Hhb4.
  { destruct (init mc) as [hook|]; [|mred in Hinit; by simplify_eq].
    apply bind_Some in Hinit as (u' & s5 & Hloop & Hinit). mred in Hinit.
    simplify_eq. destruct u'. by eapply half_built_register_loop. }
  clear Hinit Hhb3 s3.
  destruct err; [by eapply Hfail|].
  apply bind_Some in Hrun as (r & s5 & Hreg & Hrun).
  assert (half_built s s5 m ∨ r = 0%Z) as Hcase.
  { unfold register_module, ns_insert in Hreg.
    apply bind_Some in Hreg as (md & s6 & H6 & Hreg).
    unfold get_module in H6. destruct (modules s4 !! m); [|done]. mred in H6.
    simplify_eq. destruct (m_name md); [|done]. mred in Hreg.
    destruct (ns s6 !! s0); mred in Hreg.
    - destruct (Z.ltb_spec (- EEXIST) 0); simplify_eq; by left.
    - destruct (Z.ltb_spec 0 0); simplify_eq; by right. }
  destruct Hcase as [Hhb5|Hr0].
  - case_bool_decide; [by eapply Hfail|]. mred in Hrun. by simplify_eq.
  - subst r. rewrite bool_decide_eq_false_2 in Hrun by (by intros ?).
    mred in Hrun. by simplify_eq.
Qed.


(** A name that is bound makes [create_module] fail with EEXIST before it
    touches anything. *)
Lemma create_module_dup n p mc a s :
  ns s !! n = Some p →
  create_module (Some n) mc a s = Some ((None, Some EEXIST), s).
Proof.
  intros Hn. unfold create_module, find_module. mred. by rewrite Hn.
Qed.

(** C5, amended: a name given and bound makes [create_module] fail with
    EEXIST; and whenever [create_module] returns NULL the error is set, the
    namespace is what it was before the call (so the call registered nothing,
    and a name that was free is still free), and the instance under
    construction is gone with its tasks: the module heap, the task heap and
    the gate heap are what they were. *)
Theorem create_module_failure nm mc a s :
  (∀ n p, nm = Some n → ns s !! n = Some p →
     create_module nm mc a s = Some ((None, Some EEXIST), s)) ∧
  (∀ perr s', create_module nm mc a s = Some ((None, perr), s') →
     is_Some perr ∧ ns s' = ns s ∧
     modules s' = modules s ∧ tmem s' = tmem s ∧ gmem s' = gmem s).
Proof.
  split.
  - intros n p -> Hn. by eapply create_module_dup.
  - intros perr s' Hrun.
    destruct (create_module_null _ _ _ _ _ _ Hrun) as (? & ? & ? & ? & ?).
    done.
Qed.

End create.

(** C5 as the spec has it fails for a duplicate name: [create_module] returns
    NULL, and a module with that name is registered (the one that had the
    name before the call). *)
Lemma create_module_duplicate_counterexample :
  ∃ s',
    create_module (H := bess_limits) (Some "my_ipchecksum0"%string)
      (Demo.cls "MyIPChecksum") 0 Demo.three_modules
    = Some ((None, Some EEXIST), s') ∧
    ns s' !! "my_ipchecksum0"%string = Some 0.
Proof. eexists. split; vm_compute; reflexivity. Qed.

(** C5 at work on [Demo.three_modules] and the name of module 0. *)
Lemma create_module_failure_witness :
  ns Demo.three_modules !! "my_ipchecksum0"%string = Some 0 ∧
  create_module (H := bess_limits) (Some "my_ipchecksum0"%string)
    (Demo.cls "MyIPChecksum") 0 Demo.three_modules
  = Some ((None, Some EEXIST), Demo.three_modules) ∧
  ns Demo.three_modules = ns Demo.three_modules.
Proof.
  assert (ns Demo.three_modules !! "my_ipchecksum0"%string = Some 0) as Hn
    by (vm_compute; reflexivity).
  split; [exact Hn|].
  destruct (create_module_failure (H := bess_limits) (Some "my_ipchecksum0"%string)
              (Demo.cls "MyIPChecksum") 0 Demo.three_modules) as [Hdup Hnull].
  split; [exact (Hdup _ _ eq_refl Hn)|].
  assert (create_module (H := bess_limits) (Some "my_ipchecksum0"%string)
            (Demo.cls "MyIPChecksum") 0 Demo.three_modules
          = Some ((None, Some EEXIST), Demo.three_modules)) as Hrun
    by (vm_compute; reflexivity).
  exact (proj1 (proj2 (Hnull _ _ Hrun))).
Defined.

(** The three ways to fail, run on [Demo.three_modules]: the first
    allocation refused, the second refused, an init hook that registers two
    tasks and then reports an error; each returns NULL with the error set
    and leaves the namespace, the modules and the tasks as they were. *)
Example create_module_fails_run :
  let untouched (s' : state) :=
    ns s' = ns Demo.three_modules ∧ modules s' = modules Demo.three_modules ∧
    tmem s' = tmem Demo.three_modules in
  (∃ s', create_module (H := bess_limits) (Some "x"%string) (Demo.cls "C") 0
           (set_alloc_plan [false] Demo.three_modules)
         = Some ((None, Some ENOMEM), s') ∧ untouched s') ∧
  (∃ s', create_module (H := bess_limits) (Some "x"%string) (Demo.cls "C") 0
           (set_alloc_plan [true; false] Demo.three_modules)
         = Some ((None, Some ENOMEM), s') ∧ untouched s') ∧
  (∃ s', create_module (H := bess_limits) (Some "x"%string) Demo.cls_init_fails 0
           Demo.three_modules
         = Some ((None, Some EINVAL), s') ∧ untouched s').
Proof.
  cbv zeta. repeat split; eexists; (split; [vm_compute; reflexivity|]);
    repeat split; vm_compute; reflexivity.
Qed.

(** ** Gate fabric: the primitive steps *)

Section gate_steps.
Context `{Limits}.

Lemma rte_zmalloc_gate_run s :
  rte_zmalloc_gate s =
  Some (if next_alloc_ok s
        then (Some (fresh (dom (gmem s))),
              set_gmem <[fresh (dom (gmem s)) := zero_gate]>
                (set_alloc_plan (tail (alloc_plan s)) s))
        else (None, set_alloc_plan (tail (alloc_plan s)) s)).
Proof.
  unfold rte_zmalloc_gate. rewrite (bind_eq _ _ _ _ _ (rte_alloc_ok_run s)).
  by destruct (next_alloc_ok s).
Qed.

Lemma read_slot_run g idx x s :
  (0 ≤ idx)%Z → arr g !! Z.to_nat idx = Some x → read_slot g idx s = Some (x, s).
Proof.
  intros Hidx Hx. unfold read_slot.
  destruct (Z.leb_spec 0 idx); [|lia]. by rewrite Hx.
Qed.

Lemma write_slot_run s m sd idx v md :
  modules s !! m = Some md →
  (0 ≤ idx < curr_size (get_gates sd md))%Z →
  write_slot m sd idx v s =
  Some (tt, set_modules
              <[m := set_gates sd md
                       (Gates (<[Z.to_nat idx := v]> (arr (get_gates sd md))))]> s).
Proof.
  intros Hm Hidx. unfold write_slot.
  rewrite (bind_eq _ _ _ _ _ (get_module_eq _ _ _ Hm)).
  destruct (Z.leb_spec 0 idx); [|lia].
  destruct (Z.ltb_spec idx (curr_size (get_gates sd md))); [|lia].
  cbn [andb]. by rewrite (put_module_eq _ _ _ _ Hm).
Qed.

Lemma get_set_gates sd sd' md g :
  get_gates sd' (set_gates sd md g) = if decide (sd' = sd) then g else get_gates sd' md.
Proof. by destruct sd, sd'. Qed.

Lemma m_mclass_set_gates sd md g : m_mclass (set_gates sd md g) = m_mclass md.
Proof. by destruct sd. Qed.

Lemma tasks_set_gates sd md g : tasks (set_gates sd md g) = tasks md.
Proof. by destruct sd. Qed.

Lemma m_name_set_gates sd md g : m_name (set_gates sd md g) = m_name md.
Proof. by destruct sd. Qed.

(** The doubling loop ends above [gate] when the fuel reaches that far and
    the gate index is one a 15-bit array can have. *)
Lemma grow_size_ok fuel v gate :
  (0 < v)%Z → (0 ≤ gate < 32768)%Z → (gate < v * 2 ^ Z.of_nat fuel)%Z →
  ∃ d, grow_size fuel v gate = Some d ∧ (gate < d)%Z ∧ (v ≤ d)%Z.
Proof.
  revert v. induction fuel as [|fuel IH]; intros v Hv Hgate Hreach; simpl.
  - destruct (Z.leb_spec v gate); [lia|]. exists v. split; [done|lia].
  - destruct (Z.leb_spec v gate); [|exists v; split; [done|lia]].
    unfold GATE_IDX_MOD. rewrite Z.mod_small by lia.
    destruct (IH (v * 2)%Z) as (d & Hd & ? & ?); [lia|done| |].
    + rewrite Nat2Z.inj_succ, Z.pow_succ_r in Hreach by lia. lia.
    + exists d. split; [done|lia].
Qed.

(** Once [new_size] has wrapped around to 0 the loop is stuck. *)
Lemma grow_size_zero fuel gate : (0 ≤ gate)%Z → grow_size fuel 0 gate = None.
Proof.
  intros Hgate. induction fuel as [|fuel IH]; simpl;
    destruct (Z.leb_spec 0 gate); try lia; done.
Qed.

(** Sixteen doublings are all the loop can use: more fuel gives the same result. *)
Lemma grow_size_fuel k v gate :
  (0 ≤ v < GATE_IDX_MOD)%Z → (0 ≤ gate)%Z →
  grow_size (16 + k) v gate = grow_size 16 v gate.
Proof.
  intros Hv Hgate.
  assert (∀ n w, (0 ≤ w < GATE_IDX_MOD)%Z →
            (w mod 2 ^ (16 - Z.of_nat n) = 0)%Z → n ≤ 16 →
            grow_size (n + k) w gate = grow_size n w gate) as Hgen.
  { induction n as [|n IH]; intros w Hw Hdiv Hn.
    - assert (w = 0%Z) as ->.
      { unfold GATE_IDX_MOD in Hw. change (16 - Z.of_nat 0)%Z with 16%Z in Hdiv.
        rewrite Z.mod_small in Hdiv by lia. done. }
      rewrite grow_size_zero by done. simpl. destruct (Z.leb_spec 0 gate); [done|lia].
    - simpl. destruct (Z.leb_spec w gate); [|done].
      apply IH; [apply Z.mod_pos_bound; by unfold GATE_IDX_MOD| |lia].
      unfold GATE_IDX_MOD.
      apply Z.mod_divide; [lia|]. apply Z.mod_divide in Hdiv; [|lia].
      rewrite Z.mod_eq by lia. apply Z.divide_sub_r.
      * replace (16 - Z.of_nat n)%Z with (Z.succ (16 - Z.of_nat (S n))) by lia.
        rewrite Z.pow_succ_r by lia. rewrite (Z.mul_comm 2).
        by apply Z.mul_divide_mono_r.
      * apply Z.divide_mul_l. exists (2 ^ Z.of_nat n)%Z.
        rewrite <- Z.pow_add_r by lia.
        by replace (Z.of_nat n + (16 - Z.of_nat n))%Z with 16%Z by lia. }
  apply Hgen; [done| |lia]. change (16 - Z.of_nat 16)%Z with 0%Z. apply Z.mod_1_r.
Qed.

Lemma grow_gates_run s m sd gate md :
  (MAX_GATES ≤ 32768)%Z →
  modules s !! m = Some md →
  (curr_size (get_gates sd md) ≤ MAX_GATES)%Z →
  (0 ≤ gate < MAX_GATES)%Z →
  ∃ n, Z.to_nat gate < n ∧ length (arr (get_gates sd md)) ≤ n ∧
    (Z.of_nat n ≤ MAX_GATES)%Z ∧
    grow_gates m sd gate s =
    Some (if next_alloc_ok s
          then (0%Z, set_modules
                       <[m := set_gates sd md
                                (Gates (resize n None (arr (get_gates sd md))))]>
                       (set_alloc_plan (tail (alloc_plan s)) s))
          else ((- ENOMEM)%Z, set_alloc_plan (tail (alloc_plan s)) s)).
Proof.
  intros Hmax Hm Hsize Hgate. unfold grow_gates.
  rewrite (bind_eq _ _ _ _ _ (get_module_eq _ _ _ Hm)).
  set (g := get_gates sd md) in *.
  set (start := if (curr_size g =? 0)%Z then 1%Z else curr_size g).
  assert (0 < start ∧ curr_size g ≤ start ∧ start ≤ MAX_GATES)%Z as (? & ? & ?).
  { unfold start, curr_size in *. destruct (Z.eqb_spec (Z.of_nat (length (arr g))) 0); lia. }
  destruct (grow_size_ok 16 start gate) as (d & Hd & ? & ?); [lia|lia| |].
  { change (2 ^ Z.of_nat 16)%Z with 65536%Z. lia. }
  rewrite Hd. cbn [deref]. unfold bind at 1. cbn [ret].
  set (new_size := if (MAX_GATES <? d)%Z then MAX_GATES else d).
  assert (gate < new_size ∧ curr_size g ≤ new_size ∧ new_size ≤ MAX_GATES)%Z
    as (? & ? & ?).
  { unfold new_size. destruct (Z.ltb_spec MAX_GATES d); lia. }
  exists (Z.to_nat new_size).
  split; [lia|]. split; [unfold curr_size in *; lia|]. split; [lia|].
  rewrite (bind_eq _ _ _ _ _ (rte_alloc_ok_run s)).
  destruct (next_alloc_ok s); [|done].
  destruct (Z.ltb_spec new_size (curr_size g)); [lia|].
  by rewrite (bind_eq _ _ _ tt _
                (put_module_eq (set_alloc_plan (tail (alloc_plan s)) s) _ _ _ Hm)).
Qed.

End gate_steps.


(** ** Connection *)

Section connect.
Context `{Limits}.
Hypothesis MAX_GATES_15bit : (MAX_GATES ≤ 32768)%Z.

Lemma state_eta s :
  State (modules s) (gmem s) (tmem s) (ns s) (alloc_plan s) (trace s) = s.
Proof. by destruct s. Qed.

Lemma set_gates_get_gates sd md : set_gates sd md (Gates (arr (get_gates sd md))) = md.
Proof. by destruct sd, md as [? ? ? [?] [?]]. Qed.

Lemma grow_to_length sd md : grow_to sd (length (arr (get_gates sd md))) md = md.
Proof. unfold grow_to. rewrite resize_all. apply set_gates_get_gates. Qed.

Lemma maybe_grow_run s m sd gate md :
  modules s !! m = Some md →
  (curr_size (get_gates sd md) ≤ MAX_GATES)%Z →
  (0 ≤ gate < MAX_GATES)%Z →
  ∃ n, Z.to_nat gate < n ∧ length (arr (get_gates sd md)) ≤ n ∧
    (Z.of_nat n ≤ MAX_GATES)%Z ∧
    (if (curr_size (get_gates sd md) <=? gate)%Z
     then grow_gates m sd gate else ret 0%Z) s =
    Some (if bool_decide (curr_size (get_gates sd md) ≤ gate)%Z
          then if next_alloc_ok s
               then (0%Z, set_modules <[m := grow_to sd n md]>
                            (set_alloc_plan (tail (alloc_plan s)) s))
               else ((- ENOMEM)%Z, set_alloc_plan (tail (alloc_plan s)) s)
          else (0%Z, set_modules <[m := grow_to sd n md]> s)).
Proof.
  intros Hm Hsize Hgate.
  destruct (Z.leb_spec (curr_size (get_gates sd md)) gate).
  - rewrite bool_decide_eq_true_2 by done.
    destruct (grow_gates_run s m sd gate md MAX_GATES_15bit Hm Hsize Hgate)
      as (n & ? & ? & ? & Hrun).
    exists n. do 3 (split; [done|]). by rewrite Hrun.
  - rewrite bool_decide_eq_false_2 by lia.
    exists (length (arr (get_gates sd md))).
    split; [unfold curr_size in *; lia|]. split; [done|].
    split; [done|]. rewrite grow_to_length. unfold ret, set_modules.
    rewrite insert_id by done. by rewrite state_eta.
Qed.

Lemma is_active_gate_resize a n idx :
  length a ≤ n →
  is_active_gate (Gates (resize n None a)) idx = is_active_gate (Gates a) idx.
Proof.
  intros Hn. unfold is_active_gate, curr_size. cbn [arr].
  rewrite length_resize.
  destruct (Z.leb_spec 0 idx); [|done]. cbn [andb].
  destruct (decide (Z.to_nat idx < length a)) as [Hlt|Hge].
  - rewrite lookup_resize by lia.
    destruct (Z.ltb_spec idx (Z.of_nat n)), (Z.ltb_spec idx (Z.of_nat (length a)));
      try lia; done.
  - rewrite (lookup_ge_None_2 a) by lia.
    destruct (Z.ltb_spec idx (Z.of_nat (length a))); [lia|].
    destruct (Z.ltb_spec idx (Z.of_nat n)); [|done]. cbn [andb].
    destruct (decide (Z.to_nat idx < n)).
    + by rewrite lookup_resize_new by lia.
    + by rewrite lookup_resize_old by lia.
Qed.


Lemma next_alloc_ok_drop s s' k :
  alloc_plan s' = drop k (alloc_plan s) → next_alloc_ok s' = nth_alloc_ok s k.
Proof.
  unfold next_alloc_ok, nth_alloc_ok. intros ->.
  revert k. induction (alloc_plan s) as [|b p IH]; intros [|k]; simpl; done.
Qed.


Lemma shaped_refl m_prev m_next mods : shaped m_prev m_next id id mods mods.
Proof. intros m. destruct (mods !! m); [|done]. by repeat case_decide. Qed.

Lemma shaped_lookup m_prev m_next fo fi mods mods' m md :
  shaped m_prev m_next fo fi mods mods' → mods !! m = Some md →
  ∃ md', mods' !! m = Some md' ∧
    m_mclass md' = m_mclass md ∧ tasks md' = tasks md ∧ m_name md' = m_name md ∧
    arr (ogates md') =
      (if decide (m = m_prev) then fo (arr (ogates md)) else arr (ogates md)) ∧
    arr (igates md') =
      (if decide (m = m_next) then fi (arr (igates md)) else arr (igates md)).
Proof.
  intros Hsh Hm. specialize (Hsh m). rewrite Hm in Hsh.
  destruct (mods' !! m) as [md'|]; [|done]. by exists md'.
Qed.

Lemma shaped_insert_o m_prev m_next fo fi mods mods' md g :
  shaped m_prev m_next fo fi mods mods' → mods' !! m_prev = Some md →
  shaped m_prev m_next (λ a, g (fo a)) fi mods
    (<[m_prev := set_gates Ogates md (Gates (g (arr (ogates md))))]> mods').
Proof.
  intros Hsh Hmd m. specialize (Hsh m). rewrite lookup_insert.
  destruct (decide (m_prev = m)) as [<-|Hne].
  - rewrite Hmd in Hsh. destruct (mods !! m_prev); [|done].
    destruct Hsh as (? & ? & ? & Ho & Hi). cbn.
    rewrite (decide_True (P := m_prev = m_prev)) in * by done.
    rewrite Ho. by repeat split.
  - destruct (mods' !! m), (mods !! m); try done.
    destruct Hsh as (? & ? & ? & Ho & Hi).
    rewrite (decide_False (P := m = m_prev)) in * by done. by repeat split.
Qed.

Lemma shaped_insert_i m_prev m_next fo fi mods mods' md g :
  shaped m_prev m_next fo fi mods mods' → mods' !! m_next = Some md →
  shaped m_prev m_next fo (λ a, g (fi a)) mods
    (<[m_next := set_gates Igates md (Gates (g (arr (igates md))))]> mods').
Proof.
  intros Hsh Hmd m. specialize (Hsh m). rewrite lookup_insert.
  destruct (decide (m_next = m)) as [<-|Hne].
  - rewrite Hmd in Hsh. destruct (mods !! m_next); [|done].
    destruct Hsh as (? & ? & ? & Ho & Hi). cbn.
    rewrite (decide_True (P := m_next = m_next)) in * by done.
    rewrite Hi. by repeat split.
  - destruct (mods' !! m), (mods !! m); try done.
    destruct Hsh as (? & ? & ? & Ho & Hi).
    rewrite (decide_False (P := m = m_next)) in * by done. by repeat split.
Qed.

Lemma lookup_resize_None (a : list (option ptr)) n k :
  length a ≤ n → k < n →
  resize n None a !! k = Some (default None (a !! k)).
Proof.
  intros Hn Hk. destruct (decide (k < length a)).
  - rewrite lookup_resize by lia.
    destruct (lookup_lt_is_Some_2 a k) as [x Hx]; [done|]. by rewrite Hx.
  - rewrite lookup_resize_new by lia. by rewrite lookup_ge_None_2 by lia.
Qed.

Lemma is_active_gate_default g idx :
  (0 ≤ idx)%Z →
  is_active_gate g idx = bool_decide (is_Some (default None (arr g !! Z.to_nat idx))).
Proof.
  intros Hidx. unfold is_active_gate, curr_size.
  destruct (Z.leb_spec 0 idx); [|lia]. cbn [andb].
  destruct (arr g !! Z.to_nat idx) as [[x|]|] eqn:Hx; cbn.
  - apply lookup_lt_Some in Hx.
    by destruct (Z.ltb_spec idx (Z.of_nat (length (arr g)))); [|lia].
  - by rewrite andb_false_r.
  - by rewrite andb_false_r.
Qed.

Lemma slot_in_default sd mods m k :
  slot_in sd mods m k =
  match mods !! m with
  | Some md => default None (arr (get_gates sd md) !! k)
  | None => None
  end.
Proof.
  unfold slot_in. destruct (mods !! m) as [md|]; [|done].
  by destruct (arr (get_gates sd md) !! k) as [[?|]|].
Qed.

Lemma default_lookup_resize (a : list (option ptr)) n k :
  length a ≤ n → default None (resize n None a !! k) = default None (a !! k).
Proof.
  intros Hn. destruct (decide (k < n)).
  - by rewrite lookup_resize_None.
  - rewrite (lookup_ge_None_2 (resize _ _ _)) by (rewrite length_resize; lia).
    by rewrite lookup_ge_None_2 by lia.
Qed.

Lemma default_lookup_insert_resize (a : list (option ptr)) n k0 v k :
  length a ≤ n → k0 < n →
  default None (<[k0 := Some v]> (resize n None a) !! k) =
  if decide (k = k0) then Some v else default None (a !! k).
Proof.
  intros Hn Hk0. destruct (decide (k = k0)) as [->|].
  - by rewrite list_lookup_insert_eq by (rewrite length_resize; lia).
  - rewrite list_lookup_insert_ne by done. by apply default_lookup_resize.
Qed.

Lemma shaped_slot_in m_prev m_next fo fi mods mods' prev next no o ni i :
  shaped m_prev m_next fo fi mods mods' →
  mods !! m_prev = Some prev → mods !! m_next = Some next →
  (∀ k, default None (fo (arr (ogates prev)) !! k) =
        if decide (k = no) then Some o else default None (arr (ogates prev) !! k)) →
  (∀ k, default None (fi (arr (igates next)) !! k) =
        if decide (k = ni) then Some i else default None (arr (igates next) !! k)) →
  ∀ sd m k, slot_in sd mods' m k =
    if decide (sd = Ogates ∧ m = m_prev ∧ k = no) then Some o
    else if decide (sd = Igates ∧ m = m_next ∧ k = ni) then Some i
    else slot_in sd mods m k.
Proof.
  intros Hsh Hprev Hnext Hfo Hfi sd m k. rewrite !slot_in_default.
  specialize (Hsh m).
  destruct (mods' !! m) as [md'|], (mods !! m) as [md|] eqn:Hm; try done.
  - destruct Hsh as (_ & _ & _ & Ho & Hi).
    destruct sd; cbn [get_gates].
    + rewrite decide_False by (intros (? & ? & ?); congruence). rewrite Hi.
      destruct (decide (m = m_next)) as [->|].
      * assert (md = next) as -> by congruence. rewrite Hfi.
        destruct (decide (k = ni)) as [->|].
        -- by rewrite decide_True.
        -- by rewrite decide_False by (intros (? & ? & ?); congruence).
      * by rewrite decide_False by (intros (? & ? & ?); congruence).
    + rewrite Ho. destruct (decide (m = m_prev)) as [->|].
      * assert (md = prev) as -> by congruence. rewrite Hfo.
        destruct (decide (k = no)) as [->|].
        -- by rewrite decide_True.
        -- rewrite decide_False by (intros (? & ? & ?); congruence).
           by rewrite decide_False by (intros (? & ? & ?); congruence).
      * rewrite decide_False by (intros (? & ? & ?); congruence).
        by rewrite decide_False by (intros (? & ? & ?); congruence).
  - rewrite decide_False by (intros (_ & -> & _); congruence).
    by rewrite decide_False by (intros (_ & -> & _); congruence).
Qed.

Lemma shaped_frame m_prev m_next fo fi mods mods' prev next :
  shaped m_prev m_next fo fi mods mods' →
  mods !! m_prev = Some prev → mods !! m_next = Some next →
  length (arr (ogates prev)) ≤ length (fo (arr (ogates prev))) →
  length (arr (igates next)) ≤ length (fi (arr (igates next))) →
  ∀ m, match mods' !! m, mods !! m with
       | Some md', Some md =>
           m_mclass md' = m_mclass md ∧ tasks md' = tasks md ∧
           m_name md' = m_name md ∧
           (curr_size (ogates md) ≤ curr_size (ogates md'))%Z ∧
           (curr_size (igates md) ≤ curr_size (igates md'))%Z
       | None, None => True
       | _, _ => False
       end.
Proof.
  intros Hsh Hprev Hnext Hfo Hfi m. specialize (Hsh m).
  destruct (mods' !! m) as [md'|], (mods !! m) as [md|] eqn:Hm; try done.
  destruct Hsh as (? & ? & ? & Ho & Hi). do 3 (split; [done|]).
  unfold curr_size. rewrite Ho, Hi. split.
  - destruct (decide (m = m_prev)) as [->|]; [|lia].
    assert (md = prev) as -> by congruence. lia.
  - destruct (decide (m = m_next)) as [->|]; [|lia].
    assert (md = next) as -> by congruence. lia.
Qed.

Lemma tail_drop {A} k (l : list A) : tail (drop k l) = drop (S k) l.
Proof.
  revert l. induction k as [|k IH]; intros [|x l]; cbn; done.
Qed.

Lemma connect_modules_run s m_prev oi m_next ii prev next :
  consistent s →
  modules s !! m_prev = Some prev → modules s !! m_next = Some next →
  (0 ≤ oi)%Z → (0 ≤ ii)%Z →
  ∃ s', connect_modules m_prev oi m_next ii s
        = Some (connect_result s prev next oi ii, s') ∧
    (connect_result s prev next oi ii = 0%Z →
     ∃ o i up0, connected s s' m_prev oi m_next ii o i up0).
Proof.
  intros Hcons Hprev Hnext Hoi Hii.
  destruct (Hcons _ _ Hprev) as (Hpo & Hpi & Hpol & Hpil).
  destruct (Hcons _ _ Hnext) as (Hno & Hni & Hnol & Hnil).
  unfold connect_modules, connect_result, cdlist_add_tail, cdlist_head_init,
    rte_free_gate. mgo.
  destruct (bool_decide (process_batch (m_mclass next) = None)) eqn:Hpb.
  { eexists. split; [reflexivity|]. intros [=]. }
  destruct (Z.leb_spec (num_ogates (m_mclass prev)) oi).
  { rewrite bool_decide_eq_true_2 by lia. eexists. split; [reflexivity|]. intros [=]. }
  destruct (Z.leb_spec MAX_GATES oi).
  { rewrite bool_decide_eq_true_2 by lia. eexists. split; [reflexivity|]. intros [=]. }
  rewrite bool_decide_eq_false_2 by lia. cbn [orb].
  destruct (Z.leb_spec (num_igates (m_mclass next)) ii).
  { rewrite bool_decide_eq_true_2 by lia. eexists. split; [reflexivity|]. intros [=]. }
  destruct (Z.leb_spec MAX_GATES ii).
  { rewrite bool_decide_eq_true_2 by lia. eexists. split; [reflexivity|]. intros [=]. }
  rewrite bool_decide_eq_false_2 by lia. cbn [orb].
  (* growing the output array *)
  destruct (maybe_grow_run s m_prev Ogates oi prev Hprev Hpol ltac:(lia))
    as (n1 & Hn1 & Hn1' & Hn1'' & Hrun).
  unfold ret in Hrun. cbn [get_gates] in *. rewrite Hrun. clear Hrun.
  assert (nth_alloc_ok s 0 = next_alloc_ok s) as -> by (symmetry; by apply next_alloc_ok_drop).
  set (grow_o := bool_decide (curr_size (ogates prev) ≤ oi)%Z).
  destruct (grow_o && negb (next_alloc_ok s)) eqn:Hfail1.
  { apply andb_true_iff in Hfail1 as [-> Hf]. apply negb_true_iff in Hf. rewrite Hf.
    cbn. eexists. split; [reflexivity|]. intros [=]. }
  set (s1 := set_modules <[m_prev := grow_to Ogates n1 prev]>
               (set_alloc_plan (if grow_o then tail (alloc_plan s) else alloc_plan s) s)).
  assert ((if grow_o
        then
         if next_alloc_ok s
         then
          (0%Z,
           set_modules <[m_prev:=grow_to Ogates n1 prev]>
             (set_alloc_plan (tail (alloc_plan s)) s))
         else ((- ENOMEM)%Z, set_alloc_plan (tail (alloc_plan s)) s)
        else (0%Z, set_modules <[m_prev:=grow_to Ogates n1 prev]> s)) = (0%Z, s1)) as ->.
  { unfold s1. destruct grow_o; [|by rewrite <- (state_eta s) at 1].
    cbn in Hfail1. apply negb_false_iff in Hfail1. by rewrite Hfail1. }
  cbn [bool_decide decide_rel]. rewrite bool_decide_eq_false_2 by (intros ?; done).
  set (k1 := if grow_o then 1 else 0).
  assert (shaped m_prev m_next (resize n1 None) id (modules s) (modules s1)) as Hsh1.
  { apply (shaped_insert_o _ _ id id _ _ prev (resize n1 None));
      [apply shaped_refl|done]. }
  assert (gmem s1 = gmem s) as Hg1 by done.
  assert (alloc_plan s1 = drop k1 (alloc_plan s)) as Hp1.
  { unfold s1, k1. cbn. destruct grow_o; [|done]. by destruct (alloc_plan s). }
  assert (tmem s1 = tmem s ∧ ns s1 = ns s ∧ trace s1 = trace s) as Hfr1 by done.
  clearbody s1. clear Hfail1.
  (* the busy check *)
  destruct (shaped_lookup _ _ _ _ _ _ _ _ Hsh1 Hprev)
    as (prev1 & Hprev1 & Hc1 & _ & _ & Ho1 & _).
  rewrite decide_True in Ho1 by done.
  mgo.
  assert (is_active_gate (ogates prev1) oi = is_active_gate (ogates prev) oi) as ->.
  { transitivity (is_active_gate (Gates (resize n1 None (arr (ogates prev)))) oi).
    - unfold is_active_gate, curr_size. cbn [arr]. by rewrite Ho1.
    - by rewrite is_active_gate_resize. }
  destruct (is_active_gate (ogates prev) oi) eqn:Hbusy.
  { eexists. split; [reflexivity|]. intros [=]. }
  (* growing the input array *)
  destruct (shaped_lookup _ _ _ _ _ _ _ _ Hsh1 Hnext)
    as (next1 & Hnext1 & Hcn1 & _ & _ & _ & Hi1).
  assert (arr (igates next1) = arr (igates next)) as Hi1' by (by destruct (decide _)).
  clear Hi1. mgo.
  destruct (maybe_grow_run s1 m_next Igates ii next1 Hnext1) as
    (n2 & Hn2 & Hn2' & Hn2'' & Hrun);
    [unfold curr_size in *; cbn [get_gates]; rewrite Hi1'; lia|lia|].
  unfold ret in Hrun. cbn [get_gates] in *. rewrite Hi1' in Hn2'.
  assert (curr_size (igates next1) = curr_size (igates next)) as Hcs
    by (unfold curr_size; by rewrite Hi1').
  rewrite Hcs in *. rewrite Hrun. clear Hrun.
  rewrite (next_alloc_ok_drop s s1 k1 Hp1).
  set (grow_i := bool_decide (curr_size (igates next) ≤ ii)%Z).
  destruct (grow_i && negb (nth_alloc_ok s k1)) eqn:Hfail2.
  { apply andb_true_iff in Hfail2 as [-> Hf]. apply negb_true_iff in Hf. rewrite Hf.
    cbn. eexists. split; [reflexivity|]. intros [=]. }
  set (k2 := k1 + (if grow_i then 1 else 0)).
  set (s2 := set_modules <[m_next := grow_to Igates n2 next1]>
               (set_alloc_plan (if grow_i then tail (alloc_plan s1) else alloc_plan s1) s1)).
  assert ((if grow_i
           then if nth_alloc_ok s k1
                then (0%Z, set_modules <[m_next:=grow_to Igates n2 next1]>
                             (set_alloc_plan (tail (alloc_plan s1)) s1))
                else ((- ENOMEM)%Z, set_alloc_plan (tail (alloc_plan s1)) s1)
           else (0%Z, set_modules <[m_next:=grow_to Igates n2 next1]> s1))
          = (0%Z, s2)) as ->.
  { unfold s2. destruct grow_i; [|by rewrite <- (state_eta s1) at 1].
    cbn in Hfail2. apply negb_false_iff in Hfail2. by rewrite Hfail2. }
  rewrite bool_decide_eq_false_2 by (intros ?; done).
  assert (shaped m_prev m_next (resize n1 None) (resize n2 None)
            (modules s) (modules s2)) as Hsh2.
  { apply (shaped_insert_i _ _ _ id _ _ next1 (resize n2 None)); done. }
  assert (gmem s2 = gmem s) as Hg2 by done.
  assert (alloc_plan s2 = drop k2 (alloc_plan s)) as Hp2.
  { unfold s2, k2. cbn. rewrite Hp1. destruct grow_i; [|by rewrite Nat.add_0_r].
    by rewrite Nat.add_1_r, tail_drop. }
  assert (tmem s2 = tmem s ∧ ns s2 = ns s ∧ trace s2 = trace s) as Hfr2 by done.
  clearbody s2. clear Hfail2 Hprev1 Hnext1 prev1 next1 Hc1 Ho1 Hcn1 Hi1' Hcs Hsh1 Hg1 Hp1 Hfr1.
  (* the output gate *)
  rewrite rte_zmalloc_gate_run. rewrite (next_alloc_ok_drop s s2 k2 Hp2).
  destruct (nth_alloc_ok s k2) eqn:Hok3; cbn [negb]; mred.
  2:{ eexists. split; [reflexivity|]. intros [=]. }
  rewrite Hg2.
  set (o := fresh (dom (gmem s))).
  assert (gmem s !! o = None) as Hofresh by apply not_elem_of_dom, is_fresh.
  set (s3 := set_gmem <[o := zero_gate]> (set_alloc_plan (tail (alloc_plan s2)) s2)).
  assert (modules s3 = modules s2) as Hm3 by done.
  assert (gmem s3 = <[o := zero_gate]> (gmem s)) as Hg3 by (unfold s3; cbn; by rewrite Hg2).
  assert (alloc_plan s3 = drop (S k2) (alloc_plan s)) as Hp3.
  { unfold s3. cbn. by rewrite Hp2, tail_drop. }
  assert (tmem s3 = tmem s ∧ ns s3 = ns s ∧ trace s3 = trace s) as Hfr3 by done.
  clearbody s3.
  destruct (shaped_lookup _ _ _ _ _ _ _ _ Hsh2 Hprev)
    as (prev3 & Hprev3 & Hc3 & _ & _ & Ho3 & _).
  rewrite decide_True in Ho3 by done. rewrite <- Hm3 in Hprev3.
  rewrite (write_slot_run s3 m_prev Ogates oi (Some o) prev3 Hprev3).
  2:{ unfold curr_size. cbn [get_gates]. rewrite Ho3, length_resize. lia. }
  cbn [get_gates].
  set (s4 := set_modules _ s3).
  assert (shaped m_prev m_next (λ a, <[Z.to_nat oi := Some o]> (resize n1 None a))
            (resize n2 None) (modules s) (modules s4)) as Hsh4.
  { unfold s4. cbn. rewrite Hm3.
    apply (shaped_insert_o _ _ _ _ _ _ prev3 (<[Z.to_nat oi := Some o]>)); [done|].
    by rewrite <- Hm3. }
  assert (gmem s4 = <[o := zero_gate]> (gmem s)) as Hg4 by done.
  assert (alloc_plan s4 = drop (S k2) (alloc_plan s)) as Hp4 by done.
  assert (tmem s4 = tmem s ∧ ns s4 = ns s ∧ trace s4 = trace s) as Hfr4 by done.
  clearbody s4. clear Hprev3 Hc3 Ho3 prev3 Hm3 Hg3 Hp3 Hfr3 s3 Hsh2 Hg2 Hp2 Hfr2 s2.
  (* the input gate *)
  destruct (shaped_lookup _ _ _ _ _ _ _ _ Hsh4 Hnext)
    as (next4 & Hnext4 & Hcn4 & _ & _ & _ & Hi4).
  rewrite decide_True in Hi4 by done.
  mgo.
  rewrite (read_slot_run (igates next4) ii (default None (arr (igates next) !! Z.to_nat ii)) s4 Hii).
  2:{ rewrite Hi4. apply lookup_resize_None; lia. }
  rewrite (is_active_gate_default _ _ Hii).
  assert (∀ (x : option (option ptr)) (k : nat), (x, k).1 = x) as Hfst by done.
  pose proof (shaped_frame _ _ _ _ _ _ _ _ Hsh4 Hprev Hnext) as Hframe.
  destruct (default None (arr (igates next) !! Z.to_nat ii)) as [i|] eqn:Hold.
  - (* the input gate is there already *)
    assert (arr (igates next) !! Z.to_nat ii = Some (Some i)) as Hslot.
    { destruct (arr (igates next) !! Z.to_nat ii) as [[?|]|]; by simplify_eq/=. }
    pose proof (Hni _ _ Hslot) as Hig. unfold igate_ok in Hig.
    destruct (gmem s !! i) as [ig0|] eqn:Hi0; [|done].
    destruct Hig as (Hgm & Hgi & Hout & Hne0 & Hnd & Hup).
    assert (o ≠ i) as Hoi' by congruence.
    rewrite bool_decide_eq_true_2 by eauto. cbn [negb andb].
    repeat first [progress mgo | rewrite Hg4 | rewrite lookup_insert_eq
                 | rewrite lookup_insert_ne by done].
    eexists. split; [reflexivity|]. intros _.
    exists o, i, (in_ogates_upstream ig0). unfold connected.
    destruct (shaped_lookup _ _ _ _ _ _ _ _ Hsh4 Hprev) as (prev' & Hprev' & _).
    eexists prev', next4, _, _. cbn.
    split; [done|]. split; [done|].
    split; [by rewrite lookup_insert_ne, lookup_insert_eq|].
    split; [by rewrite lookup_insert_eq|].
    split; [done|]. split; [done|].
    split.
    { intros Hin. rewrite Forall_forall in Hup. specialize (Hup _ Hin).
      unfold upstream_ok in Hup. by rewrite Hofresh in Hup. }
    cbn [g_m gate_idx g_arg out_igate out_igate_idx in_ogates_upstream set_upstream].
    do 5 (split; [done|]). split; [done|]. split; [rewrite Hgi; lia|].
    split; [done|]. split; [done|].
    assert (∀ sd m k, slot_at sd s4 m k =
       if decide (sd = Ogates ∧ m = m_prev ∧ k = Z.to_nat oi) then Some o
       else if decide (sd = Igates ∧ m = m_next ∧ k = Z.to_nat ii) then Some i
       else slot_at sd s m k) as Hslots.
    { apply (shaped_slot_in _ _ _ _ _ _ prev next _ _ _ _ Hsh4 Hprev Hnext).
      - intros k. apply default_lookup_insert_resize; lia.
      - intros k. rewrite default_lookup_resize by lia.
        destruct (decide (k = Z.to_nat ii)) as [->|]; [by rewrite Hslot|done]. }
    split.
    { unfold slot_at. rewrite slot_in_default, Hnext. cbn [get_gates].
      rewrite Hold. split; [done|]. eauto. }
    split.
    { unfold slot_at. rewrite slot_in_default, Hprev. cbn [get_gates].
      rewrite (is_active_gate_default _ _ Hoi) in Hbusy.
      destruct (default None (arr (ogates prev) !! Z.to_nat oi)); [|done].
      by rewrite bool_decide_eq_true_2 in Hbusy by eauto. }
    split.
    { intros g ? ?. rewrite Hg4. by rewrite !lookup_insert_ne by done. }
    split; [exact Hslots|].
    split; [|done].
    apply Hframe; rewrite ?length_insert, length_resize; lia.
  - (* a new input gate *)
    rewrite bool_decide_eq_false_2 by (by intros [? [=]]). cbn [negb andb].
    rewrite rte_zmalloc_gate_run. rewrite (next_alloc_ok_drop s s4 (S k2) Hp4).
    destruct (nth_alloc_ok s (S k2)) eqn:Hok5; cbn [negb]; mred.
    2:{ eexists. split; [reflexivity|]. intros [=]. }
    rewrite Hg4.
    set (i := fresh (dom (<[o := zero_gate]> (gmem s)))).
    assert (<[o := zero_gate]> (gmem s) !! i = None) as Hifresh
      by apply not_elem_of_dom, is_fresh.
    assert (o ≠ i) as Hoi' by (intros <-; by rewrite lookup_insert_eq in Hifresh).
    rewrite lookup_insert_ne in Hifresh by done.
    set (s5 := set_gmem <[i := zero_gate]> (set_alloc_plan (tail (alloc_plan s4)) s4)).
    assert (modules s5 = modules s4) as Hm5 by done.
    assert (gmem s5 = <[i := zero_gate]> (<[o := zero_gate]> (gmem s))) as Hg5
      by (unfold s5; cbn; by rewrite Hg4).
    assert (tmem s5 = tmem s ∧ ns s5 = ns s ∧ trace s5 = trace s) as Hfr5 by done.
    clearbody s5.
    rewrite <- Hm5 in Hnext4.
    rewrite (write_slot_run s5 m_next Igates ii (Some i) next4 Hnext4).
    2:{ unfold curr_size. cbn [get_gates]. rewrite Hi4, length_resize. lia. }
    cbn [get_gates].
    repeat first [progress mgo | rewrite Hg5 | rewrite lookup_insert_eq
                 | rewrite lookup_insert_ne by done].
    eexists. split; [reflexivity|]. intros _.
    exists o, i, []. unfold connected.
    assert (shaped m_prev m_next (λ a, <[Z.to_nat oi := Some o]> (resize n1 None a))
              (λ a, <[Z.to_nat ii := Some i]> (resize n2 None a)) (modules s)
              (<[m_next := set_gates Igates next4
                   (Gates (<[Z.to_nat ii := Some i]> (arr (igates next4))))]>
                 (modules s5))) as Hsh6.
    { rewrite Hm5. apply (shaped_insert_i _ _ _ _ _ _ next4 (<[Z.to_nat ii := Some i]>));
        [done|by rewrite <- Hm5]. }
    destruct (shaped_lookup _ _ _ _ _ _ _ _ Hsh6 Hprev) as (prev' & Hprev' & _).
    destruct (shaped_lookup _ _ _ _ _ _ _ _ Hsh6 Hnext) as (next' & Hnext' & _).
    eexists prev', next', _, _. cbn.
    split; [done|]. split; [done|].
    split; [by rewrite lookup_insert_ne, lookup_insert_eq|].
    split; [by rewrite lookup_insert_eq|].
    split; [done|]. split; [done|].
    split; [by intros ?%elem_of_nil|].
    cbn [g_m gate_idx g_arg out_igate out_igate_idx in_ogates_upstream set_upstream
         zero_gate].
    do 5 (split; [done|]). split; [done|]. split; [done|]. split; [done|].
    split; [done|].
    split.
    { unfold slot_at. rewrite slot_in_default, Hnext. cbn [get_gates].
      by rewrite Hold. }
    split.
    { unfold slot_at. rewrite slot_in_default, Hprev. cbn [get_gates].
      rewrite (is_active_gate_default _ _ Hoi) in Hbusy.
      destruct (default None (arr (ogates prev) !! Z.to_nat oi)); [|done].
      by rewrite bool_decide_eq_true_2 in Hbusy by eauto. }
    split.
    { intros g ? ?. rewrite !lookup_insert_ne by done. rewrite Hg5.
      by rewrite !lookup_insert_ne by done. }
    split.
    { apply (shaped_slot_in _ _ _ _ _ _ prev next _ _ _ _ Hsh6 Hprev Hnext).
      - intros k. apply default_lookup_insert_resize; lia.
      - intros k. rewrite default_lookup_insert_resize by lia.
        destruct (decide (k = Z.to_nat ii)) as [->|]; done. }
    split; [|done].
    apply (shaped_frame _ _ _ _ _ _ _ _ Hsh6 Hprev Hnext);
      rewrite ?length_insert, length_resize; lia.
Qed.

(** When the list of checks of the spec comes out as 0. *)
Lemma connect_result_zero s prev next ogate_idx igate_idx :
  connect_result s prev next ogate_idx igate_idx = 0%Z ↔
  process_batch (m_mclass next) ≠ None ∧
  (ogate_idx < num_ogates (m_mclass prev) ∧ ogate_idx < MAX_GATES)%Z ∧
  (igate_idx < num_igates (m_mclass next) ∧ igate_idx < MAX_GATES)%Z ∧
  is_active_gate (ogates prev) ogate_idx = false ∧
  ∀ k, k < connect_requests prev next ogate_idx igate_idx →
       nth_alloc_ok s k = true.
Proof.
  unfold connect_result, connect_requests, EINVAL, ENOMEM, EBUSY.
  destruct (bool_decide (process_batch (m_mclass next) = None)) eqn:Hpb.
  { apply bool_decide_eq_true in Hpb. split; [done|]. by intros [? _]. }
  apply bool_decide_eq_false in Hpb.
  case_bool_decide as Ho; [split; [done|]; intros (_ & ? & _); lia|].
  case_bool_decide as Hi; [split; [done|]; intros (_ & _ & ? & _); lia|].
  destruct (bool_decide (curr_size (ogates prev) ≤ ogate_idx)%Z),
    (bool_decide (curr_size (igates next) ≤ igate_idx)%Z),
    (is_active_gate (ogates prev) ogate_idx),
    (is_active_gate (igates next) igate_idx); cbn [andb negb Nat.add];
    repeat match goal with
    | |- context [nth_alloc_ok s ?k] =>
        let E := fresh "E" in destruct (nth_alloc_ok s k) eqn:E; cbn [andb negb]
    end;
    (split; [try done; intros _; repeat (split; [done || lia|]);
             intros k Hk; repeat (destruct k as [|k]; [done|]); cbn in Hk; lia
            |try done; intros (_ & _ & _ & Hb & Hall); try done;
             try (rewrite (Hall 0) in * by (cbn; lia); done);
             try (rewrite (Hall 1) in * by (cbn; lia); done);
             try (rewrite (Hall 2) in * by (cbn; lia); done);
             try (rewrite (Hall 3) in * by (cbn; lia); done)]).
Qed.


(** C4: [connect_modules] returns the first failure of the checks in the
    order of the spec: [-EINVAL] without [process_batch] on the downstream
    class, [-EINVAL] for an output index not below [num_ogates] and
    [MAX_GATES], [-EINVAL] for such an input index, [-ENOMEM] when the
    output array cannot grow, [-EBUSY] when the output slot is active,
    [-ENOMEM] when the input array cannot grow or a gate cannot be
    allocated; and it returns 0 exactly when every check passes and every
    allocation request of the call succeeds. *)
Theorem connect_modules_checks s m_prev ogate_idx m_next igate_idx prev next :
  consistent s →
  modules s !! m_prev = Some prev → modules s !! m_next = Some next →
  (0 ≤ ogate_idx)%Z → (0 ≤ igate_idx)%Z →
  ∃ s', connect_modules m_prev ogate_idx m_next igate_idx s
        = Some (connect_result s prev next ogate_idx igate_idx, s') ∧
    (connect_result s prev next ogate_idx igate_idx = 0%Z ↔
     process_batch (m_mclass next) ≠ None ∧
     (ogate_idx < num_ogates (m_mclass prev) ∧ ogate_idx < MAX_GATES)%Z ∧
     (igate_idx < num_igates (m_mclass next) ∧ igate_idx < MAX_GATES)%Z ∧
     is_active_gate (ogates prev) ogate_idx = false ∧
     ∀ k, k < connect_requests prev next ogate_idx igate_idx →
          nth_alloc_ok s k = true).
Proof.
  intros Hcons Hprev Hnext Hoi Hii.
  destruct (connect_modules_run s m_prev ogate_idx m_next igate_idx prev next
              Hcons Hprev Hnext Hoi Hii) as (s' & Hrun & _).
  exists s'. split; [exact Hrun|].
  apply connect_result_zero.
Qed.

End connect.

(** C4 at work: connecting output gate 0 of module 0 to input gate 0 of
    module 1 in [Demo.three_modules] passes every check. *)
Lemma connect_modules_checks_witness :
  (MAX_GATES (Limits := bess_limits) ≤ 32768)%Z ∧
  consistent (H := bess_limits) Demo.three_modules ∧
  modules Demo.three_modules !! 0 = Some (Demo.module_of Demo.three_modules 0) ∧
  modules Demo.three_modules !! 1 = Some (Demo.module_of Demo.three_modules 1) ∧
  ∃ s', connect_modules (H := bess_limits) 0 0 1 0 Demo.three_modules
        = Some (0%Z, s').
Proof.
  assert (MAX_GATES (Limits := bess_limits) ≤ 32768)%Z as Hmax
    by (vm_compute; discriminate).
  assert (consistent (H := bess_limits) Demo.three_modules) as Hcons
    by (apply (bool_decide_unpack _); vm_compute; exact I).
  assert (modules Demo.three_modules !! 0
          = Some (Demo.module_of Demo.three_modules 0)) as H0
    by (vm_compute; reflexivity).
  assert (modules Demo.three_modules !! 1
          = Some (Demo.module_of Demo.three_modules 1)) as H1
    by (vm_compute; reflexivity).
  do 4 (split; [assumption|]).
  destruct (connect_modules_checks (H := bess_limits) Hmax Demo.three_modules
              0 0 1 0 _ _ Hcons H0 H1) as (s' & Hrun & _); [done|done|].
  exists s'. rewrite Hrun. do 2 f_equal.
Defined.

(** ** Disconnection *)

Section disconnect.
Context `{Limits}.

Lemma insert_as_alter {A} (f : A → A) (mp : gmap nat A) k x :
  mp !! k = Some x → <[k := f x]> mp = alter f k mp.
Proof.
  intros Hk. apply map_eq. intros j. rewrite lookup_alter, lookup_insert.
  destruct (decide (k = j)) as [->|]; [by rewrite Hk|done].
Qed.

Lemma write_slot_alter s m sd idx v md :
  modules s !! m = Some md →
  (0 ≤ idx < curr_size (get_gates sd md))%Z →
  write_slot m sd idx v s =
  Some (tt, set_modules (alter (put_slot sd (Z.to_nat idx) v) m) s).
Proof.
  intros Hm Hidx. rewrite (write_slot_run _ _ _ _ _ _ Hm Hidx).
  unfold set_modules.
  by rewrite <- (insert_as_alter (put_slot sd (Z.to_nat idx) v) _ _ _ Hm).
Qed.

(** C8: [disconnect_modules] returns [-EINVAL] whenever the index is not
    below the class's [num_ogates]; for an index below it whose slot is
    inactive it returns 0 and the state is the one it was called in. *)
Theorem disconnect_modules_inactive s m_prev ogate_idx prev :
  modules s !! m_prev = Some prev →
  ((num_ogates (m_mclass prev) ≤ ogate_idx)%Z →
   disconnect_modules m_prev ogate_idx s = Some ((- EINVAL)%Z, s)) ∧
  ((ogate_idx < num_ogates (m_mclass prev))%Z →
   is_active_gate (ogates prev) ogate_idx = false →
   disconnect_modules m_prev ogate_idx s = Some (0%Z, s)).
Proof.
  intros Hm. unfold disconnect_modules.
  rewrite (bind_eq _ _ _ _ _ (get_module_eq _ _ _ Hm)).
  split.
  - intros Hge. by destruct (Z.leb_spec (num_ogates (m_mclass prev)) ogate_idx); [|lia].
  - intros Hlt Hinactive.
    destruct (Z.leb_spec (num_ogates (m_mclass prev)) ogate_idx); [lia|].
    by rewrite Hinactive.
Qed.

Lemma is_active_gate_true g idx x :
  (0 ≤ idx)%Z → arr g !! Z.to_nat idx = Some (Some x) →
  is_active_gate g idx = true.
Proof.
  intros Hidx Hx. unfold is_active_gate, curr_size. rewrite Hx.
  apply lookup_lt_Some in Hx.
  destruct (Z.leb_spec 0 idx); [|lia].
  by destruct (Z.ltb_spec idx (Z.of_nat (length (arr g)))); [|lia].
Qed.

Lemma is_active_gate_slot g idx :
  is_active_gate g idx = true ↔
  (0 ≤ idx)%Z ∧ ∃ x, arr g !! Z.to_nat idx = Some (Some x).
Proof.
  split; [|intros (? & ? & ?); by eapply is_active_gate_true].
  unfold is_active_gate. intros Ha.
  destruct (Z.leb_spec 0 idx); [|done].
  destruct (Z.ltb_spec idx (curr_size g)); [|done]. cbn in Ha.
  destruct (arr g !! Z.to_nat idx) as [[x|]|]; [|done..]. eauto.
Qed.

(** The path of [disconnect_modules] through an active slot. *)
Lemma disconnect_modules_run s m_prev oi prev o og i ig mn next :
  modules s !! m_prev = Some prev →
  (0 ≤ oi < num_ogates (m_mclass prev))%Z →
  arr (ogates prev) !! Z.to_nat oi = Some (Some o) →
  gmem s !! o = Some og → out_igate og = Some i → gmem s !! i = Some ig →
  o ≠ i →
  g_m ig = Some mn → modules s !! mn = Some next →
  (0 ≤ out_igate_idx og < curr_size (igates next))%Z →
  disconnect_modules m_prev oi s =
  Some (0%Z,
        State (disconnected_modules m_prev (Z.to_nat oi) o ig mn
                 (Z.to_nat (out_igate_idx og)) (modules s))
              (disconnected_gmem o i ig (gmem s))
              (tmem s) (ns s) (alloc_plan s) (trace s)).
Proof.
  intros Hprev Hoi Hslot Ho Hout Hi Hne Hmn Hnext Hii.
  assert (0 ≤ oi < curr_size (ogates prev))%Z as Hoi'.
  { apply lookup_lt_Some in Hslot. unfold curr_size. lia. }
  unfold disconnect_modules, cdlist_del, cdlist_is_empty, read_slot,
    write_slot, rte_free_gate, disconnected_modules, disconnected_gmem.
  mgo. zcond.
  rewrite (is_active_gate_true _ _ _ (proj1 Hoi) Hslot). cbn [negb].
  zcond. mgo. rewrite Hout. mgo.
  cbn [unlink set_upstream in_ogates_upstream].
  destruct (bool_decide (filter (λ x, x ≠ o) (in_ogates_upstream ig) = []))
    eqn:Hempty.
  - mgo. cbn [g_m set_upstream]. rewrite Hmn. mgo.
    rewrite lookup_insert_ne by done. mgo. repeat zcond. cbn [andb]. mgo.
    rewrite lookup_insert. destruct (decide (mn = m_prev)) as [->|Hmm]; mgo.
    + assert (next = prev) as -> by congruence.
      repeat zcond. cbn [andb]. mgo.
      do 3 f_equal.
      rewrite <- (insert_as_alter (put_slot Igates _ None) _ _ _ Hnext).
      erewrite <- (insert_as_alter (put_slot Ogates _ _)); [done|].
      by rewrite lookup_insert_eq.
    + repeat zcond. cbn [andb]. mgo. rewrite lookup_insert_ne by done. mgo.
      do 3 f_equal.
      rewrite <- (insert_as_alter (put_slot Igates _ None) _ _ _ Hnext).
      erewrite <- (insert_as_alter (put_slot Ogates _ _)); [done|].
      by rewrite lookup_insert_ne.
  - mgo. repeat zcond. cbn [andb]. mgo. do 3 f_equal.
    by rewrite <- (insert_as_alter (put_slot Ogates _ _) _ _ _ Hprev).
Qed.
End disconnect.

(** ** The error path of [connect_modules] that leaves a dangling slot *)

(** C1 (the code departs from it): consistency does not survive the call of
    [connect_modules] whose input-gate allocation fails.  In
    [Demo.fourth_alloc_fails], a consistent state, connecting output gate 0
    of module 0 to input gate 0 of module 1 grows both arrays, allocates the
    output gate and installs it, then fails to allocate the input gate: the
    call frees the output gate and returns [-ENOMEM], but the slot still
    holds the freed gate.  The slot is active, its gate is not live, and the
    resulting state is not consistent. *)
Theorem connect_modules_enomem_dangling :
  consistent (H := bess_limits) Demo.fourth_alloc_fails ∧
  ∃ s' o,
    connect_modules (H := bess_limits) 0 0 1 0 Demo.fourth_alloc_fails
      = Some ((- ENOMEM)%Z, s') ∧
    active Ogates s' 0 0 = true ∧
    slot_at Ogates s' 0 0 = Some o ∧ gmem s' !! o = None ∧
    ¬ consistent (H := bess_limits) s'.
Proof.
  split; [apply (bool_decide_unpack _); vm_compute; exact I|].
  exists (Demo.after (connect_modules (H := bess_limits) 0 0 1 0)
            Demo.fourth_alloc_fails), 0.
  split; [vm_compute; reflexivity|].
  split; [vm_compute; reflexivity|].
  split; [vm_compute; reflexivity|].
  split; [vm_compute; reflexivity|].
  apply (bool_decide_unpack _). vm_compute. exact I.
Qed.

(** ** Connect, then disconnect *)

Section roundtrip.
Context `{Limits}.
Hypothesis MAX_GATES_15bit : (MAX_GATES ≤ 32768)%Z.

Lemma slot_in_alter_put_None sd0 n m0 mods sd m j :
  slot_in sd (alter (put_slot sd0 n None) m0 mods) m j =
  if decide (sd = sd0 ∧ m = m0 ∧ j = n) then None else slot_in sd mods m j.
Proof.
  rewrite !slot_in_default, lookup_alter.
  destruct (decide (m0 = m)) as [->|Hm].
  - destruct (mods !! m) as [md|] eqn:Hmd; cbn; [|by case_decide].
    unfold put_slot. rewrite get_set_gates.
    destruct (decide (sd = sd0)) as [->|Hsd]; cbn [arr].
    + destruct (decide (j = n)) as [->|Hj].
      * rewrite decide_True by done.
        destruct (decide (n < length (arr (get_gates sd0 md)))).
        -- by rewrite list_lookup_insert_eq.
        -- by rewrite lookup_ge_None_2 by (rewrite length_insert; lia).
      * rewrite decide_False by (intros (_ & _ & ?); done).
        by rewrite list_lookup_insert_ne.
    + by rewrite decide_False by (intros (? & _); done).
  - rewrite decide_False by (intros (_ & ? & _); done). done.
Qed.

Lemma slot_in_disconnected m_prev n o ig mn k mods sd m j :
  slot_in sd (disconnected_modules m_prev n o ig mn k mods) m j =
  if decide (sd = Ogates ∧ m = m_prev ∧ j = n) then None
  else if decide (in_ogates_upstream (unlink o ig) = [] ∧
                  sd = Igates ∧ m = mn ∧ j = k) then None
  else slot_in sd mods m j.
Proof.
  unfold disconnected_modules. rewrite slot_in_alter_put_None.
  case_decide; [done|]. case_bool_decide as He.
  - rewrite slot_in_alter_put_None.
    destruct (decide (sd = Igates ∧ m = mn ∧ j = k)).
    + by rewrite decide_True.
    + by rewrite decide_False by (intros (_ & ?); done).
  - by rewrite decide_False by (intros (? & _); done).
Qed.

Lemma filter_ne_app_last (o : ptr) (l : list ptr) :
  o ∉ l → filter (λ x, x ≠ o) (l ++ [o]) = l.
Proof.
  intros Ho. rewrite filter_app. cbn. rewrite decide_False by (intros ?; done).
  rewrite app_nil_r. induction l as [|x l IH]; [done|].
  apply not_elem_of_cons in Ho as [? ?]. cbn.
  rewrite decide_True by done. f_equal. by apply IH.
Qed.

Lemma active_slot_at sd s m idx :
  active sd s m idx =
  (0 <=? idx)%Z && bool_decide (is_Some (slot_at sd s m (Z.to_nat idx))).
Proof.
  unfold active, slot_at. rewrite slot_in_default.
  destruct (modules s !! m) as [md|].
  - destruct (Z.leb_spec 0 idx).
    + by rewrite is_active_gate_default.
    + unfold is_active_gate. by destruct (Z.leb_spec 0 idx); [lia|].
  - rewrite bool_decide_eq_false_2 by (by intros [? [=]]). by rewrite andb_false_r.
Qed.

Lemma set_upstream_id g : set_upstream g (in_ogates_upstream g) = g.
Proof. by destruct g. Qed.

(** C2: in a consistent graph, a successful [connect_modules(a, i, b, j)]
    followed by [disconnect_modules(a, i)] gives back the graph: the
    disconnection succeeds, every slot of every module is active exactly if
    it was before the connection, the heap of gates is the one before (so no
    input gate made by the connection is left on [b]), and the modules, the
    tasks and the namespace are the same. *)
Theorem connect_disconnect_restores s m_prev ogate_idx m_next igate_idx s1 :
  consistent s →
  is_Some (modules s !! m_prev) → is_Some (modules s !! m_next) →
  (0 ≤ ogate_idx)%Z → (0 ≤ igate_idx)%Z →
  connect_modules m_prev ogate_idx m_next igate_idx s = Some (0%Z, s1) →
  ∃ s2, disconnect_modules m_prev ogate_idx s1 = Some (0%Z, s2) ∧
    (∀ sd m idx, active sd s2 m idx = active sd s m idx) ∧
    gmem s2 = gmem s ∧
    (∀ m, is_Some (modules s2 !! m) ↔ is_Some (modules s !! m)) ∧
    tmem s2 = tmem s ∧ ns s2 = ns s.
Proof.
  intros Hcons [prev Hprev] [next Hnext] Hoi Hii Hconn.
  destruct (connect_modules_run MAX_GATES_15bit s m_prev ogate_idx m_next
              igate_idx prev next Hcons Hprev Hnext Hoi Hii)
    as (s'' & Hrun & Hconnected).
  rewrite Hconn in Hrun. injection Hrun as Hr <-.
  symmetry in Hr. apply connect_result_zero in Hr as Hchecks.
  destruct Hchecks as (_ & [Hnum _] & _).
  destruct (Hconnected Hr) as (o & i & up0 & prev' & next' & og & ig &
    Hprev' & Hnext' & Ho & Hi & Hofresh & Hoi' & Houp & Hgm & Hgi & Hga &
    Hout & Hoidx & Higm & Higi & Higo & Hup & Hold & Hoslot & Hother &
    Hslots & Hframe & Htm & Hns & Htr).
  assert (arr (ogates prev') !! Z.to_nat ogate_idx = Some (Some o)) as Hso.
  { specialize (Hslots Ogates m_prev (Z.to_nat ogate_idx)).
    rewrite decide_True in Hslots by done.
    unfold slot_at, slot_in in Hslots. rewrite Hprev' in Hslots.
    cbn [get_gates] in Hslots.
    by destruct (arr (ogates prev') !! Z.to_nat ogate_idx) as [[?|]|]; simplify_eq. }
  assert (arr (igates next') !! Z.to_nat igate_idx = Some (Some i)) as Hsi.
  { specialize (Hslots Igates m_next (Z.to_nat igate_idx)).
    rewrite decide_False in Hslots by (by intros ([=] & _)).
    rewrite decide_True in Hslots by done.
    unfold slot_at, slot_in in Hslots. rewrite Hnext' in Hslots.
    cbn [get_gates] in Hslots.
    by destruct (arr (igates next') !! Z.to_nat igate_idx) as [[?|]|]; simplify_eq. }
  assert (m_mclass prev' = m_mclass prev) as Hcls.
  { specialize (Hframe m_prev). rewrite Hprev', Hprev in Hframe. by destruct Hframe. }
  erewrite (disconnect_modules_run s1 m_prev ogate_idx prev' o og i ig m_next next');
    try done.
  2:{ rewrite Hcls. lia. }
  2:{ rewrite Hoidx. apply lookup_lt_Some in Hsi. unfold curr_size. lia. }
  eexists. split; [reflexivity|].
  assert (in_ogates_upstream (unlink o ig) = up0) as Hrest.
  { unfold unlink. cbn. rewrite Hup. by apply filter_ne_app_last. }
  assert (up0 = [] ↔ slot_at Igates s m_next (Z.to_nat igate_idx) = None) as Hnew.
  { destruct (slot_at Igates s m_next (Z.to_nat igate_idx)) as [i0|] eqn:Hs0.
    - destruct Hold as (-> & ig0 & Hig0 & _ & Hup0). split; [|done].
      intros ->. exfalso.
      unfold slot_at, slot_in in Hs0. rewrite Hnext in Hs0. cbn in Hs0.
      destruct (arr (igates next) !! Z.to_nat igate_idx) as [[?|]|] eqn:Ha;
        simplify_eq.
      destruct (Hcons _ _ Hnext) as (_ & Higs & _).
      specialize (Higs _ _ Ha). unfold igate_ok in Higs. rewrite Hig0 in Higs.
      by destruct Higs as (_ & _ & _ & ? & _).
    - by destruct Hold as [_ ->]. }
  split; [|split; [|split; [|done]]].
  - assert (∀ sd m k,
      slot_in sd (disconnected_modules m_prev (Z.to_nat ogate_idx) o ig m_next
                    (Z.to_nat (out_igate_idx og)) (modules s1)) m k
      = slot_at sd s m k) as Hsame.
    { intros sd m k. rewrite slot_in_disconnected.
      fold (slot_at sd s1 m k). rewrite Hslots, Hrest, Hoidx.
      destruct (decide (sd = Ogates ∧ m = m_prev ∧ k = Z.to_nat ogate_idx))
        as [(-> & -> & ->)|]; [done|].
      destruct (decide (sd = Igates ∧ m = m_next ∧ k = Z.to_nat igate_idx))
        as [(-> & -> & ->)|Hn].
      + destruct (decide (up0 = [])) as [He|He].
        * rewrite decide_True by done. symmetry. by apply Hnew.
        * rewrite decide_False by (by intros (? & _)).
          destruct (slot_at Igates s m_next (Z.to_nat igate_idx)) eqn:Hs0.
          -- by destruct Hold as [-> _].
          -- by destruct He; apply Hnew.
      + by rewrite decide_False by (intros (_ & ?); done). }
    intros sd m idx. rewrite !active_slot_at. f_equal.
    apply bool_decide_ext. unfold slot_at at 1. cbn [modules]. by rewrite Hsame.
  - cbn [gmem]. unfold disconnected_gmem. rewrite Hrest.
    apply map_eq. intros g.
    destruct (decide (g = o)) as [->|Hgo]; [by rewrite lookup_delete_eq|].
    rewrite lookup_delete_ne by done.
    case_bool_decide as He.
    + destruct (decide (g = i)) as [->|Hgi'].
      * rewrite lookup_delete_eq. apply Hnew in He.
        rewrite He in Hold. by destruct Hold as [-> _].
      * rewrite lookup_delete_ne, lookup_insert_ne by done. by apply Hother.
    + destruct (decide (g = i)) as [->|Hgi'].
      * rewrite lookup_insert_eq.
        destruct (slot_at Igates s m_next (Z.to_nat igate_idx)) eqn:Hs0.
        -- destruct Hold as (_ & ig0 & -> & -> & Hup0).
           unfold unlink. cbn. rewrite filter_ne_app_last by done.
           destruct ig0; cbn in *. by subst.
        -- by destruct He; apply Hnew.
      * rewrite lookup_insert_ne by done. by apply Hother.
  - intros m. cbn [modules]. unfold disconnected_modules.
    rewrite lookup_alter. specialize (Hframe m).
    assert (is_Some (modules s1 !! m) ↔ is_Some (modules s !! m)) as Hiff.
    { destruct (modules s1 !! m), (modules s !! m); done. }
    rewrite <- Hiff. clear Hiff Hframe.
    case_bool_decide.
    + destruct (decide (m_prev = m)) as [->|].
      * rewrite lookup_alter. rewrite !fmap_is_Some.
        destruct (decide (m_next = m)) as [->|]; [by rewrite fmap_is_Some|done].
      * rewrite lookup_alter.
        destruct (decide (m_next = m)) as [->|]; [by rewrite fmap_is_Some|done].
    + destruct (decide (m_prev = m)) as [->|]; [by rewrite fmap_is_Some|done].
Qed.
End roundtrip.

(** C2 at work: connect output gate 0 of module 0 to input gate 0 of module
    1 in [Demo.three_modules], then disconnect it. *)
Lemma connect_disconnect_restores_witness :
  (MAX_GATES (Limits := bess_limits) ≤ 32768)%Z ∧
  consistent (H := bess_limits) Demo.three_modules ∧
  is_Some (modules Demo.three_modules !! 0) ∧
  is_Some (modules Demo.three_modules !! 1) ∧
  connect_modules (H := bess_limits) 0 0 1 0 Demo.three_modules
    = Some (0%Z, Demo.after (connect_modules (H := bess_limits) 0 0 1 0)
                   Demo.three_modules) ∧
  ∃ s2, disconnect_modules 0 0
          (Demo.after (connect_modules (H := bess_limits) 0 0 1 0)
             Demo.three_modules) = Some (0%Z, s2) ∧
    (∀ sd m idx, active sd s2 m idx = active sd Demo.three_modules m idx) ∧
    gmem s2 = gmem Demo.three_modules.
Proof.
  assert (MAX_GATES (Limits := bess_limits) ≤ 32768)%Z as Hmax
    by (vm_compute; discriminate).
  assert (consistent (H := bess_limits) Demo.three_modules) as Hcons
    by (apply (bool_decide_unpack _); vm_compute; exact I).
  assert (is_Some (modules Demo.three_modules !! 0)) as H0
    by (apply (bool_decide_unpack _); vm_compute; exact I).
  assert (is_Some (modules Demo.three_modules !! 1)) as H1
    by (apply (bool_decide_unpack _); vm_compute; exact I).
  assert (connect_modules (H := bess_limits) 0 0 1 0 Demo.three_modules
    = Some (0%Z, Demo.after (connect_modules (H := bess_limits) 0 0 1 0)
                   Demo.three_modules)) as Hconn
    by (vm_compute; reflexivity).
  do 5 (split; [assumption|]).
  destruct (connect_disconnect_restores (H := bess_limits) Hmax
              Demo.three_modules 0 0 1 0 _ Hcons H0 H1 ltac:(done) ltac:(done) Hconn)
    as (s2 & Hdis & Hact & Hg & _).
  exists s2. by repeat split.
Defined.

(** C8 at work: module 0 of [Demo.fan_in] has two output slots; slot 1 is
    inactive, index 2 is out of the class's range. *)
Lemma disconnect_modules_inactive_witness :
  modules Demo.fan_in !! 0 = Some (Demo.module_of Demo.fan_in 0) ∧
  disconnect_modules 0 2 Demo.fan_in = Some ((- EINVAL)%Z, Demo.fan_in) ∧
  disconnect_modules 0 1 Demo.fan_in = Some (0%Z, Demo.fan_in).
Proof.
  assert (modules Demo.fan_in !! 0 = Some (Demo.module_of Demo.fan_in 0)) as Hm
    by (vm_compute; reflexivity).
  split; [exact Hm|].
  destruct (disconnect_modules_inactive Demo.fan_in 0 2 _ Hm) as [Hinval _].
  destruct (disconnect_modules_inactive Demo.fan_in 0 1 _ Hm) as [_ Hnoop].
  split.
  - apply Hinval. vm_compute. discriminate.
  - apply Hnoop; vm_compute; reflexivity.
Defined.

(** ** Destroying a module

    One call of [disconnect_modules] on an active output gate keeps the
    graph consistent and only takes away ([shrinks], [cuts]); the two loops
    of [destroy_module] are runs of such calls, and what is left of the
    module when they are through has no gate. *)

Section teardown.
Context `{Limits}.

Lemma slot_at_Some sd s m k g :
  slot_at sd s m k = Some g ↔
  ∃ md, modules s !! m = Some md ∧ arr (get_gates sd md) !! k = Some (Some g).
Proof.
  unfold slot_at, slot_in. destruct (modules s !! m) as [md|]; split.
  - destruct (arr (get_gates sd md) !! k) as [[?|]|] eqn:Hk; [|done..].
    intros [= <-]. by exists md.
  - intros (? & [= <-] & ->). done.
  - done.
  - by intros (? & ? & _).
Qed.

Lemma consistent_ogate s m md k o :
  consistent s → modules s !! m = Some md → slot_at Ogates s m k = Some o →
  ogate_ok s m md k o.
Proof.
  intros Hc Hm (md' & Hm' & Hk)%slot_at_Some. simplify_eq.
  by apply (Hc m md Hm).
Qed.

Lemma consistent_igate s m k i :
  consistent s → slot_at Igates s m k = Some i → igate_ok s m k i.
Proof.
  intros Hc (md & Hm & Hk)%slot_at_Some. by apply (Hc m md Hm).
Qed.

(** What an active output gate of a consistent graph brings with it. *)
Lemma consistent_link s m k o :
  consistent s → slot_at Ogates s m k = Some o →
  ∃ md og i ig mn,
    modules s !! m = Some md ∧
    gmem s !! o = Some og ∧ out_igate og = Some i ∧ gmem s !! i = Some ig ∧
    g_m og = Some m ∧ gate_idx og = Z.of_nat k ∧
    (Z.of_nat k < num_ogates (m_mclass md))%Z ∧
    (0 ≤ out_igate_idx og)%Z ∧
    o ∈ in_ogates_upstream ig ∧ g_arg og = Some mn ∧ g_m ig = Some mn ∧
    slot_at Igates s mn (Z.to_nat (out_igate_idx og)) = Some i ∧
    out_igate ig = None ∧ o ≠ i.
Proof.
  intros Hc Hslot.
  pose proof Hslot as (md & Hm & Hk)%slot_at_Some.
  pose proof (consistent_ogate s m md k o Hc Hm Hslot) as Hok.
  unfold ogate_ok in Hok.
  destruct (gmem s !! o) as [og|] eqn:Ho; [|done].
  destruct Hok as (Hgm & Hidx & Hnum & Hpos & Hok).
  destruct (out_igate og) as [i|] eqn:Hout; [|done].
  destruct (gmem s !! i) as [ig|] eqn:Hi; [|done].
  destruct Hok as (Hup & Harg & Hok).
  destruct (g_m ig) as [mn|] eqn:Hmn; [|done].
  pose proof (consistent_igate s mn _ i Hc Hok) as Hiok.
  unfold igate_ok in Hiok. rewrite Hi in Hiok.
  destruct Hiok as (_ & _ & Hnone & _).
  exists md, og, i, ig, mn. repeat split; try done.
  intros ->. congruence.
Qed.

Lemma lookup_disconnected_gmem o i ig (g : gmap nat gate) x :
  disconnected_gmem o i ig g !! x =
  if decide (x = o) then None
  else if decide (x = i)
       then (if decide (in_ogates_upstream (unlink o ig) = []) then None
             else Some (unlink o ig))
       else g !! x.
Proof.
  unfold disconnected_gmem. rewrite lookup_delete.
  destruct (decide (o = x)) as [->|Hox]; [by rewrite decide_True|].
  rewrite (decide_False (P := x = o)) by done.
  case_bool_decide as He; destruct (decide (x = i)) as [->|Hix];
    destruct (decide (in_ogates_upstream (unlink o ig) = [])); try done.
  - by rewrite lookup_delete_eq.
  - rewrite lookup_delete_ne by done. by rewrite lookup_insert_ne.
  - by rewrite lookup_insert_eq.
  - by rewrite lookup_insert_ne.
Qed.

Lemma put_slot_frame sd n v md :
  m_mclass (put_slot sd n v md) = m_mclass md ∧
  tasks (put_slot sd n v md) = tasks md ∧
  m_name (put_slot sd n v md) = m_name md ∧
  length (arr (ogates (put_slot sd n v md))) = length (arr (ogates md)) ∧
  length (arr (igates (put_slot sd n v md))) = length (arr (igates md)).
Proof.
  destruct sd, md as [? ? ? [?] [?]]; cbn; by rewrite ?length_insert.
Qed.

Lemma disconnected_modules_frame m_prev n o ig mn k (mods : gmap nat module) m :
  match disconnected_modules m_prev n o ig mn k mods !! m, mods !! m with
  | Some md', Some md =>
      m_mclass md' = m_mclass md ∧ tasks md' = tasks md ∧
      m_name md' = m_name md ∧
      length (arr (ogates md')) = length (arr (ogates md)) ∧
      length (arr (igates md')) = length (arr (igates md))
  | None, None => True
  | _, _ => False
  end.
Proof.
  unfold disconnected_modules. rewrite lookup_alter.
  case_bool_decide; rewrite ?lookup_alter;
    repeat case_decide; subst; destruct (mods !! m) as [md|]; cbn; try done;
    rewrite ?length_insert; try done; apply put_slot_frame.
Qed.

(** One step: the active output gate [o] in slot [n] of [mp], which
    references the input gate [i]. *)
Section step.
Variables (s : state) (mp : ptr) (n : nat) (o i : ptr) (og ig : gate) (mn : ptr).
Hypothesis Hc : consistent s.
Hypothesis Hslot : slot_at Ogates s mp n = Some o.
Hypothesis Ho : gmem s !! o = Some og.
Hypothesis Hout : out_igate og = Some i.
Hypothesis Hi : gmem s !! i = Some ig.
Hypothesis Hmn : g_m ig = Some mn.

Local Abbreviation k := (Z.to_nat (out_igate_idx og)).
Local Abbreviation s1 := (disconnected s mp n o i ig mn k).

Lemma step_link :
  slot_at Igates s mn k = Some i ∧ out_igate ig = None ∧ (o ≠ i) ∧
  (o ∈ in_ogates_upstream ig).
Proof.
  destruct (consistent_link s mp n o Hc Hslot)
    as (md & og' & i' & ig' & mn' & Hm & Ho' & Hout' & Hi' & _ & _ & _ & _
        & Hup & _ & Hmn' & Hislot & Hnone & Hne).
  assert (og' = og) as -> by congruence.
  assert (i' = i) as -> by congruence.
  assert (ig' = ig) as -> by congruence.
  assert (mn' = mn) as -> by congruence.
  done.
Qed.

Lemma step_ogate_unique m j : slot_at Ogates s m j = Some o → m = mp ∧ j = n.
Proof.
  intros Hs.
  destruct (consistent_link s m j o Hc Hs)
    as (_ & og1 & _ & _ & _ & _ & Ho1 & _ & _ & Hm1 & Hj1 & _).
  destruct (consistent_link s mp n o Hc Hslot)
    as (_ & og2 & _ & _ & _ & _ & Ho2 & _ & _ & Hm2 & Hj2 & _).
  assert (og1 = og2) as -> by congruence. split; [congruence|lia].
Qed.

Lemma step_igate_unique m j : slot_at Igates s m j = Some i → m = mn ∧ j = k.
Proof.
  intros Hs.
  pose proof (consistent_igate s m j i Hc Hs) as H1.
  destruct step_link as (Hk & _).
  pose proof (consistent_igate s mn k i Hc Hk) as H2.
  unfold igate_ok in H1, H2. rewrite Hi in H1, H2.
  destruct H1 as (? & ? & _), H2 as (? & ? & _). split; [congruence|lia].
Qed.

Lemma step_ogate_ne m j o' : slot_at Ogates s m j = Some o' → o' ≠ i.
Proof.
  intros Hs ->.
  destruct (consistent_link s m j i Hc Hs)
    as (_ & og1 & i1 & _ & _ & _ & Ho1 & Hout1 & _).
  destruct step_link as (_ & Hnone & _). congruence.
Qed.

Lemma step_igate_ne m j i' : slot_at Igates s m j = Some i' → i' ≠ o.
Proof.
  intros Hs ->.
  pose proof (consistent_igate s m j o Hc Hs) as H1.
  unfold igate_ok in H1. rewrite Ho in H1. destruct H1 as (_ & _ & ? & _).
  congruence.
Qed.

Lemma step_slot sd m j :
  slot_at sd s1 m j =
  if decide (sd = Ogates ∧ m = mp ∧ j = n) then None
  else if decide (in_ogates_upstream (unlink o ig) = [] ∧
                  sd = Igates ∧ m = mn ∧ j = k) then None
  else slot_at sd s m j.
Proof. apply slot_in_disconnected. Qed.

Lemma step_gmem x :
  gmem s1 !! x =
  if decide (x = o) then None
  else if decide (x = i)
       then (if decide (in_ogates_upstream (unlink o ig) = []) then None
             else Some (unlink o ig))
       else gmem s !! x.
Proof. apply lookup_disconnected_gmem. Qed.

Lemma step_upstream_ok i' idx x :
  upstream_ok s i' idx x → x ≠ o → upstream_ok s1 i' idx x.
Proof.
  unfold upstream_ok. intros Hok Hxo.
  destruct (gmem s !! x) as [ogx|] eqn:Hx; [|done].
  destruct Hok as (Houtx & Hidx & Hpos & Hok).
  destruct (g_m ogx) as [mo|] eqn:Hmo; [|done].
  assert (x ≠ i) as Hxi by (by eapply step_ogate_ne).
  rewrite step_gmem, decide_False, decide_False, Hx by done.
  rewrite Hmo. repeat split; try done.
  rewrite step_slot.
  rewrite decide_False.
  - rewrite decide_False by (by intros (_ & ? & _)). done.
  - intros (_ & -> & Hj). rewrite Hj in Hok. rewrite Hslot in Hok. congruence.
Qed.

Lemma step_module m md1 :
  modules s1 !! m = Some md1 →
  ∃ md, modules s !! m = Some md ∧ m_mclass md1 = m_mclass md ∧
    tasks md1 = tasks md ∧ m_name md1 = m_name md ∧
    length (arr (ogates md1)) = length (arr (ogates md)) ∧
    length (arr (igates md1)) = length (arr (igates md)).
Proof.
  intros Hm1.
  pose proof (disconnected_modules_frame mp n o ig mn k (modules s) m) as Hf.
  unfold disconnected in Hm1. cbn [modules] in Hm1. rewrite Hm1 in Hf.
  destruct (modules s !! m) as [md|]; [|done]. by exists md.
Qed.

(** The step keeps the graph consistent. *)
Lemma step_consistent : consistent s1.
Proof.
  destruct step_link as (Hk & Hnone & Hne & Hup).
  intros m md1 Hm1.
  destruct (step_module m md1 Hm1) as (md & Hm & Hcls & _ & _ & Hlo & Hli).
  destruct (Hc m md Hm) as (_ & _ & Hbo & Hbi).
  split; [|split; [|unfold curr_size in *; rewrite Hlo, Hli; done]].
  - intros idx g Hg.
    assert (slot_at Ogates s1 m idx = Some g) as Hs1
      by (apply slot_at_Some; eauto).
    rewrite step_slot in Hs1. case_decide as Hd1; [done|].
    rewrite decide_False in Hs1 by (by intros (_ & ? & _)).
    destruct (consistent_link s m idx g Hc Hs1)
      as (md' & og' & i' & ig' & mn' & Hm' & Hg' & Hout' & Hi' & Hgm & Hgi
          & Hnum & Hpos & Hup' & Harg & Hmn' & Hislot & Hnone' & Hne').
    assert (md' = md) as -> by congruence.
    assert (g ≠ o) as Hgo.
    { intros ->. apply Hd1. split; [done|]. by apply step_ogate_unique. }
    assert (g ≠ i) as Hgi' by (by eapply step_ogate_ne).
    assert (i' ≠ o) as Hio by (by eapply step_igate_ne).
    unfold ogate_ok.
    rewrite step_gmem, decide_False, decide_False, Hg' by done.
    rewrite Hout', Hcls. do 4 (split; [done|]).
    rewrite step_gmem, decide_False by done.
    destruct (decide (i' = i)) as [->|Hii].
    + assert (ig' = ig) as -> by congruence.
      assert (g ∈ in_ogates_upstream (unlink o ig)) as Hin.
      { cbn. by apply list_elem_of_filter. }
      rewrite decide_False by (intros He; rewrite He in Hin; by apply elem_of_nil in Hin).
      cbn [unlink set_upstream g_m in_ogates_upstream] in *.
      rewrite Hmn' in *. do 2 (split; [done|]).
      rewrite step_slot, decide_False by (by intros (? & _)).
      rewrite decide_False; [done|].
      intros (He & _). cbn in He. rewrite He in Hin. by apply elem_of_nil in Hin.
    + rewrite Hi', Hmn'. do 2 (split; [done|]).
      rewrite step_slot, decide_False by (by intros (? & _)).
      rewrite decide_False; [done|].
      intros (_ & _ & -> & Hj). rewrite Hj, Hk in Hislot. congruence.
  - intros idx g Hg.
    assert (slot_at Igates s1 m idx = Some g) as Hs1
      by (apply slot_at_Some; eauto).
    rewrite step_slot in Hs1.
    rewrite decide_False in Hs1 by (by intros (? & _)).
    case_decide as Hd2; [done|].
    pose proof (consistent_igate s m idx g Hc Hs1) as Hok.
    assert (g ≠ o) as Hgo by (by eapply step_igate_ne).
    unfold igate_ok in *. rewrite step_gmem, decide_False by done.
    destruct (gmem s !! g) as [ig'|] eqn:Hg'; [|done].
    destruct Hok as (Hgm & Hgi & Hnone' & Hnonempty & Hnd & Hall).
    destruct (decide (g = i)) as [->|Hgi'].
    + assert (ig' = ig) as -> by congruence.
      destruct (step_igate_unique m idx Hs1) as [-> ->].
      rewrite decide_False by (intros He; apply Hd2; done).
      cbn [unlink set_upstream g_m gate_idx out_igate in_ogates_upstream].
      do 3 (split; [done|]).
      split; [intros He; apply Hd2; done|].
      split; [by apply NoDup_filter|].
      apply Forall_forall. intros x [Hxo Hx]%list_elem_of_filter.
      apply step_upstream_ok; [|done].
      by eapply Forall_forall in Hall.
    + do 5 (split; [done|]).
      apply Forall_forall. intros x Hx.
      eapply Forall_forall in Hall; [|done].
      apply step_upstream_ok; [done|].
      intros ->. unfold upstream_ok in Hall. rewrite Ho in Hall.
      destruct Hall as (? & _). congruence.
Qed.

Lemma step_shrinks : shrinks s s1.
Proof.
  do 3 (split; [done|]). split; [|split].
  - intros m. apply disconnected_modules_frame.
  - intros sd m j. rewrite step_slot. repeat case_decide; auto.
  - intros g g'. rewrite step_gmem. repeat case_decide; try done.
    + intros [= <-]. subst g. exists ig. split; [done|]. by unfold same_gate.
    + intros Hg. exists g'. split; [done|]. unfold same_gate.
      by rewrite set_upstream_id.
Qed.

Lemma step_cuts : cuts i s s1.
Proof.
  destruct step_link as (Hk & Hnone & Hne & Hup).
  split; [apply step_shrinks|]. split.
  - intros m j i' Hs Hii. rewrite step_slot.
    rewrite decide_False by (by intros (? & _)).
    rewrite decide_False; [done|].
    intros (_ & _ & -> & ->). congruence.
  - intros g g0 Hg Hg0 Hgi. rewrite step_gmem.
    rewrite decide_False by (intros ->; congruence).
    by rewrite decide_False.
Qed.

Lemma step_run md :
  modules s !! mp = Some md →
  disconnect_modules mp (Z.of_nat n) s = Some (0%Z, s1).
Proof.
  intros Hm.
  destruct (consistent_link s mp n o Hc Hslot)
    as (md' & og' & i' & ig' & mn' & Hm' & Ho' & Hout' & Hi' & _ & _ & Hnum
        & Hpos & _ & _ & Hmn' & Hislot & Hnone & Hne).
  assert (md' = md) as -> by congruence.
  assert (og' = og) as -> by congruence.
  assert (i' = i) as -> by congruence.
  pose proof Hslot as (? & ? & Harr)%slot_at_Some.
  pose proof Hislot as (next & Hnext & Hiarr)%slot_at_Some.
  simplify_eq. cbn [get_gates] in *.
  rewrite (disconnect_modules_run s mp (Z.of_nat n) md o og i ig mn next);
    try done.
  - unfold disconnected. by rewrite Nat2Z.id.
  - lia.
  - by rewrite Nat2Z.id.
  - apply lookup_lt_Some in Hiarr. unfold curr_size. lia.
Qed.

(** The upstream list of [i] after the step, when [o] is its head. *)
Lemma step_head l :
  in_ogates_upstream ig = o :: l → NoDup (in_ogates_upstream ig) →
  slot_at Ogates s1 mp n = None ∧
  match l with
  | [] => gmem s1 !! i = None ∧ slot_at Igates s1 mn k = None
  | _ :: _ =>
      gmem s1 !! i = Some (set_upstream ig l) ∧
      slot_at Igates s1 mn k = Some i
  end.
Proof.
  intros Hl Hnd. destruct step_link as (Hk & Hnone & Hne & Hup).
  assert (in_ogates_upstream (unlink o ig) = l) as Hul.
  { cbn. rewrite Hl in *. apply NoDup_cons in Hnd as [Hnotin Hnd].
    cbn. rewrite decide_False by (by intros ?).
    clear -Hnotin. induction l as [|x l IH]; [done|].
    apply not_elem_of_cons in Hnotin as [? ?]. cbn.
    rewrite decide_True by done. f_equal. by apply IH. }
  split; [by rewrite step_slot, decide_True|].
  rewrite step_gmem, step_slot.
  rewrite (decide_False (P := i = o)) by done.
  rewrite (decide_True (P := i = i)) by done.
  rewrite (decide_False (P := Igates = Ogates ∧ _)) by (by intros (? & _)).
  rewrite Hul. destruct l as [|x l].
  - by rewrite !decide_True.
  - rewrite decide_False by done.
    rewrite decide_False by (by intros (? & _)).
    split; [|done]. unfold unlink. by rewrite <- Hul.
Qed.

End step.

Lemma same_gate_refl g : same_gate g g.
Proof. unfold same_gate. by rewrite set_upstream_id. Qed.

Lemma same_gate_trans g1 g2 g3 : same_gate g1 g2 → same_gate g2 g3 → same_gate g1 g3.
Proof. unfold same_gate. intros -> ->. by destruct g1. Qed.

Lemma shrinks_refl s : shrinks s s.
Proof.
  do 3 (split; [done|]). split; [|split].
  - intros m. by destruct (modules s !! m).
  - auto.
  - intros g g' Hg. exists g'. split; [done|]. apply same_gate_refl.
Qed.

Lemma shrinks_trans s1 s2 s3 : shrinks s1 s2 → shrinks s2 s3 → shrinks s1 s3.
Proof.
  intros (Ht1 & Hn1 & Ha1 & Hm1 & Hs1 & Hg1) (Ht2 & Hn2 & Ha2 & Hm2 & Hs2 & Hg2).
  split; [congruence|]. split; [congruence|]. split; [congruence|].
  split; [|split].
  - intros m. specialize (Hm1 m). specialize (Hm2 m).
    destruct (modules s3 !! m), (modules s2 !! m), (modules s1 !! m); try done.
    destruct Hm1 as (? & ? & ? & ? & ?), Hm2 as (? & ? & ? & ? & ?).
    repeat split; congruence.
  - intros sd m k. destruct (Hs2 sd m k) as [?|Heq]; [by left|].
    rewrite Heq. apply Hs1.
  - intros g g3 Hg3. destruct (Hg2 g g3 Hg3) as (g2 & Hg2' & Hsame2).
    destruct (Hg1 g g2 Hg2') as (g1 & Hg1' & Hsame1).
    exists g1. split; [done|]. by eapply same_gate_trans.
Qed.

Lemma cuts_trans i s1 s2 s3 : cuts i s1 s2 → cuts i s2 s3 → cuts i s1 s3.
Proof.
  intros (Hsh1 & Hd1 & He1) (Hsh2 & Hd2 & He2).
  split; [by eapply shrinks_trans|]. split.
  - intros m k i' Hs Hne. apply Hd2; [|done]. by apply Hd1.
  - intros g g0 Hg Hg0 Hne. apply He2; [|done..]. by apply He1.
Qed.

(** The trace has no part in the invariants. *)
Lemma consistent_set_trace f s : consistent s → consistent (set_trace f s).
Proof. intros Hc m md Hm. exact (Hc m md Hm). Qed.

(** [disconnect_modules] on an active output gate of a consistent graph. *)
Lemma disconnect_active s mp n o oi :
  consistent s → slot_at Ogates s mp n = Some o → oi = Z.of_nat n →
  ∃ og i ig mn s',
    gmem s !! o = Some og ∧ out_igate og = Some i ∧ gmem s !! i = Some ig ∧
    g_m ig = Some mn ∧
    disconnect_modules mp oi s = Some (0%Z, s') ∧
    s' = disconnected s mp n o i ig mn (Z.to_nat (out_igate_idx og)) ∧
    consistent s' ∧ cuts i s s' ∧ trace s' = trace s.
Proof.
  intros Hc Hslot ->.
  destruct (consistent_link s mp n o Hc Hslot)
    as (md & og & i & ig & mn & Hm & Ho & Hout & Hi & _ & _ & _ & _ & _ & _
        & Hmn & _).
  exists og, i, ig, mn. eexists. do 4 (split; [done|]).
  split; [by eapply step_run|]. split; [done|].
  split; [by eapply step_consistent|]. split; [by eapply step_cuts|done].
Qed.

Lemma slot_at_active s sd m md idx :
  modules s !! m = Some md → (0 ≤ idx)%Z →
  is_active_gate (get_gates sd md) idx =
  bool_decide (is_Some (slot_at sd s m (Z.to_nat idx))).
Proof.
  intros Hm Hidx. rewrite is_active_gate_default by done.
  unfold slot_at. by rewrite slot_in_default, Hm.
Qed.

(** [disconnect_modules] on a slot that holds nothing. *)
Lemma disconnect_idle s mp oi md :
  modules s !! mp = Some md → (0 ≤ oi)%Z →
  slot_at Ogates s mp (Z.to_nat oi) = None →
  ∃ r, disconnect_modules mp oi s = Some (r, s).
Proof.
  intros Hm Hoi Hslot. unfold disconnect_modules.
  rewrite (bind_eq _ _ _ _ _ (get_module_eq _ _ _ Hm)).
  destruct (num_ogates (m_mclass md) <=? oi)%Z; [by eexists|].
  pose proof (slot_at_active s Ogates mp md oi Hm Hoi) as Hact.
  cbn [get_gates] in Hact. rewrite Hact, Hslot.
  rewrite bool_decide_eq_false_2 by (by intros [? ?]). by eexists.
Qed.

(** [disconnect_modules] on any slot of a module of a consistent graph. *)
Lemma disconnect_any s mp oi :
  consistent s → is_Some (modules s !! mp) → (0 ≤ oi)%Z →
  ∃ r s',
    disconnect_modules mp oi s = Some (r, s') ∧
    consistent s' ∧ shrinks s s' ∧ trace s' = trace s ∧
    slot_at Ogates s' mp (Z.to_nat oi) = None.
Proof.
  intros Hc [md Hm] Hoi.
  destruct (slot_at Ogates s mp (Z.to_nat oi)) as [o|] eqn:Hslot.
  - destruct (disconnect_active s mp (Z.to_nat oi) o oi Hc Hslot)
      as (og & i & ig & mn & s' & Ho & Hout & Hi & Hmn & Hrun & -> & Hc'
          & Hcut & Htr); [lia|].
    exists 0%Z. eexists. split; [done|]. split; [done|].
    split; [apply Hcut|]. split; [done|].
    unfold slot_at, disconnected. cbn [modules].
    by rewrite slot_in_disconnected, decide_True.
  - destruct (disconnect_idle s mp oi md Hm Hoi Hslot) as [r Hrun].
    exists r, s. split; [done|]. split; [done|].
    split; [apply shrinks_refl|done].
Qed.

Lemma disconnect_call_shrinks s s' x :
  shrinks s s' → is_Some (gmem s' !! x) → disconnect_call s' x = disconnect_call s x.
Proof.
  intros (_ & _ & _ & _ & _ & Hg) [g' Hx]. unfold disconnect_call.
  destruct (Hg x g' Hx) as (g0 & -> & Hsame). rewrite Hx, Hsame.
  by destruct g0.
Qed.

(** The gates on the upstream list of an input gate in a slot are live. *)
Lemma upstream_live s m k i ig x :
  consistent s → slot_at Igates s m k = Some i → gmem s !! i = Some ig →
  x ∈ in_ogates_upstream ig → upstream_ok s i k x.
Proof.
  intros Hc Hs Hi Hx. pose proof (consistent_igate s m k i Hc Hs) as Hok.
  unfold igate_ok in Hok. rewrite Hi in Hok.
  destruct Hok as (_ & _ & _ & _ & _ & Hall).
  by eapply Forall_forall in Hall.
Qed.

Lemma upstream_calls_shrinks s s' m k i ig :
  shrinks s s' → consistent s' → slot_at Igates s' m k = Some i →
  gmem s' !! i = Some ig →
  omap (disconnect_call s') (in_ogates_upstream ig)
  = omap (disconnect_call s) (in_ogates_upstream ig).
Proof.
  intros Hsh Hc Hs Hi.
  assert (Forall (λ x, is_Some (gmem s' !! x)) (in_ogates_upstream ig)) as Hlive.
  { apply Forall_forall. intros x Hx.
    pose proof (upstream_live s' m k i ig x Hc Hs Hi Hx) as Hok.
    unfold upstream_ok in Hok. by destruct (gmem s' !! x). }
  induction Hlive as [|x l Hx Hlive IH]; [done|]. cbn.
  by rewrite (disconnect_call_shrinks s s' x Hsh Hx), IH.
Qed.

(** The walk of [destroy_module] over the upstream list of the input gate
    [i] in slot [k] of [m]: every gate on the list is disconnected, in list
    order, and the slot is empty in the end. *)
Lemma upstream_walk m k i l :
  ∀ s ig,
    consistent s → slot_at Igates s m k = Some i → gmem s !! i = Some ig →
    in_ogates_upstream ig = l →
    ∃ s',
      for_each l walk_body s = Some (tt, s') ∧
      consistent s' ∧ cuts i s s' ∧ slot_at Igates s' m k = None ∧
      trace s' = trace s ++ omap (disconnect_call s) l.
Proof.
  induction l as [|o l IH]; intros s ig Hc Hs Hi Hl.
  { pose proof (consistent_igate s m k i Hc Hs) as Hok.
    unfold igate_ok in Hok. rewrite Hi in Hok. by destruct Hok as (_ & _ & _ & ? & _). }
  pose proof (consistent_igate s m k i Hc Hs) as Hok.
  unfold igate_ok in Hok. rewrite Hi in Hok.
  destruct Hok as (Hgm & Hgi & Hnone & _ & Hnd & _).
  assert (upstream_ok s i k o) as Hup
    by (eapply upstream_live; [done..|rewrite Hl; left]).
  unfold upstream_ok in Hup.
  destruct (gmem s !! o) as [og|] eqn:Ho; [|done].
  destruct Hup as (Hout & Hoidx & Hpos & Hup).
  destruct (g_m og) as [mo|] eqn:Hmo; [|done].
  set (e := EvDisconnect mo (gate_idx og)).
  set (se := set_trace (λ tr, tr ++ [e]) s).
  destruct (disconnect_active se mo (Z.to_nat (gate_idx og)) o (gate_idx og))
    as (og' & i' & ig' & mn & s1 & Ho' & Hout' & Hi' & Hmn & Hrun & Hs1 & Hc1
        & Hcut1 & Htr1); [by apply consistent_set_trace|done|lia|].
  cbn [se gmem set_trace] in Ho', Hi'.
  assert (og' = og) as -> by congruence.
  assert (i' = i) as -> by congruence.
  assert (ig' = ig) as -> by congruence.
  assert (mn = m) as -> by congruence.
  destruct (step_head se mo (Z.to_nat (gate_idx og)) o i og ig m
              (consistent_set_trace _ s Hc) Hup Ho Hout Hi Hgm l Hl Hnd)
    as (_ & Hhead).
  rewrite <- Hs1 in Hhead. rewrite Hoidx, Nat2Z.id in Hhead.
  assert (disconnect_call s o = Some e) as Hcall
    by (unfold disconnect_call; by rewrite Ho, Hmo).
  assert (for_each (o :: l) walk_body s = for_each l walk_body s1) as ->.
  { cbn [for_each].
    rewrite (bind_eq _ _ s tt s1); [done|]. unfold walk_body.
    rewrite (bind_eq _ _ _ _ _ (get_gate_eq _ _ _ Ho)). rewrite Hmo.
    unfold deref. rewrite (bind_eq _ _ s mo s) by done.
    rewrite (bind_eq _ _ s tt se) by done.
    by rewrite (bind_eq _ _ _ _ _ Hrun). }
  assert (cuts i s s1) as Hcut1' by exact Hcut1.
  assert (trace s1 = trace s ++ [e]) as Htr1' by (by rewrite Htr1).
  cbn [omap list_omap]. rewrite Hcall.
  destruct l as [|x l'].
  - destruct Hhead as (_ & Hk). exists s1. split; [done|].
    split; [done|]. split; [done|]. split; [done|]. by rewrite Htr1'.
  - destruct Hhead as (Hi1 & Hk).
    destruct (IH s1 (set_upstream ig (x :: l')) Hc1 Hk Hi1 eq_refl)
      as (s' & Hrun' & Hc' & Hcut' & Hk' & Htr').
    exists s'. split; [done|]. split; [done|].
    split; [by eapply cuts_trans|]. split; [done|].
    rewrite Htr', Htr1', <- app_assoc. cbn [app]. do 2 f_equal.
    apply (upstream_calls_shrinks s s1 m k i (set_upstream ig (x :: l')));
      [apply Hcut1'|done..].
Qed.

Lemma upstream_calls_cons s x a :
  upstream_calls s (x :: a) =
  match x with
  | Some i =>
      match gmem s !! i with
      | Some ig => omap (disconnect_call s) (in_ogates_upstream ig)
      | None => []
      end
  | None => []
  end ++ upstream_calls s a.
Proof. done. Qed.

Lemma slot_at_lookup sd s m md k :
  modules s !! m = Some md →
  slot_at sd s m k = default None (arr (get_gates sd md) !! k).
Proof. intros Hm. unfold slot_at. by rewrite slot_in_default, Hm. Qed.

(** One round of the first loop of [destroy_module], at slot [k]. *)
Lemma igate_body_run s m md k sk x :
  modules s !! m = Some md →
  arr (igates md) !! k = Some x →
  consistent sk → shrinks s sk →
  (∀ j i', k ≤ j → slot_at Igates s m j = Some i' →
     slot_at Igates sk m j = Some i' ∧ gmem sk !! i' = gmem s !! i') →
  (∀ j, j < k → slot_at Igates sk m j = None) →
  ∃ s1,
    igate_body m (Z.of_nat k) sk = Some (tt, s1) ∧
    consistent s1 ∧ shrinks s s1 ∧
    (∀ j i', S k ≤ j → slot_at Igates s m j = Some i' →
       slot_at Igates s1 m j = Some i' ∧ gmem s1 !! i' = gmem s !! i') ∧
    (∀ j, j < S k → slot_at Igates s1 m j = None) ∧
    trace s1 = trace sk ++ upstream_calls s [x].
Proof.
  intros Hm Hx Hc Hsh Hrest Hdone.
  pose proof Hsh as (_ & _ & _ & Hmods & Hslots & _). specialize (Hmods m).
  rewrite Hm in Hmods. destruct (modules sk !! m) as [mdk|] eqn:Hmk; [|done].
  destruct Hmods as (_ & _ & _ & _ & Hli).
  pose proof (slot_at_lookup Igates s m md k Hm) as Hsk0.
  cbn [get_gates] in Hsk0. rewrite Hx in Hsk0. cbn in Hsk0.
  unfold igate_body.
  rewrite (bind_eq _ _ _ _ _ (get_module_eq _ _ _ Hmk)).
  pose proof (slot_at_active sk Igates m mdk (Z.of_nat k) Hmk) as Hact.
  cbn [get_gates] in Hact. rewrite Hact by lia. rewrite Nat2Z.id.
  rewrite upstream_calls_cons. unfold upstream_calls. cbn [mbind list_bind].
  rewrite app_nil_r.
  destruct (slot_at Igates sk m k) as [i|] eqn:Hk.
  - rewrite bool_decide_eq_true_2 by done. cbn [negb].
    pose proof Hk as (mdk' & Hmk' & Harr)%slot_at_Some.
    assert (mdk' = mdk) as -> by congruence. cbn [get_gates] in Harr.
    pose proof (consistent_igate sk m k i Hc Hk) as Hok.
    unfold igate_ok in Hok.
    destruct (gmem sk !! i) as [ig|] eqn:Hi; [|done].
    destruct Hok as (_ & _ & Hnone & _).
    destruct (upstream_walk m k i _ sk ig Hc Hk Hi eq_refl)
      as (s1 & Hwalk & Hc1 & Hcut & Hk1 & Htr1).
    assert (slot_at Igates s m k = Some i) as Hks.
    { destruct (Hslots Igates m k) as [Hn|Heq]; congruence. }
    assert (x = Some i) as -> by congruence.
    destruct (Hrest k i) as (_ & Hgi); [lia|done|].
    rewrite <- Hgi, Hi.
    exists s1. split.
    { unfold read_slot. destruct (Z.leb_spec 0 (Z.of_nat k)); [|lia].
      rewrite Nat2Z.id, Harr. unfold deref at 1.
      rewrite (bind_eq _ _ sk (Some i) sk) by done.
      unfold deref. rewrite (bind_eq _ _ sk i sk) by done.
      by rewrite (bind_eq _ _ _ _ _ (get_gate_eq _ _ _ Hi)). }
    split; [done|]. split; [eapply shrinks_trans; [done|apply Hcut]|].
    split; [|split].
    + intros j i' Hj Hji.
      destruct (Hrest j i') as (Hjk & Hgj); [lia|done|].
      assert (i' ≠ i) as Hne.
      { intros ->.
        pose proof (consistent_igate sk m j i Hc Hjk) as Hok.
        pose proof (consistent_igate sk m k i Hc Hk) as Hok'.
        unfold igate_ok in Hok, Hok'. rewrite Hi in Hok, Hok'.
        destruct Hok as (_ & ? & _), Hok' as (_ & ? & _). lia. }
      destruct Hcut as (_ & Hd & He).
      split; [by apply Hd|].
      pose proof (consistent_igate sk m j i' Hc Hjk) as Hok.
      unfold igate_ok in Hok.
      destruct (gmem sk !! i') as [ig'|] eqn:Hi'; [|done].
      destruct Hok as (_ & _ & Hnone' & _).
      rewrite <- Hgj. by apply He.
    + intros j Hj. destruct (decide (j = k)) as [->|?]; [done|].
      destruct Hcut as ((_ & _ & _ & _ & Hsl & _) & _).
      destruct (Hsl Igates m j) as [?|Heq]; [done|].
      rewrite Heq. apply Hdone. lia.
    + rewrite Htr1. f_equal.
      by apply (upstream_calls_shrinks s sk m k i ig).
  - rewrite bool_decide_eq_false_2 by (by intros [? ?]). cbn [negb].
    exists sk. split; [done|]. split; [done|]. split; [done|].
    split; [intros j i' Hj; apply Hrest; lia|].
    split.
    + intros j Hj. destruct (decide (j = k)) as [->|?]; [done|].
      apply Hdone. lia.
    + destruct x as [i|]; [|by rewrite app_nil_r].
      destruct (Hrest k i) as (Hki & _); [lia|done|]. congruence.
Qed.

(** The first loop of [destroy_module], from slot [k] on. *)
Lemma upstream_loop s m md :
  modules s !! m = Some md →
  ∀ len k sk,
    k + len = length (arr (igates md)) →
    consistent sk → shrinks s sk →
    (∀ j i', k ≤ j → slot_at Igates s m j = Some i' →
       slot_at Igates sk m j = Some i' ∧ gmem sk !! i' = gmem s !! i') →
    (∀ j, j < k → slot_at Igates sk m j = None) →
    ∃ s',
      for_each (Z.of_nat <$> seq k len) (igate_body m) sk = Some (tt, s') ∧
      consistent s' ∧ shrinks s s' ∧
      (∀ j, slot_at Igates s' m j = None) ∧
      trace s' = trace sk ++ upstream_calls s (drop k (arr (igates md))).
Proof.
  intros Hm len. induction len as [|len IH]; intros k sk Hlen Hc Hsh Hrest Hdone.
  - exists sk. split; [done|]. split; [done|]. split; [done|]. split.
    + intros j. destruct (decide (j < k)) as [?|Hge]; [by apply Hdone|].
      destruct Hsh as (_ & _ & _ & Hmods & _). specialize (Hmods m).
      rewrite Hm in Hmods. destruct (modules sk !! m) as [mdk|] eqn:Hmk; [|done].
      destruct Hmods as (_ & _ & _ & _ & Hli).
      rewrite (slot_at_lookup Igates sk m mdk j Hmk). cbn [get_gates].
      rewrite lookup_ge_None_2 by lia. done.
    + rewrite drop_ge by lia. by rewrite app_nil_r.
  - destruct (arr (igates md) !! k) as [x|] eqn:Hx;
      [|apply lookup_ge_None in Hx; lia].
    destruct (igate_body_run s m md k sk x Hm Hx Hc Hsh Hrest Hdone)
      as (s1 & Hbody & Hc1 & Hsh1 & Hrest1 & Hdone1 & Htr1).
    destruct (IH (S k) s1) as (s' & Hloop & Hc' & Hsh' & Hnone & Htr');
      [lia|done..|].
    exists s'. cbn [seq fmap list_fmap for_each].
    rewrite (bind_eq _ _ _ _ _ Hbody). split; [done|].
    split; [done|]. split; [done|]. split; [done|].
    rewrite Htr', Htr1, (drop_S _ _ _ Hx), <- app_assoc. f_equal.
    unfold upstream_calls. cbn [mbind list_bind]. by rewrite app_nil_r.
Qed.

(** The second loop of [destroy_module], from slot [k] on. *)
Lemma downstream_loop m :
  ∀ len k sk,
    consistent sk → is_Some (modules sk !! m) →
    (∀ j, j < k → slot_at Ogates sk m j = None) →
    ∃ s',
      for_each (Z.of_nat <$> seq k len) (ogate_body m) sk = Some (tt, s') ∧
      consistent s' ∧ shrinks sk s' ∧
      (∀ j, j < k + len → slot_at Ogates s' m j = None) ∧
      trace s' = trace sk ++ (EvDisconnect m <$> (Z.of_nat <$> seq k len)).
Proof.
  induction len as [|len IH]; intros k sk Hc Hm Hdone.
  - exists sk. split; [done|]. split; [done|]. split; [apply shrinks_refl|].
    split; [intros j Hj; apply Hdone; lia|]. by rewrite app_nil_r.
  - set (e := EvDisconnect m (Z.of_nat k)).
    set (se := set_trace (λ tr, tr ++ [e]) sk).
    destruct (disconnect_any se m (Z.of_nat k))
      as (r & s1 & Hrun & Hc1 & Hsh1 & Htr1 & Hk1);
      [by apply consistent_set_trace|done|lia|].
    assert (shrinks sk s1) as Hsh1' by exact Hsh1.
    rewrite Nat2Z.id in Hk1.
    assert (is_Some (modules s1 !! m)) as Hm1.
    { destruct Hsh1' as (_ & _ & _ & Hmods & _). specialize (Hmods m).
      destruct Hm as [md Hm]. rewrite Hm in Hmods.
      by destruct (modules s1 !! m). }
    destruct (IH (S k) s1 Hc1 Hm1) as (s' & Hloop & Hc' & Hsh' & Hnone & Htr').
    { intros j Hj. destruct (decide (j = k)) as [->|?]; [done|].
      destruct Hsh1' as (_ & _ & _ & _ & Hsl & _).
      destruct (Hsl Ogates m j) as [?|Heq]; [done|].
      rewrite Heq. apply Hdone. lia. }
    exists s'. cbn [seq fmap list_fmap for_each].
    rewrite (bind_eq _ _ sk tt s1).
    2: { unfold ogate_body. rewrite (bind_eq _ _ sk tt se) by done.
         by rewrite (bind_eq _ _ _ _ _ Hrun). }
    split; [done|]. split; [done|]. split; [by eapply shrinks_trans|].
    split; [intros j Hj; apply Hnone; lia|].
    rewrite Htr', Htr1. cbn [se trace set_trace]. by rewrite <- app_assoc.
Qed.

(** Taking a module without active gates away leaves a consistent graph. *)
Lemma consistent_delete s m t n a tr :
  consistent s →
  (∀ j, slot_at Igates s m j = None) → (∀ j, slot_at Ogates s m j = None) →
  consistent (State (delete m (modules s)) (gmem s) t n a tr).
Proof.
  intros Hc Hin Hon m' md' Hm'. cbn [modules] in Hm'.
  apply lookup_delete_Some in Hm' as [Hne Hm'].
  assert (∀ sd mx j g, slot_at sd s mx j = Some g →
            slot_at sd (State (delete m (modules s)) (gmem s) t n a tr) mx j
            = Some g) as Hkeep.
  { intros sd mx j g Hg. unfold slot_at, slot_in in *. cbn [modules].
    rewrite lookup_delete_ne; [done|].
    intros <-. destruct sd; [by rewrite (Hin j) in Hg|by rewrite (Hon j) in Hg]. }
  destruct (Hc m' md' Hm') as (Ho & Hi & Hbo & Hbi).
  split; [|split; [|done]].
  - intros idx o Hidx. specialize (Ho idx o Hidx).
    unfold ogate_ok in *. cbn [gmem].
    destruct (gmem s !! o) as [og|]; [|done].
    destruct Ho as (? & ? & ? & ? & Ho). do 4 (split; [done|]).
    destruct (out_igate og) as [i|]; [|done].
    destruct (gmem s !! i) as [ig|]; [|done].
    destruct Ho as (? & ? & Ho). do 2 (split; [done|]).
    destruct (g_m ig) as [mn|]; [|done]. by apply Hkeep.
  - intros idx i Hidx. specialize (Hi idx i Hidx).
    unfold igate_ok in *. cbn [gmem].
    destruct (gmem s !! i) as [ig|]; [|done].
    destruct Hi as (? & ? & ? & ? & ? & Hall). do 5 (split; [done|]).
    eapply Forall_impl; [exact Hall|]. intros x Hx.
    unfold upstream_ok in *. cbn [gmem].
    destruct (gmem s !! x) as [og|]; [|done].
    destruct Hx as (? & ? & ? & Hx). do 3 (split; [done|]).
    destruct (g_m og) as [mo|]; [|done]. by apply Hkeep.
Qed.

Lemma destroy_module_eq m :
  destroy_module m =
  (let! md := get_module m in
   let! _ := if deinit (m_mclass md) then emit (EvDeinit m) else ret tt in
   let! _ := for_each (upto (curr_size (igates md))) (igate_body m) in
   let! md := get_module m in
   let! _ := for_each (upto (curr_size (ogates md))) (ogate_body m) in
   let! _ := destroy_all_tasks m in
   let! md := get_module m in
   let! nm := deref (m_name md) in
   let! _ := emit (EvNsRemove nm) in
   let! _ := ns_remove nm in
   let! _ := emit (EvFree m) in
   modify (set_modules (delete m))).
Proof. reflexivity. Qed.

(** C3: in a consistent graph whose task slots are sound, [destroy_module(m)]
    returns; what it does, in order, is [destroy_trace]: the deinit hook if
    the class has one, a disconnection for every gate on the upstream list
    of every active input gate of [m], a disconnection for every output slot
    of [m], the destruction of every task of [m], the removal of the name,
    the release of the instance.  Afterwards [find_module] of the name gives
    NULL, [m] is gone, every active output gate of a remaining module is
    live, calls another module than [m] and references an input gate that
    was not one of [m], and the graph is consistent. *)
Theorem destroy_module_spec s m md nm :
  consistent s → tasks_ok s →
  modules s !! m = Some md → m_name md = Some nm →
  ∃ s',
    destroy_module m s = Some (tt, s') ∧
    trace s' = trace s ++ destroy_trace s m md nm ∧
    find_module nm s' = Some (None, s') ∧
    modules s' !! m = None ∧
    (∀ m' k o, slot_at Ogates s' m' k = Some o →
       ∃ og i, gmem s' !! o = Some og ∧ out_igate og = Some i ∧
               g_arg og ≠ Some m ∧ ∀ j, slot_at Igates s m j ≠ Some i) ∧
    consistent s'.
Proof.
  intros Hc Ht Hm Hnm.
  destruct (Ht m md Hm) as (Hlen & Hnd & Hlive & _).
  rewrite destroy_module_eq.
  rewrite (bind_eq _ _ _ _ _ (get_module_eq _ _ _ Hm)).
  set (sd := if deinit (m_mclass md)
             then set_trace (λ tr, tr ++ [EvDeinit m]) s else s).
  assert (consistent sd ∧ shrinks s sd ∧
          trace sd = trace s ++ (if deinit (m_mclass md) then [EvDeinit m] else []))
    as (Hcd & Hshd & Htrd).
  { unfold sd. destruct (deinit (m_mclass md)).
    - split; [by apply consistent_set_trace|]. split; [|done].
      exact (shrinks_refl s).
    - split; [done|]. split; [apply shrinks_refl|by rewrite app_nil_r]. }
  rewrite (bind_eq _ _ s tt sd) by (unfold sd; by destruct (deinit (m_mclass md))).
  (* upstream *)
  destruct (upstream_loop s m md Hm (length (arr (igates md))) 0 sd)
    as (sa & Hloop1 & Hca & Hsha & Hina & Htra); [done..| |lia|].
  { intros j i' _ Hj. split; [|by destruct (deinit (m_mclass md))].
    unfold sd. by destruct (deinit (m_mclass md)). }
  unfold upto, curr_size at 1. rewrite Nat2Z.id.
  rewrite (bind_eq _ _ _ _ _ Hloop1). rewrite drop_0 in Htra.
  (* downstream *)
  pose proof Hsha as (_ & _ & _ & Hmodsa & _). specialize (Hmodsa m).
  rewrite Hm in Hmodsa. destruct (modules sa !! m) as [mda|] eqn:Hma; [|done].
  destruct Hmodsa as (_ & _ & _ & Hloa & _).
  rewrite (bind_eq _ _ _ _ _ (get_module_eq _ _ _ Hma)).
  destruct (downstream_loop m (length (arr (ogates md))) 0 sa Hca)
    as (s2 & Hloop2 & Hc2 & Hsh2 & Hon2 & Htr2); [done|lia|].
  unfold curr_size at 1. rewrite Nat2Z.id, Hloa.
  rewrite (bind_eq _ _ _ _ _ Hloop2).
  assert (shrinks s s2) as Hsh by (by eapply shrinks_trans).
  pose proof Hsh as (Htm2 & Hns2 & _ & Hmods2 & Hsl2 & Hg2).
  pose proof (Hmods2 m) as Hmod2.
  rewrite Hm in Hmod2. destruct (modules s2 !! m) as [md2|] eqn:Hm2; [|done].
  destruct Hmod2 as (_ & Htasks2 & Hname2 & Hlo2 & Hli2).
  assert (∀ j, slot_at Igates s2 m j = None) as Hin2.
  { intros j. destruct Hsh2 as (_ & _ & _ & _ & Hsl & _).
    destruct (Hsl Igates m j) as [?|Heq]; [done|]. by rewrite Heq. }
  assert (∀ j, slot_at Ogates s2 m j = None) as Hon2'.
  { intros j. destruct (decide (j < length (arr (ogates md)))) as [?|?];
      [apply Hon2; lia|].
    rewrite (slot_at_lookup Ogates s2 m md2 j Hm2). cbn [get_gates].
    by rewrite lookup_ge_None_2 by lia. }
  (* tasks *)
  assert (Forall (λ t, is_Some (tmem s2 !! t)) (omap Datatypes.id (tasks md2)))
    as Hlive2.
  { rewrite Htasks2, Htm2. eapply Forall_impl; [exact Hlive|].
    intros t Ht'. cbn in Ht'. by destruct (tmem s !! t). }
  rewrite <- Htasks2 in Hlen, Hnd.
  rewrite (bind_eq _ _ _ _ _ (destroy_all_tasks_run s2 m md2 Hm2 Hlen Hnd Hlive2)).
  unfold tasks_destroyed at 1.
  rewrite (bind_eq _ _ _ _ _ (get_module_eq _ _ _ (lookup_insert_eq _ _ _))).
  cbn [m_name set_tasks]. rewrite Hname2, Hnm.
  unfold ns_remove. mred.
  eexists. split; [reflexivity|].
  unfold set_modules, set_trace, set_ns.
  cbn [modules gmem tmem ns alloc_plan trace].
  rewrite delete_insert_eq.
  split; [|split; [|split; [|split]]].
  - unfold destroy_trace. rewrite Htr2, Htra, Htrd, Htasks2.
    rewrite <- Hlen, Htasks2, firstn_all. unfold upto, curr_size.
    rewrite Nat2Z.id.
    by rewrite <- !app_assoc.
  - unfold find_module. mred. by rewrite lookup_delete_eq.
  - by rewrite lookup_delete_eq.
  - intros m' k o Hslot. unfold slot_at, slot_in in Hslot. cbn [modules] in Hslot.
    destruct (decide (m' = m)) as [->|Hne].
    { rewrite lookup_delete_eq in Hslot. done. }
    rewrite lookup_delete_ne in Hslot by done.
    destruct (consistent_link s2 m' k o Hc2 Hslot)
      as (md' & og & i & ig & mn & Hm' & Ho & Hout & Hi & _ & _ & _ & _ & _
          & Harg & Hmn & Hislot & _).
    exists og, i. split; [done|]. split; [done|].
    assert (mn ≠ m) as Hmnm by (intros ->; by rewrite Hin2 in Hislot).
    split; [congruence|].
    intros j Hj.
    pose proof (consistent_igate s m j i Hc Hj) as Hok.
    unfold igate_ok in Hok.
    destruct (Hg2 i ig Hi) as (g0 & Hi0 & Hsame). rewrite Hi0 in Hok.
    destruct Hok as (Hgm0 & _). rewrite Hsame in Hmn. cbn in Hmn. congruence.
  - by apply consistent_delete.
Qed.

End teardown.

(** C3 at work on [Demo.wired]: module 1, fed by modules 0 and 2 and
    feeding module 2, is destroyed. *)
Lemma destroy_module_spec_witness :
  consistent (H := bess_limits) Demo.wired ∧
  tasks_ok (H := bess_limits) Demo.wired ∧
  modules Demo.wired !! 1 = Some (Demo.module_of Demo.wired 1) ∧
  m_name (Demo.module_of Demo.wired 1) = Some "my_ipchecksum1"%string ∧
  ∃ s',
    destroy_module (H := bess_limits) 1 Demo.wired = Some (tt, s') ∧
    trace s' = trace Demo.wired ++
      destroy_trace Demo.wired 1 (Demo.module_of Demo.wired 1) "my_ipchecksum1" ∧
    find_module "my_ipchecksum1" s' = Some (None, s') ∧
    modules s' !! 1 = None ∧
    (∀ m' k o, slot_at Ogates s' m' k = Some o →
       ∃ og i, gmem s' !! o = Some og ∧ out_igate og = Some i ∧
               g_arg og ≠ Some 1 ∧ ∀ j, slot_at Igates Demo.wired 1 j ≠ Some i) ∧
    consistent (H := bess_limits) s'.
Proof.
  assert (consistent (H := bess_limits) Demo.wired) as Hc
    by (apply (bool_decide_unpack _); vm_compute; exact I).
  assert (tasks_ok (H := bess_limits) Demo.wired) as Ht
    by (apply (bool_decide_unpack _); vm_compute; exact I).
  assert (modules Demo.wired !! 1 = Some (Demo.module_of Demo.wired 1)) as Hm
    by (vm_compute; reflexivity).
  assert (m_name (Demo.module_of Demo.wired 1) = Some "my_ipchecksum1"%string)
    as Hnm by (vm_compute; reflexivity).
  do 4 (split; [assumption|]).
  exact (destroy_module_spec (H := bess_limits) Demo.wired 1 _ _ Hc Ht Hm Hnm).
Defined.

(** The calls of that run, in order. *)
Example destroy_module_run :
  trace (Demo.after (destroy_module (H := bess_limits) 1) Demo.wired)
  = [EvDeinit 1; EvDisconnect 0 0; EvDisconnect 2 1; EvDisconnect 1 0;
     EvTaskDestroy 0; EvNsRemove "my_ipchecksum1"; EvFree 1].
Proof. vm_compute. reflexivity. Qed.

(** ** Creation that succeeds *)

Section created.
Context `{Limits}.

Lemma instance_of_rename mc nmo s m md nm :
  instance_of mc nmo s m → modules s !! m = Some md →
  instance_of mc nm (set_modules <[m := set_name md nm]> s) m.
Proof.
  intros (md0 & Hm & Hmc & _ & Hi & Ho & Hown) Hmd.
  assert (md0 = md) as -> by congruence.
  exists (set_name md nm). cbn. by rewrite lookup_insert_eq.
Qed.

Lemma probe_names_instance fuel m base i mc nmo s s' :
  instance_of mc nmo s m → probe_names fuel m base i s = Some (tt, s') →
  ∃ k : Z, instance_of mc (Some (base +:+ pretty k)) s' m.
Proof.
  revert i nmo s. induction fuel as [|fuel IH]; intros i nmo s Hin; [done|].
  cbn [probe_names]. destruct (INT_MAX <? i)%Z; [done|].
  destruct (String.length (base +:+ pretty i) <? MODULE_NAME_LEN); [|done].
  intros Hrun.
  apply bind_Some in Hrun as (md & s1 & H1 & Hrun).
  unfold get_module in H1. destruct (modules s !! m) as [md'|] eqn:Hm; [|done].
  mred in H1. simplify_eq.
  apply bind_Some in Hrun as (nm & s2 & H2 & Hrun).
  destruct (m_name md); [|done]. mred in H2. simplify_eq.
  rewrite (bind_eq _ _ _ _ _ (put_module_eq _ _ _ _ Hm)) in Hrun.
  unfold find_module in Hrun. mred in Hrun.
  destruct (ns s2 !! (base +:+ pretty i)).
  - eapply IH; [|exact Hrun]. by eapply instance_of_rename.
  - simplify_eq. exists i. by eapply instance_of_rename.
Qed.

Lemma set_default_name_instance m mc nmo s s' :
  instance_of mc nmo s m → set_default_name m s = Some (tt, s') →
  ∃ k : Z, instance_of mc (Some (default_name_base mc +:+ pretty k)) s' m.
Proof.
  intros Hin Hrun. unfold set_default_name in Hrun.
  apply bind_Some in Hrun as (md & s1 & H1 & Hrun).
  unfold get_module in H1. destruct (modules s !! m) as [md'|] eqn:Hm; [|done].
  mred in H1. simplify_eq.
  destruct Hin as (md0 & Hm0 & Hmc & Hin). assert (md0 = md) as -> by congruence.
  apply bind_Some in Hrun as (base & sb & H2 & Hrun).
  apply default_fmt_Some in H2 as (-> & -> & _).
  rewrite Hmc in Hrun.
  destruct (has_percent _); [done|]. mred in Hrun.
  eapply probe_names_instance; [|exact Hrun]. by exists md.
Qed.

Lemma register_task_instance m a mc nmo s0 s r s' :
  half_built s0 s m → instance_of mc nmo s m →
  register_task m a s = Some (r, s') → instance_of mc nmo s' m.
Proof.
  intros (md & Hm & _ & _ & Hlen & _ & Hlive & _) (md0 & Hm0 & Hmc & Hnm & Hi & Ho & Hown)
    Hrun.
  assert (md0 = md) as -> by congruence.
  destruct (register_task_run s m a md Hm Hlen) as (r' & s'' & Hrun' & Hfail & Hsucc).
  rewrite Hrun in Hrun'. injection Hrun' as <- <-.
  destruct (decide (run_task (m_mclass md) = None ∨
                    Forall (λ slot, slot ≠ None) (tasks md) ∨
                    next_alloc_ok s = false)) as [Hf|Hok].
  - destruct (Hfail Hf) as (_ & Hmods & Htm).
    exists md. by rewrite Hmods, Htm.
  - destruct (Hsucc) as (id & t & [Hid _] & _ & Hnew & Htm & Hmods & _).
    { intros ?. apply Hok. by left. }
    { intros ?. apply Hok. by right; left. }
    { destruct (next_alloc_ok s); [done|]. destruct Hok. by right; right. }
    exists (set_tasks md (<[id := Some t]> (tasks md))).
    rewrite Hmods, Htm, lookup_insert_eq. cbn [m_mclass m_name igates ogates tasks set_tasks].
    do 5 (split; [done|]).
    apply Forall_forall. intros x Hx.
    destruct (decide (x = t)) as [->|Hne].
    + rewrite lookup_insert_eq. by eexists.
    + rewrite lookup_insert_ne by done.
      rewrite Forall_forall in Hown. apply Hown.
      apply list_elem_of_omap in Hx as ([y|] & Hy & Heq); [|done].
      cbn in Heq. assert (y = x) as -> by congruence.
      apply list_elem_of_omap. exists (Some x). split; [|done].
      apply list_elem_of_lookup in Hy as [j Hj].
      destruct (decide (j = id)) as [->|Hji].
      * rewrite list_lookup_insert_eq in Hj by (by eapply lookup_lt_Some).
        congruence.
      * rewrite list_lookup_insert_ne in Hj by done.
        by eapply list_elem_of_lookup_2.
Qed.

Lemma register_loop_instance m l mc nmo s0 s s' :
  half_built s0 s m → instance_of mc nmo s m →
  for_each l (λ ta, let! _ := register_task m ta in ret tt) s = Some (tt, s') →
  half_built s0 s' m ∧ instance_of mc nmo s' m.
Proof.
  revert s. induction l as [|ta l IH]; intros s Hhb Hin; cbn [for_each].
  - mred. by intros [= <-].
  - intros Hrun. apply bind_Some in Hrun as (u & s1 & H1 & Hrun).
    apply bind_Some in H1 as (r & s2 & H2 & H1). mred in H1. simplify_eq.
    eapply IH; [| |exact Hrun].
    + by eapply half_built_register_task.
    + by eapply register_task_instance.
Qed.

Lemma length_substring_0 k (n : string) :
  String.length (String.substring 0 k n) = k `min` String.length n.
Proof.
  revert n. induction k as [|k IH]; intros [|c n]; cbn; try done.
  by rewrite IH.
Qed.

Lemma instance_of_fresh mc s :
  instance_of mc None
    (set_modules
       <[fresh (dom (modules s)) :=
           Module_ mc None (replicate MAX_TASKS_PER_MODULE None)
             (Gates []) (Gates [])]>
       (set_alloc_plan (tail (alloc_plan s)) s))
    (fresh (dom (modules s))).
Proof.
  eexists. cbn. split; [apply lookup_insert_eq|]. cbn.
  do 4 (split; [done|]). rewrite omap_replicate_None. constructor.
Qed.

Lemma instance_of_ext mc nmo s s' m :
  instance_of mc nmo s m → modules s' = modules s → tmem s' = tmem s →
  instance_of mc nmo s' m.
Proof. intros (md & Hin) Hm Ht. exists md. by rewrite Hm, Ht. Qed.

(** The path of [create_module] that returns the module: the state at the
    call of [register_module] is the state at entry plus the instance, and
    the registration binds its name, which was free. *)
Lemma create_module_created nm mc a s m perr s' :
  create_module nm mc a s = Some ((Some m, perr), s') →
  perr = None ∧
  (∀ n, nm = Some n → ns s !! n = None) ∧
  ∃ sk nm',
    half_built s sk m ∧ instance_of mc (Some nm') sk m ∧
    ns s !! nm' = None ∧ s' = set_ns <[nm' := m]> sk ∧
    match nm with
    | Some n => nm' = String.substring 0 (MODULE_NAME_LEN - 1) n
    | None => ∃ k : Z, nm' = default_name_base mc +:+ pretty k
    end.
Proof.
  unfold create_module. intros Hrun.
  apply bind_Some in Hrun as (dup & s1 & Hdup & Hrun).
  assert (s1 = s ∧ ∀ n, nm = Some n → dup = ns s !! n) as [-> Hdup'].
  { destruct nm; unfold find_module in Hdup; mred in Hdup; simplify_eq.
    - split; [done|]. by intros ? [= <-].
    - split; [done|]. by intros. }
  clear Hdup. destruct dup; [mred in Hrun; by simplify_eq|].
  pose proof (rte_zmalloc_module_run mc s) as Hz.
  destruct (next_alloc_ok s); rewrite (bind_eq _ _ _ _ _ Hz) in Hrun; clear Hz;
    [|mred in Hrun; by simplify_eq].
  pose proof (half_built_fresh mc s) as Hhb.
  pose proof (instance_of_fresh mc s) as Hin.
  set (m0 := fresh (dom (modules s))) in *.
  set (s1 := set_modules _ _) in *. clearbody s1 m0.
  assert (∀ s2 e, half_built s s2 m0 →
            create_fail m0 e s2 = Some ((Some m, perr), s') → False) as Hfail.
  { intros s2 e Hhb2 Hcf.
    destruct (create_fail_run s s2 m0 e Hhb2) as (s3 & Hcf' & _).
    rewrite Hcf in Hcf'. by simplify_eq. }
  apply bind_Some in Hrun as (got & s2 & Hname & Hrun).
  assert (half_built s s2 m0 ∧
          (got = true → instance_of mc (Some ""%string) s2 m0)) as [Hhb2 Hin2].
  { unfold rte_zmalloc_name in Hname.
    rewrite (bind_eq _ _ _ _ _ (rte_alloc_ok_run s1)) in Hname.
    destruct (next_alloc_ok s1).
    - apply bind_Some in Hname as (md & s3 & H3 & Hname).
      unfold get_module in H3. cbn in H3.
      destruct (modules s1 !! m0) as [md'|] eqn:Hm1; [|done]. mred in H3. simplify_eq.
      rewrite (bind_eq _ _ _ _ _
                 (put_module_eq (set_alloc_plan (tail (alloc_plan s1)) s1) _ _ _ Hm1))
        in Hname.
      mred in Hname. simplify_eq. split.
      + apply (half_built_rename s (set_alloc_plan (tail (alloc_plan s1)) s1));
          [by eapply half_built_ext|done].
      + intros _.
        apply (instance_of_rename mc None (set_alloc_plan (tail (alloc_plan s1)) s1));
          [by eapply instance_of_ext|done].
    - mred in Hname. simplify_eq. split; [by eapply half_built_ext|done]. }
  clear Hname Hhb Hin s1.
  destruct got; cbn [negb] in Hrun; [|exfalso; by eapply Hfail].
  specialize (Hin2 eq_refl).
  apply bind_Some in Hrun as (u & s3 & Hnaming & Hrun).
  assert (half_built s s3 m0 ∧
          ∃ nm', instance_of mc (Some nm') s3 m0 ∧
            match nm with
            | Some n => nm' = String.substring 0 (MODULE_NAME_LEN - 1) n
            | None => ∃ k : Z, nm' = default_name_base mc +:+ pretty k
            end) as (Hhb3 & nm' & Hin3 & Hnm').
  { destruct nm as [n|]; destruct u.
    - apply bind_Some in Hnaming as (md & s4 & H4 & Hnaming).
      unfold get_module in H4.
      destruct (modules s2 !! m0) as [md'|] eqn:Hm2; [|done]. mred in H4. simplify_eq.
      rewrite (put_module_eq _ _ _ _ Hm2) in Hnaming. simplify_eq.
      split; [by apply half_built_rename|].
      eexists. split; [by eapply instance_of_rename|done].
    - split; [by eapply set_default_name_half_built|].
      destruct (set_default_name_instance m0 mc _ s2 s3 Hin2 Hnaming) as [k Hk].
      eexists. split; [exact Hk|]. by exists k. }
  clear Hnaming Hhb2 Hin2 s2.
  apply bind_Some in Hrun as (err & s4 & Hinit & Hrun).
  assert (half_built s s4 m0 ∧ instance_of mc (Some nm') s4 m0) as [Hhb4 Hin4].
  { destruct (init mc) as [hook|]; [|mred in Hinit; by simplify_eq].
    apply bind_Some in Hinit as (u' & s5 & Hloop & Hinit). mred in Hinit.
    simplify_eq. destruct u'. by eapply register_loop_instance. }
  clear Hinit Hhb3 Hin3 s3.
  destruct err; [exfalso; by eapply Hfail|].
  apply bind_Some in Hrun as (r & s5 & Hreg & Hrun).
  unfold register_module, ns_insert in Hreg.
  destruct Hin4 as (md & Hmd & Hin4).
  rewrite (bind_eq _ _ _ _ _ (get_module_eq _ _ _ Hmd)) in Hreg.
  pose proof Hin4 as (_ & Hname & _). rewrite Hname in Hreg. mred in Hreg.
  pose proof Hhb4 as (_ & _ & _ & _ & _ & _ & _ & _ & _ & Hns4).
  destruct (ns s4 !! nm') eqn:Hfree; mred in Hreg.
  - destruct (Z.ltb_spec (- EEXIST) 0); simplify_eq; [|done].
    rewrite bool_decide_eq_true_2 in Hrun by done. exfalso. by eapply Hfail.
  - destruct (Z.ltb_spec 0 0); simplify_eq; [lia|].
    rewrite bool_decide_eq_false_2 in Hrun by (by intros ?). mred in Hrun.
    simplify_eq. split; [done|]. split.
    { intros n Hn. by rewrite <- (Hdup' n Hn). }
    exists s4, nm'. split; [done|]. split; [by exists md|].
    split; [by rewrite <- Hns4|]. done.
Qed.

Lemma half_built_modules s sk m md :
  half_built s sk m → modules sk !! m = Some md →
  modules sk = <[m := md]> (modules s).
Proof.
  intros (md' & Hm & _ & Hdel & _) Hmd. rewrite <- Hdel.
  by rewrite insert_delete_id.
Qed.

Lemma half_built_tmem s sk m t tk :
  half_built s sk m → tmem s !! t = Some tk → tmem sk !! t = Some tk.
Proof.
  intros (md & _ & _ & _ & _ & _ & _ & Hdall & _) Ht.
  rewrite <- Hdall, lookup_delete_all in Ht. by case_decide.
Qed.


Lemma consistent_ext s s' :
  modules s' = modules s → gmem s' = gmem s → consistent s → consistent s'.
Proof.
  destruct s, s'. cbn. intros -> -> Hc. exact Hc.
Qed.

Lemma create_module_sound nm mc a s r s' :
  (0 ≤ MAX_GATES)%Z →
  consistent s → tasks_ok s →
  create_module nm mc a s = Some (r, s') →
  consistent s' ∧ tasks_ok s'.
Proof.
  intros Hmax Hc Ht Hrun. destruct r as [[m|] perr].
  2: { destruct (create_module_null _ _ _ _ _ _ Hrun) as (Hm & Htm & Hg & _).
       split; [by eapply consistent_ext|by eapply tasks_ok_ext]. }
  destruct (create_module_created _ _ _ _ _ _ _ Hrun)
    as (-> & _ & sk & nm' & Hhb & (md & Hmd & Hmc & Hname & Hi & Ho & Hown) & Hfree
        & -> & Hnm).
  pose proof (half_built_modules s sk m md Hhb Hmd) as Hmods.
  pose proof Hhb as (md' & Hmd' & Hnew & _ & Hlen & Hnd & _ & _ & Hg & _).
  assert (md' = md) as -> by congruence.
  split.
  - intros m' md'. cbn [modules set_ns]. rewrite Hmods.
    destruct (decide (m' = m)) as [->|Hne].
    + rewrite lookup_insert_eq. intros [= <-].
      unfold module_gates_ok. rewrite Hi, Ho. cbn.
      split; [by intros ? ? ?|]. split; [by intros ? ? ?|].
      unfold curr_size. cbn. lia.
    + rewrite lookup_insert_ne by done. intros Hm'.
      assert (∀ sd mx j g, slot_at sd s mx j = Some g →
                slot_at sd (set_ns <[nm' := m]> sk) mx j = Some g) as Hkeep.
      { intros sd mx j g Hsl. unfold slot_at, slot_in in *.
        cbn [modules set_ns]. rewrite Hmods.
        rewrite lookup_insert_ne; [done|]. intros <-. by rewrite Hnew in Hsl. }
      destruct (Hc m' md' Hm') as (Hos & His & Hbo & Hbi).
      split; [|split; [|done]].
      * intros idx o Hidx. specialize (Hos idx o Hidx).
        unfold ogate_ok in *. cbn [gmem set_ns]. rewrite Hg.
        destruct (gmem s !! o) as [og|]; [|done].
        destruct Hos as (? & ? & ? & ? & Hos). do 4 (split; [done|]).
        destruct (out_igate og) as [i|]; [|done].
        destruct (gmem s !! i) as [ig|]; [|done].
        destruct Hos as (? & ? & Hos). do 2 (split; [done|]).
        destruct (g_m ig) as [mn|]; [|done]. by apply Hkeep.
      * intros idx i Hidx. specialize (His idx i Hidx).
        unfold igate_ok in *. cbn [gmem set_ns]. rewrite Hg.
        destruct (gmem s !! i) as [ig|]; [|done].
        destruct His as (? & ? & ? & ? & ? & Hall). do 5 (split; [done|]).
        eapply Forall_impl; [exact Hall|]. intros x Hx.
        unfold upstream_ok in *. cbn [gmem set_ns]. rewrite Hg.
        destruct (gmem s !! x) as [og|]; [|done].
        destruct Hx as (? & ? & ? & Hx). do 3 (split; [done|]).
        destruct (g_m og) as [mo|]; [|done]. by apply Hkeep.
  - intros m' md'. cbn [modules set_ns]. rewrite Hmods.
    unfold module_tasks_ok. cbn [tmem set_ns].
    destruct (decide (m' = m)) as [->|Hne].
    + rewrite lookup_insert_eq. intros [= <-].
      do 2 (split; [done|]). split; [|by rewrite Hname].
      eapply Forall_impl; [exact Hown|]. intros t (tk & -> & Htk). done.
    + rewrite lookup_insert_ne by done. intros Hm'.
      destruct (Ht m' md' Hm') as (? & ? & Hlive & ?).
      do 2 (split; [done|]). split; [|done].
      eapply Forall_impl; [exact Hlive|]. intros t Htk. cbn in Htk.
      destruct (tmem s !! t) as [tk|] eqn:Ht'; [|done].
      by rewrite (half_built_tmem s sk m t tk Hhb Ht').
Qed.

(** [create_module] keeps the invariants of the graph and of the task
    slots, whether it returns a module or NULL. *)
Theorem create_module_keeps_invariants nm mc a s r s' :
  (0 ≤ MAX_GATES)%Z →
  consistent s → tasks_ok s →
  create_module nm mc a s = Some (r, s') →
  consistent s' ∧ tasks_ok s'.
Proof. apply create_module_sound. Qed.

(** [destroy_module] undoes [create_module]: destroying the module just
    created returns, and gives back the modules, the tasks, the gates and
    the namespace of the state before the creation. *)
Theorem create_destroy_roundtrip nm mc a s m perr s' :
  create_module nm mc a s = Some ((Some m, perr), s') →
  ∃ s'',
    destroy_module m s' = Some (tt, s'') ∧
    modules s'' = modules s ∧ tmem s'' = tmem s ∧ gmem s'' = gmem s ∧
    ns s'' = ns s.
Proof.
  intros Hrun.
  destruct (create_module_created _ _ _ _ _ _ _ Hrun)
    as (_ & _ & sk & nm' & Hhb & (md & Hmd & Hmc & Hname & Hi & Ho & _) & Hfree
        & -> & _).
  pose proof Hhb as (md' & Hmd' & Hnew & Hdel & Hlen & Hnd & Hlive & Hdall & Hg & Hns).
  assert (md' = md) as -> by congruence.
  rewrite destroy_module_eq.
  rewrite (bind_eq _ _ _ _ _ (get_module_eq (set_ns <[nm' := m]> sk) m md Hmd)).
  set (sd := if deinit (m_mclass md)
             then set_trace (λ tr, tr ++ [EvDeinit m]) (set_ns <[nm' := m]> sk)
             else set_ns <[nm' := m]> sk).
  rewrite (bind_eq _ _ _ tt sd) by (unfold sd; by destruct (deinit (m_mclass md))).
  assert (modules sd = modules sk ∧ tmem sd = tmem sk ∧ gmem sd = gmem sk ∧
          ns sd = <[nm' := m]> (ns sk)) as (Hm1 & Ht1 & Hg1 & Hn1)
    by (unfold sd; by destruct (deinit (m_mclass md))).
  rewrite Hi. cbn [upto curr_size arr length Z.to_nat seq fmap list_fmap for_each].
  rewrite (bind_eq _ _ sd tt sd) by done.
  rewrite (bind_eq _ _ _ _ _ (get_module_eq sd m md ltac:(by rewrite Hm1))).
  rewrite Ho. cbn [upto curr_size arr length Z.to_nat seq fmap list_fmap for_each].
  rewrite (bind_eq _ _ sd tt sd) by done.
  rewrite (bind_eq _ _ _ _ _
             (destroy_all_tasks_run sd m md ltac:(by rewrite Hm1) Hlen Hnd
                ltac:(by rewrite Ht1))).
  unfold tasks_destroyed at 1.
  rewrite (bind_eq _ _ _ _ _ (get_module_eq _ _ _ (lookup_insert_eq _ _ _))).
  cbn [m_name set_tasks]. rewrite Hname. unfold ns_remove. mred.
  eexists. split; [reflexivity|].
  unfold set_modules, set_trace, set_ns.
  cbn [modules gmem tmem ns alloc_plan trace].
  rewrite Hm1, Ht1, Hg1, Hn1, delete_insert_eq, Hdel.
  rewrite <- Hlen, firstn_all, Hdall, delete_insert_eq, delete_id by (by rewrite Hns).
  done.
Qed.

(** A name of [MODULE_NAME_LEN] characters or more: the module is registered
    under the first [MODULE_NAME_LEN - 1] characters, and [find_module] of
    the name that was given returns NULL. *)
Theorem create_module_long_name n mc a s m perr s' :
  create_module (Some n) mc a s = Some ((Some m, perr), s') →
  0 < MODULE_NAME_LEN → MODULE_NAME_LEN ≤ String.length n →
  find_module (String.substring 0 (MODULE_NAME_LEN - 1) n) s' = Some (Some m, s') ∧
  find_module n s' = Some (None, s').
Proof.
  intros Hrun Hpos Hlong.
  destruct (create_module_created _ _ _ _ _ _ _ Hrun)
    as (_ & Hdup & sk & nm' & Hhb & _ & Hfree & -> & ->).
  pose proof Hhb as (_ & _ & _ & _ & _ & _ & _ & _ & _ & Hns).
  unfold find_module. mred. rewrite lookup_insert_eq. split; [done|].
  rewrite lookup_insert_ne.
  - by rewrite Hns, (Hdup n eq_refl).
  - intros Heq. apply (f_equal String.length) in Heq.
    rewrite length_substring_0 in Heq. lia.
Qed.

End created.


(** [create_module_keeps_invariants] on the same creation. *)
Lemma create_module_keeps_invariants_witness :
  (0 ≤ MAX_GATES (Limits := bess_limits))%Z ∧
  consistent (H := bess_limits) Demo.three_modules ∧
  tasks_ok (H := bess_limits) Demo.three_modules ∧
  create_module (H := bess_limits) (Some "fw"%string) (Demo.cls "Fw") 0
    Demo.three_modules
  = Some ((Some 3, None),
          Demo.after (create_module (H := bess_limits) (Some "fw"%string)
                        (Demo.cls "Fw") 0) Demo.three_modules) ∧
  consistent (H := bess_limits)
    (Demo.after (create_module (H := bess_limits) (Some "fw"%string)
                   (Demo.cls "Fw") 0) Demo.three_modules) ∧
  tasks_ok (H := bess_limits)
    (Demo.after (create_module (H := bess_limits) (Some "fw"%string)
                   (Demo.cls "Fw") 0) Demo.three_modules).
Proof.
  assert (0 ≤ MAX_GATES (Limits := bess_limits))%Z as Hmax
    by (vm_compute; discriminate).
  assert (consistent (H := bess_limits) Demo.three_modules) as Hc
    by (apply (bool_decide_unpack _); vm_compute; exact I).
  assert (tasks_ok (H := bess_limits) Demo.three_modules) as Ht
    by (apply (bool_decide_unpack _); vm_compute; exact I).
  assert (create_module (H := bess_limits) (Some "fw"%string) (Demo.cls "Fw") 0
            Demo.three_modules
          = Some ((Some 3, None),
                  Demo.after (create_module (H := bess_limits) (Some "fw"%string)
                                (Demo.cls "Fw") 0) Demo.three_modules)) as Hrun
    by (vm_compute; reflexivity).
  do 4 (split; [assumption|]).
  exact (create_module_keeps_invariants (H := bess_limits) _ _ _ _ _ _
           Hmax Hc Ht Hrun).
Defined.

(** [create_destroy_roundtrip] on the same creation. *)
Lemma create_destroy_roundtrip_witness :
  create_module (H := bess_limits) (Some "fw"%string) (Demo.cls "Fw") 0
    Demo.three_modules
  = Some ((Some 3, None),
          Demo.after (create_module (H := bess_limits) (Some "fw"%string)
                        (Demo.cls "Fw") 0) Demo.three_modules) ∧
  ∃ s'',
    destroy_module (H := bess_limits) 3
      (Demo.after (create_module (H := bess_limits) (Some "fw"%string)
                     (Demo.cls "Fw") 0) Demo.three_modules)
    = Some (tt, s'') ∧
    modules s'' = modules Demo.three_modules ∧
    tmem s'' = tmem Demo.three_modules ∧
    gmem s'' = gmem Demo.three_modules ∧
    ns s'' = ns Demo.three_modules.
Proof.
  assert (create_module (H := bess_limits) (Some "fw"%string) (Demo.cls "Fw") 0
            Demo.three_modules
          = Some ((Some 3, None),
                  Demo.after (create_module (H := bess_limits) (Some "fw"%string)
                                (Demo.cls "Fw") 0) Demo.three_modules)) as Hrun
    by (vm_compute; reflexivity).
  split; [exact Hrun|].
  exact (create_destroy_roundtrip (H := bess_limits) _ _ _ _ _ _ _ Hrun).
Defined.

(** [create_module_long_name] on a name of 130 characters. *)
Lemma create_module_long_name_witness :
  create_module (H := bess_limits) (Some Demo.long_name) (Demo.cls "Fw") 0
    Demo.three_modules
  = Some ((Some 3, None),
          Demo.after (create_module (H := bess_limits) (Some Demo.long_name)
                        (Demo.cls "Fw") 0) Demo.three_modules) ∧
  0 < MODULE_NAME_LEN (Limits := bess_limits) ∧
  MODULE_NAME_LEN (Limits := bess_limits) ≤ String.length Demo.long_name ∧
  find_module Demo.long_name
    (Demo.after (create_module (H := bess_limits) (Some Demo.long_name)
                   (Demo.cls "Fw") 0) Demo.three_modules)
  = Some (None,
          Demo.after (create_module (H := bess_limits) (Some Demo.long_name)
                        (Demo.cls "Fw") 0) Demo.three_modules).
Proof.
  assert (create_module (H := bess_limits) (Some Demo.long_name) (Demo.cls "Fw") 0
            Demo.three_modules
          = Some ((Some 3, None),
                  Demo.after (create_module (H := bess_limits) (Some Demo.long_name)
                                (Demo.cls "Fw") 0) Demo.three_modules)) as Hrun
    by (vm_compute; reflexivity).
  assert (0 < MODULE_NAME_LEN (Limits := bess_limits)) as Hpos
    by (vm_compute; lia).
  assert (MODULE_NAME_LEN (Limits := bess_limits) ≤ String.length Demo.long_name)
    as Hlong by (vm_compute; lia).
  do 3 (split; [assumption|]).
  exact (proj2 (create_module_long_name (H := bess_limits) _ _ _ _ _ _ _
                  Hrun Hpos Hlong)).
Defined.

(** ** Growing a gate array *)

Section grow.
Context `{Limits}.

(** The loop stops at the first doubling above [gate]. *)
Lemma grow_size_least fuel v gate d :
  (0 < v)%Z → (0 ≤ gate < 32768)%Z →
  grow_size fuel v gate = Some d → (d ≤ Z.max v (2 * gate))%Z.
Proof.
  revert v. induction fuel as [|fuel IH]; intros v Hv Hgate; simpl.
  - destruct (Z.leb_spec v gate); [done|]. intros [= <-]. lia.
  - destruct (Z.leb_spec v gate); [|intros [= <-]; lia].
    unfold GATE_IDX_MOD. rewrite Z.mod_small by lia.
    intros Hd. apply IH in Hd; lia.
Qed.

(** From a power of two, a gate index of 32768 or more makes [new_size]
    wrap around to 0 before it gets above the index. *)
Lemma grow_size_wraps fuel a gate :
  (0 ≤ a ≤ 15)%Z → (32768 ≤ gate)%Z →
  grow_size fuel (2 ^ a) gate = None.
Proof.
  intros Ha Hgate.
  assert (∀ k, ∀ a fuel, (0 ≤ a ≤ 15)%Z → Z.to_nat (15 - a) = k →
            grow_size fuel (2 ^ a) gate = None) as Hgen.
  { clear a fuel Ha. induction k as [|k IH]; intros a fuel Ha Hk.
    - assert (a = 15%Z) as -> by lia. change (2 ^ 15)%Z with 32768%Z.
      destruct fuel as [|fuel]; simpl; destruct (Z.leb_spec 32768 gate); try lia;
        [done|].
      change (32768 * 2 mod GATE_IDX_MOD)%Z with 0%Z.
      apply grow_size_zero. lia.
    - assert (2 ^ a ≤ 2 ^ 14)%Z by (apply Z.pow_le_mono_r; lia).
      change (2 ^ 14)%Z with 16384%Z in *.
      destruct fuel as [|fuel]; simpl; destruct (Z.leb_spec (2 ^ a) gate); try lia;
        [done|].
      assert (0 < 2 ^ a)%Z by (apply Z.pow_pos_nonneg; lia).
      unfold GATE_IDX_MOD. rewrite Z.mod_small by lia.
      replace (2 ^ a * 2)%Z with (2 ^ (a + 1))%Z
        by (rewrite Z.pow_add_r by lia; lia).
      apply IH; lia. }
  by eapply Hgen.
Qed.

Lemma grow_gates_total s m sd gate md :
  modules s !! m = Some md →
  (curr_size (get_gates sd md) ≤ MAX_GATES)%Z →
  (0 ≤ gate < 32768)%Z →
  ∃ n,
    grow_gates m sd gate s =
    Some (if next_alloc_ok s
          then (0%Z,
                set_modules
                  <[m := set_gates sd md
                           (Gates (arr (get_gates sd md) ++
                                   replicate (n - length (arr (get_gates sd md)))
                                     None))]>
                  (set_alloc_plan (tail (alloc_plan s)) s))
          else ((- ENOMEM)%Z, set_alloc_plan (tail (alloc_plan s)) s)) ∧
    length (arr (get_gates sd md)) ≤ n ∧
    (Z.of_nat n ≤ MAX_GATES)%Z ∧
    (gate < MAX_GATES → gate < Z.of_nat n)%Z ∧
    (MAX_GATES ≤ gate → Z.of_nat n = MAX_GATES)%Z ∧
    (Z.of_nat n ≤ Z.max (Z.max 1 (curr_size (get_gates sd md))) (2 * gate))%Z.
Proof.
  intros Hm Hsize Hgate. unfold grow_gates.
  rewrite (bind_eq _ _ _ _ _ (get_module_eq _ _ _ Hm)).
  set (g := get_gates sd md) in *.
  set (start := if (curr_size g =? 0)%Z then 1%Z else curr_size g).
  assert (0 < start ∧ curr_size g ≤ start ∧ start = Z.max 1 (curr_size g))%Z
    as (? & ? & Hstart).
  { unfold start, curr_size in *.
    destruct (Z.eqb_spec (Z.of_nat (length (arr g))) 0); lia. }
  destruct (grow_size_ok 16 start gate) as (d & Hd & ? & ?); [lia|lia| |].
  { change (2 ^ Z.of_nat 16)%Z with 65536%Z. lia. }
  pose proof (grow_size_least 16 start gate d ltac:(lia) Hgate Hd) as Hleast.
  rewrite Hd. cbn [deref]. unfold bind at 1. cbn [ret].
  set (new_size := if (MAX_GATES <? d)%Z then MAX_GATES else d).
  assert (0 ≤ curr_size g)%Z by (unfold curr_size; lia).
  assert (curr_size g ≤ new_size ∧ new_size ≤ MAX_GATES ∧ new_size ≤ d ∧
          (gate < MAX_GATES → gate < new_size) ∧
          (MAX_GATES ≤ gate → new_size = MAX_GATES))%Z
    as (? & ? & ? & ? & ?).
  { unfold new_size. destruct (Z.ltb_spec MAX_GATES d); lia. }
  exists (Z.to_nat new_size).
  rewrite (bind_eq _ _ _ _ _ (rte_alloc_ok_run s)).
  assert (length (arr g) ≤ Z.to_nat new_size) as Hle
    by (unfold curr_size in *; lia).
  split.
  - destruct (next_alloc_ok s); [|done].
    destruct (Z.ltb_spec new_size (curr_size g)); [lia|].
    rewrite (bind_eq _ _ _ tt _
               (put_module_eq (set_alloc_plan (tail (alloc_plan s)) s) _ _ _ Hm)).
    by rewrite resize_ge.
  - split; [done|]. repeat split; lia.
Qed.

(** [grow_gates] for a gate index below 32768 on an array within
    [MAX_GATES]: if the allocator refuses it returns [-ENOMEM] and the array
    is as it was; otherwise it returns 0 and the array is the old one
    followed by empty slots, nothing else being changed.  The new size is
    at most [MAX_GATES], above [gate] when [gate] is below [MAX_GATES] and
    [MAX_GATES] exactly when it is not, and no more than twice [gate]
    unless the array was that long already. *)
Theorem grow_gates_spec s m sd gate md :
  modules s !! m = Some md →
  (curr_size (get_gates sd md) ≤ MAX_GATES)%Z →
  (0 ≤ gate < 32768)%Z →
  ∃ n,
    grow_gates m sd gate s =
    Some (if next_alloc_ok s
          then (0%Z,
                set_modules
                  <[m := set_gates sd md
                           (Gates (arr (get_gates sd md) ++
                                   replicate (n - length (arr (get_gates sd md)))
                                     None))]>
                  (set_alloc_plan (tail (alloc_plan s)) s))
          else ((- ENOMEM)%Z, set_alloc_plan (tail (alloc_plan s)) s)) ∧
    length (arr (get_gates sd md)) ≤ n ∧
    (Z.of_nat n ≤ MAX_GATES)%Z ∧
    (gate < MAX_GATES → gate < Z.of_nat n)%Z ∧
    (MAX_GATES ≤ gate → Z.of_nat n = MAX_GATES)%Z ∧
    (Z.of_nat n ≤ Z.max (Z.max 1 (curr_size (get_gates sd md))) (2 * gate))%Z.
Proof. apply grow_gates_total. Qed.

(** A gate index of 32768 or more: whatever the number of doublings
    allowed, the 16-bit [new_size] of [grow_gates] wraps around to 0 before
    it passes the index, and [grow_gates] on an array whose size is 0 or a
    power of two does not return. *)
Theorem grow_gates_wraps s m sd gate md a :
  modules s !! m = Some md →
  (32768 ≤ gate)%Z → (0 ≤ a ≤ 15)%Z →
  curr_size (get_gates sd md) = 0%Z ∨ curr_size (get_gates sd md) = (2 ^ a)%Z →
  (∀ fuel, grow_size fuel (Z.max 1 (curr_size (get_gates sd md))) gate = None) ∧
  grow_gates m sd gate s = None.
Proof.
  intros Hm Hgate Ha Hsize.
  assert (0 < 2 ^ a)%Z by (apply Z.pow_pos_nonneg; lia).
  assert (∃ b, (0 ≤ b ≤ 15)%Z ∧
            (if (curr_size (get_gates sd md) =? 0)%Z then 1%Z
             else curr_size (get_gates sd md)) = (2 ^ b)%Z ∧
            Z.max 1 (curr_size (get_gates sd md)) = (2 ^ b)%Z)
    as (b & Hb & Hstart & Hmaxb).
  { destruct Hsize as [-> | ->].
    - exists 0%Z. by repeat split.
    - exists a. split; [done|].
      destruct (Z.eqb_spec (2 ^ a) 0); [lia|]. split; [done|lia]. }
  split.
  - intros fuel. rewrite Hmaxb. by apply grow_size_wraps.
  - unfold grow_gates. rewrite (bind_eq _ _ _ _ _ (get_module_eq _ _ _ Hm)).
    rewrite Hstart, grow_size_wraps by done. done.
Qed.

End grow.

(** [grow_gates_spec] on the empty output array of module 0 of
    [Demo.three_modules], for gate 5. *)
Lemma grow_gates_spec_witness :
  modules Demo.three_modules !! 0 = Some (Demo.module_of Demo.three_modules 0) ∧
  (curr_size (get_gates Ogates (Demo.module_of Demo.three_modules 0))
   ≤ MAX_GATES (Limits := bess_limits))%Z ∧
  (0 ≤ 5 < 32768)%Z ∧
  ∃ n,
    grow_gates (H := bess_limits) 0 Ogates 5 Demo.three_modules =
    Some (if next_alloc_ok Demo.three_modules
          then (0%Z,
                set_modules
                  <[0 := set_gates Ogates (Demo.module_of Demo.three_modules 0)
                           (Gates (arr (get_gates Ogates
                                          (Demo.module_of Demo.three_modules 0)) ++
                                   replicate
                                     (n - length (arr (get_gates Ogates
                                            (Demo.module_of Demo.three_modules 0))))
                                     None))]>
                  (set_alloc_plan (tail (alloc_plan Demo.three_modules))
                     Demo.three_modules))
          else ((- ENOMEM)%Z,
                set_alloc_plan (tail (alloc_plan Demo.three_modules))
                  Demo.three_modules)) ∧
    (5 < Z.of_nat n ≤ 10)%Z.
Proof.
  assert (modules Demo.three_modules !! 0
          = Some (Demo.module_of Demo.three_modules 0)) as Hm
    by (vm_compute; reflexivity).
  assert (curr_size (get_gates Ogates (Demo.module_of Demo.three_modules 0))
          ≤ MAX_GATES (Limits := bess_limits))%Z as Hsize
    by (vm_compute; discriminate).
  assert (0 ≤ 5 < 32768)%Z as Hgate by lia.
  do 3 (split; [assumption|]).
  destruct (grow_gates_spec (H := bess_limits) _ 0 Ogates 5 _ Hm Hsize Hgate)
    as (n & Hrun & _ & _ & Hlo & _ & Hhi).
  exists n. split; [exact Hrun|].
  assert (curr_size (get_gates Ogates (Demo.module_of Demo.three_modules 0)) = 0%Z)
    as Hz by (vm_compute; reflexivity).
  rewrite Hz in Hhi.
  assert (5 < MAX_GATES (Limits := bess_limits))%Z as H5
    by (vm_compute; reflexivity).
  specialize (Hlo H5). lia.
Defined.

(** [grow_gates_wraps] on the same array, for gate 40000. *)
Lemma grow_gates_wraps_witness :
  modules Demo.three_modules !! 0 = Some (Demo.module_of Demo.three_modules 0) ∧
  (32768 ≤ 40000)%Z ∧ (0 ≤ 0 ≤ 15)%Z ∧
  (curr_size (get_gates Ogates (Demo.module_of Demo.three_modules 0)) = 0%Z ∨
   curr_size (get_gates Ogates (Demo.module_of Demo.three_modules 0)) = (2 ^ 0)%Z) ∧
  grow_gates (H := bess_limits) 0 Ogates 40000 Demo.three_modules = None.
Proof.
  assert (modules Demo.three_modules !! 0
          = Some (Demo.module_of Demo.three_modules 0)) as Hm
    by (vm_compute; reflexivity).
  assert (32768 ≤ 40000)%Z as Hg by lia.
  assert (0 ≤ 0 ≤ 15)%Z as Ha by lia.
  assert (curr_size (get_gates Ogates (Demo.module_of Demo.three_modules 0)) = 0%Z ∨
          curr_size (get_gates Ogates (Demo.module_of Demo.three_modules 0))
          = (2 ^ 0)%Z) as Hs
    by (left; vm_compute; reflexivity).
  do 4 (split; [assumption|]).
  exact (proj2 (grow_gates_wraps (H := bess_limits) _ 0 Ogates 40000 _ 0
                  Hm Hg Ha Hs)).
Defined.

(** ** What [connect_modules] keeps *)

Section triples.

Lemma triple_bind {A B} P (c : M A) R (k : A → M B) Q :
  triple P c R → (∀ a, triple (R a) (k a) Q) → triple P (bind c k) Q.
Proof.
  intros Hc Hk s b s' HP Hrun.
  apply bind_Some in Hrun as (a & s1 & H1 & H2).
  eapply Hk; [|exact H2]. by eapply Hc.
Qed.

Lemma triple_ret {A} (P : state → Prop) (a : A) (Q : A → state → Prop) :
  (∀ s, P s → Q a s) → triple P (ret a) Q.
Proof. intros HQ s a' s' HP [= <- <-]. by apply HQ. Qed.

Lemma triple_fault {A} P (Q : A → state → Prop) : triple P fault Q.
Proof. by intros s a s' _ ?. Qed.

Lemma triple_True {A} P (c : M A) : triple P c (λ _ _, True).
Proof. by intros s a s' _ _. Qed.

Lemma triple_weaken {A} (P P' : state → Prop) (c : M A) (Q Q' : A → state → Prop) :
  triple P' c Q' → (∀ s, P s → P' s) → (∀ a s, Q' a s → Q a s) → triple P c Q.
Proof. intros Hc HP HQ s a s' Hs Hrun. eapply HQ, Hc; [by apply HP|done]. Qed.

(** Steps that read the state, or fail. *)
Lemma triple_read {A} P (c : M A) :
  (∀ s a s', c s = Some (a, s') → s' = s) → triple P c (λ _ s', P s').
Proof. intros Hc s a s' HP Hrun. by rewrite (Hc _ _ _ Hrun). Qed.

Lemma get_module_reads m s a s' : get_module m s = Some (a, s') → s' = s.
Proof. unfold get_module. destruct (modules s !! m); mred; by intros [= _ <-]. Qed.

Lemma get_gate_reads g s a s' : get_gate g s = Some (a, s') → s' = s.
Proof. unfold get_gate. destruct (gmem s !! g); mred; by intros [= _ <-]. Qed.

Lemma deref_reads {A} (o : option A) s a s' : deref o s = Some (a, s') → s' = s.
Proof. destruct o; mred; by intros [= _ <-]. Qed.

Lemma read_slot_reads g idx s a s' : read_slot g idx s = Some (a, s') → s' = s.
Proof. unfold read_slot. destruct (0 <=? idx)%Z; [apply deref_reads|done]. Qed.

End triples.

Section connect_keeps.
Context `{Limits}.

Lemma sizes_ok_ext s s' : modules s' = modules s → sizes_ok s → sizes_ok s'.
Proof. intros Hm Hs m md Hmd. rewrite Hm in Hmd. by apply (Hs m). Qed.

(** Steps that leave the modules alone keep the sizes. *)
Lemma triple_sizes_frame {A} (c : M A) :
  (∀ s a s', c s = Some (a, s') → modules s' = modules s) →
  triple sizes_ok c (λ _ s', sizes_ok s').
Proof. intros Hc s a s' HP Hrun. eapply sizes_ok_ext; [|done]. by eapply Hc. Qed.

Lemma put_gate_modules g v s a s' :
  put_gate g v s = Some (a, s') → modules s' = modules s.
Proof.
  unfold put_gate. intros Hrun. apply bind_Some in Hrun as (? & ? & H1 & H2).
  apply get_gate_reads in H1 as ->. mred in H2. by simplify_eq.
Qed.

Lemma rte_zmalloc_gate_modules s a s' :
  rte_zmalloc_gate s = Some (a, s') → modules s' = modules s.
Proof.
  rewrite rte_zmalloc_gate_run. destruct (next_alloc_ok s); by intros [= <- <-].
Qed.

Lemma rte_free_gate_modules g s a s' :
  rte_free_gate g s = Some (a, s') → modules s' = modules s.
Proof. destruct g; mred; by intros [= _ <-]. Qed.

Lemma cdlist_head_init_modules g s a s' :
  cdlist_head_init g s = Some (a, s') → modules s' = modules s.
Proof.
  unfold cdlist_head_init. intros Hrun.
  apply bind_Some in Hrun as (? & ? & H1 & H2).
  apply get_gate_reads in H1 as ->. by eapply put_gate_modules.
Qed.

Lemma cdlist_add_tail_modules g o s a s' :
  cdlist_add_tail g o s = Some (a, s') → modules s' = modules s.
Proof.
  unfold cdlist_add_tail. intros Hrun.
  apply bind_Some in Hrun as (? & ? & H1 & H2).
  apply get_gate_reads in H1 as ->. by eapply put_gate_modules.
Qed.

Lemma write_slot_sizes m sd idx v :
  triple sizes_ok (write_slot m sd idx v) (λ _ s', sizes_ok s').
Proof.
  intros s a s' Hs Hrun. unfold write_slot in Hrun.
  apply bind_Some in Hrun as (md & s1 & H1 & Hrun).
  pose proof (get_module_reads _ _ _ _ H1) as ->.
  unfold get_module in H1. destruct (modules s !! m) as [md'|] eqn:Hm; [|done].
  mred in H1. simplify_eq.
  destruct (_ && _); [|done].
  rewrite (put_module_eq _ _ _ _ Hm) in Hrun. simplify_eq.
  intros m' md'. cbn [modules set_modules].
  destruct (decide (m' = m)) as [->|Hne].
  - rewrite lookup_insert_eq. intros [= <-].
    destruct (Hs m md Hm) as [Ho Hi].
    destruct sd; unfold curr_size in *; cbn; rewrite ?length_insert; done.
  - rewrite lookup_insert_ne by done. apply (Hs m').
Qed.

Lemma grow_gates_sizes m sd gate :
  triple sizes_ok (grow_gates m sd gate)
    (λ r s', sizes_ok s' ∧ (r = 0 ∨ r = - ENOMEM)%Z).
Proof.
  intros s r s' Hs Hrun. unfold grow_gates in Hrun.
  apply bind_Some in Hrun as (md & s1 & H1 & Hrun).
  pose proof (get_module_reads _ _ _ _ H1) as ->.
  unfold get_module in H1. destruct (modules s !! m) as [md'|] eqn:Hm; [|done].
  mred in H1. simplify_eq.
  apply bind_Some in Hrun as (d & s1 & H1 & Hrun).
  pose proof (deref_reads _ _ _ _ H1) as ->. clear H1.
  rewrite (bind_eq _ _ _ _ _ (rte_alloc_ok_run s)) in Hrun.
  destruct (next_alloc_ok s).
  - destruct (Z.ltb_spec (if (MAX_GATES <? d)%Z then MAX_GATES else d)
                (curr_size (get_gates sd md))); [done|].
    rewrite (bind_eq _ _ _ tt _
               (put_module_eq (set_alloc_plan (tail (alloc_plan s)) s) _ _ _ Hm))
      in Hrun.
    mred in Hrun. simplify_eq. split; [|by left].
    intros m' md'. cbn [modules set_modules set_alloc_plan].
    destruct (decide (m' = m)) as [->|Hne].
    + rewrite lookup_insert_eq. intros [= <-].
      destruct (Hs m md Hm) as [Ho Hi].
      assert (Z.of_nat (Z.to_nat (if (MAX_GATES <? d)%Z then MAX_GATES else d))
              ≤ MAX_GATES)%Z.
      { unfold curr_size in *. destruct (Z.ltb_spec MAX_GATES d); lia. }
      destruct sd; unfold curr_size in *; cbn; rewrite ?length_resize; done.
    + rewrite lookup_insert_ne by done. apply (Hs m').
  - mred in Hrun. simplify_eq. split; [|by right].
    by eapply sizes_ok_ext.
Qed.

Lemma triple_maybe_grow (cond : bool) m sd gate (rest : M Z) Q :
  triple sizes_ok rest Q → (∀ s, sizes_ok s → Q (- ENOMEM)%Z s) →
  triple sizes_ok
    (let! r := (if cond then grow_gates m sd gate else ret 0%Z) in
     if bool_decide (r ≠ 0%Z) then ret r else rest) Q.
Proof.
  intros Hrest Hnomem.
  eapply (triple_bind _ _ (λ r s', sizes_ok s' ∧ (r = 0 ∨ r = - ENOMEM)%Z)).
  - destruct cond; [apply grow_gates_sizes|].
    apply triple_ret. intros s Hs. split; [done|by left].
  - intros r. case_bool_decide as Hr.
    + apply triple_ret. intros s [Hs [?|Hr']]; [done|]. rewrite Hr'. by apply Hnomem.
    + eapply triple_weaken; [exact Hrest|by intros s [? _]|done].
Qed.

Ltac tleaf :=
  first
    [ apply triple_read; first [apply get_module_reads | apply get_gate_reads
                               | apply deref_reads | apply read_slot_reads]
    | apply write_slot_sizes
    | apply triple_sizes_frame;
      first [apply put_gate_modules | apply rte_zmalloc_gate_modules
            | apply rte_free_gate_modules | apply cdlist_head_init_modules
            | apply cdlist_add_tail_modules] ].

Ltac tsz :=
  lazymatch goal with
  | |- triple _ (bind (if _ then grow_gates _ _ _ else ret _) _) _ =>
      apply triple_maybe_grow; [tsz|intros ? ?; split; [assumption|tauto]]
  | |- triple _ (bind _ _) _ =>
      eapply (triple_bind _ _ (λ _ s', sizes_ok s')); [tsz|intros ?; tsz]
  | |- triple _ (ret _) _ =>
      apply triple_ret; intros ? ?; first [assumption|split; [assumption|tauto]]
  | |- triple _ fault _ => apply triple_fault
  | |- triple _ (if ?b then _ else _) _ => destruct b; tsz
  | |- triple _ (match ?x with _ => _ end) _ => destruct x; tsz
  | |- _ => tleaf
  end.

(** [connect_modules] never makes a gate array longer than [MAX_GATES], and
    returns 0, [-EINVAL], [-EBUSY] or [-ENOMEM]. *)
Lemma connect_modules_sizes m_prev oi m_next ii :
  triple sizes_ok (connect_modules m_prev oi m_next ii)
    (λ r s', sizes_ok s' ∧
             (r = 0 ∨ r = - EINVAL ∨ r = - EBUSY ∨ r = - ENOMEM)%Z).
Proof. unfold connect_modules. tsz. Qed.

Lemma grow_gates_result m sd gate :
  triple (λ _, True) (grow_gates m sd gate) (λ r _, r = 0 ∨ r = - ENOMEM)%Z.
Proof.
  intros s r s' _ Hrun. unfold grow_gates in Hrun.
  apply bind_Some in Hrun as (md & s1 & _ & Hrun).
  apply bind_Some in Hrun as (d & s2 & _ & Hrun).
  apply bind_Some in Hrun as (ok & s3 & _ & Hrun).
  destruct ok; [|mred in Hrun; simplify_eq; by right].
  destruct (_ <? _)%Z; [done|].
  apply bind_Some in Hrun as (u & s4 & _ & Hrun). mred in Hrun. simplify_eq.
  by left.
Qed.

Lemma triple_maybe_grow_result (cond : bool) m sd gate (rest : M Z) :
  triple (λ _, True) rest (λ r _, r = 0 ∨ r = - ENOMEM)%Z →
  triple (λ _, True)
    (let! r := (if cond then grow_gates m sd gate else ret 0%Z) in
     if bool_decide (r ≠ 0%Z) then ret r else rest)
    (λ r _, r = 0 ∨ r = - ENOMEM)%Z.
Proof.
  intros Hrest.
  eapply (triple_bind _ _ (λ r _, r = 0 ∨ r = - ENOMEM)%Z).
  - destruct cond; [apply grow_gates_result|].
    apply triple_ret. intros s _. by left.
  - intros r. case_bool_decide as Hr.
    + apply triple_ret. by intros s ?.
    + eapply triple_weaken; [exact Hrest|done|done].
Qed.

Ltac tres :=
  lazymatch goal with
  | |- triple _ (bind (if _ then grow_gates _ _ _ else ret _) _) _ =>
      apply triple_maybe_grow_result; tres
  | |- triple _ (bind _ _) _ =>
      eapply (triple_bind _ _ (λ _ _, True)); [apply triple_True|intros ?; tres]
  | |- triple _ (ret _) _ => apply triple_ret; intros ? ?; tauto
  | |- triple _ fault _ => apply triple_fault
  | |- triple _ (if ?b then _ else _) _ => destruct b; tres
  | |- triple _ (match ?x with _ => _ end) _ => destruct x; tres
  end.

(** What a grown array holds at the index it was grown for. *)
Lemma is_active_gate_grown (a : list (option ptr)) n idx :
  length a ≤ n → (Z.of_nat (length a) ≤ idx)%Z →
  is_active_gate (Gates (resize n None a)) idx = false.
Proof.
  intros Hn Hidx. rewrite is_active_gate_resize by done.
  unfold is_active_gate, curr_size. cbn [arr].
  destruct (Z.ltb_spec idx (Z.of_nat (length a))); [lia|].
  by rewrite andb_false_r.
Qed.

Lemma connect_modules_outcome m_prev oi m_next ii s r s' :
  connect_modules m_prev oi m_next ii s = Some (r, s') →
  (r = 0 ∨ r = - ENOMEM ∨ ((r = - EINVAL ∨ r = - EBUSY) ∧ s' = s))%Z.
Proof.
  unfold connect_modules. intros Hrun.
  apply bind_Some in Hrun as (prev & s1 & H1 & Hrun).
  pose proof (get_module_reads _ _ _ _ H1) as ->.
  unfold get_module in H1. destruct (modules s !! m_prev) as [prev'|] eqn:Hprev;
    [|done]. mred in H1. simplify_eq.
  apply bind_Some in Hrun as (next & s1 & H1 & Hrun).
  pose proof (get_module_reads _ _ _ _ H1) as ->. clear H1.
  destruct (bool_decide _); [mred in Hrun; simplify_eq; tauto|].
  destruct (_ || _); [mred in Hrun; simplify_eq; tauto|].
  destruct (_ || _); [mred in Hrun; simplify_eq; tauto|].
  assert (∀ s2 (c : M Z),
            (∀ prev2, modules s2 !! m_prev = Some prev2 →
                      is_active_gate (ogates prev2) oi = true → s2 = s) →
            triple (λ _, True) c (λ r _, r = 0 ∨ r = - ENOMEM)%Z →
            (let! prev := get_module m_prev in
             if is_active_gate (ogates prev) oi then ret (- EBUSY)%Z else c) s2
            = Some (r, s') →
            (r = 0 ∨ r = - ENOMEM ∨ ((r = - EINVAL ∨ r = - EBUSY) ∧ s' = s))%Z)
    as Hbusy.
  { intros s2 c Hact Hc Hrun2.
    apply bind_Some in Hrun2 as (prev2 & s3 & H3 & Hrun2).
    pose proof (get_module_reads _ _ _ _ H3) as ->.
    unfold get_module in H3. destruct (modules s2 !! m_prev) as [prev3|] eqn:Hp2;
      [|done]. mred in H3. simplify_eq.
    destruct (is_active_gate (ogates prev2) oi) eqn:Hactive.
    - mred in Hrun2. simplify_eq. right; right. split; [by right|].
      by eapply Hact.
    - destruct (Hc _ _ _ I Hrun2); tauto. }
  apply bind_Some in Hrun as (r1 & s1 & Hgrow & Hrun).
  destruct (Z.leb_spec (curr_size (ogates prev)) oi) as [Hsmall|Hbig].
  - (* the output array is grown *)
    unfold grow_gates in Hgrow.
    rewrite (bind_eq _ _ _ _ _ (get_module_eq _ _ _ Hprev)) in Hgrow.
    apply bind_Some in Hgrow as (d & s2 & H2 & Hgrow).
    pose proof (deref_reads _ _ _ _ H2) as ->. clear H2.
    rewrite (bind_eq _ _ _ _ _ (rte_alloc_ok_run s)) in Hgrow.
    destruct (next_alloc_ok s).
    + destruct (Z.ltb_spec (if (MAX_GATES <? d)%Z then MAX_GATES else d)
                  (curr_size (get_gates Ogates prev))) as [|Hge]; [done|].
      rewrite (bind_eq _ _ _ tt _
                 (put_module_eq (set_alloc_plan (tail (alloc_plan s)) s) _ _ _ Hprev))
        in Hgrow.
      mred in Hgrow. simplify_eq.
      rewrite bool_decide_eq_false_2 in Hrun by (by intros ?).
      eapply Hbusy; [| |exact Hrun].
      * intros prev2 Hp2 Hact. exfalso. cbn [modules set_modules] in Hp2.
        rewrite lookup_insert_eq in Hp2. simplify_eq.
        cbn [get_gates set_gates ogates] in *.
        rewrite is_active_gate_grown in Hact; [done| |done].
        unfold curr_size in Hge. lia.
      * tres.
    + mred in Hgrow. simplify_eq.
      rewrite bool_decide_eq_true_2 in Hrun by done. mred in Hrun. simplify_eq.
      tauto.
  - mred in Hgrow. simplify_eq.
    rewrite bool_decide_eq_false_2 in Hrun by (by intros ?).
    eapply Hbusy; [| |exact Hrun]; [done|tres].
Qed.

(** [connect_modules] returns 0, [-ENOMEM], [-EINVAL] or [-EBUSY], and a
    call that returns [-EINVAL] or [-EBUSY] has changed nothing at all. *)
Theorem connect_modules_rejected m_prev oi m_next ii s r s' :
  connect_modules m_prev oi m_next ii s = Some (r, s') →
  (r = 0 ∨ r = - ENOMEM ∨ ((r = - EINVAL ∨ r = - EBUSY) ∧ s' = s))%Z.
Proof. apply connect_modules_outcome. Qed.

Lemma consistent_sizes s : consistent s → sizes_ok s.
Proof. intros Hc m md Hm. by destruct (Hc m md Hm) as (_ & _ & ? & ?). Qed.

(** The graph a successful [connect_modules] leaves is consistent when the
    one it found was. *)
Lemma connected_consistent s s' m_prev oi m_next ii o i up0 prev :
  consistent s → sizes_ok s' →
  (0 ≤ oi)%Z → (0 ≤ ii)%Z →
  modules s !! m_prev = Some prev → (oi < num_ogates (m_mclass prev))%Z →
  connected s s' m_prev oi m_next ii o i up0 →
  consistent s'.
Proof.
  intros Hc Hsz Hoi0 Hii0 Hprev Hnum
    (prev' & next' & og & ig & Hp' & Hn' & Ho & Hi & Hofresh & Hoi & Houp
     & Hogm & Hogi & Hoarg & Hoout & Hooidx
     & Higm & Higi & Higout & Higup & Hold & Hoslot & Hframe & Hslots & Hmods & _).
  assert (∀ x gx, gmem s !! x = Some gx → x ≠ o) as Fo
    by (intros x gx Hx ->; congruence).
  assert (∀ x gx, gmem s !! x = Some gx → out_igate gx ≠ None → x ≠ i) as Fi.
  { intros x gx Hx Hout ->.
    destruct (slot_at Igates s m_next (Z.to_nat ii)) as [i0|] eqn:Hs0.
    - destruct Hold as (-> & ig0 & Hig0 & _).
      pose proof (consistent_igate s _ _ _ Hc Hs0) as Hok.
      unfold igate_ok in Hok. rewrite Hig0 in Hok.
      destruct Hok as (_ & _ & ? & _). congruence.
    - destruct Hold as [? _]. congruence. }
  assert (∀ i' idx x, upstream_ok s i' idx x → upstream_ok s' i' idx x) as T.
  { intros i' idx x Hok. unfold upstream_ok in *.
    destruct (gmem s !! x) as [gx|] eqn:Hx; [|done].
    destruct Hok as (Hout & Hidx & Hpos & Hok).
    rewrite Hframe, Hx; [|by eapply Fo|eapply Fi; [done|congruence]].
    do 3 (split; [done|]).
    destruct (g_m gx) as [mo|]; [|done].
    rewrite Hslots. rewrite decide_False.
    - by rewrite decide_False by (by intros (? & _)).
    - intros (_ & -> & Hk). rewrite Hk in Hok. congruence. }
  intros m md' Hm'.
  pose proof (Hmods m) as Hmd. rewrite Hm' in Hmd.
  destruct (modules s !! m) as [md|] eqn:Hm; [|done].
  destruct Hmd as (Hcls & _ & _ & _ & _).
  split; [|split; [|apply (Hsz m md' Hm')]].
  - intros idx g Hg.
    assert (slot_at Ogates s' m idx = Some g) as Hs'
      by (apply slot_at_Some; eauto).
    rewrite Hslots in Hs'. unfold ogate_ok.
    case_decide as Hd1.
    + destruct Hd1 as (_ & -> & ->). injection Hs' as <-.
      assert (md = prev) as -> by congruence.
      rewrite Ho, Hoout, Hi, Higm.
      split; [done|]. split; [lia|]. split; [rewrite Hcls; lia|].
      split; [lia|]. split; [rewrite Higup; apply elem_of_app; right; left|].
      split; [congruence|].
      rewrite Hslots, decide_False by (by intros (? & _)).
      rewrite decide_True; [done|]. by rewrite Hooidx.
    + rewrite decide_False in Hs' by (by intros (? & _)).
      destruct (consistent_link s m idx g Hc Hs')
        as (md0 & og' & i' & ig' & mn' & Hm0 & Hg' & Hout' & Hi' & Hgm & Hgi
            & Hnum' & Hpos & Hup' & Harg & Hmn' & Hislot & Hnone' & Hne').
      assert (md0 = md) as -> by congruence.
      rewrite Hframe, Hg'; [|by eapply Fo|eapply Fi; [done|congruence]].
      rewrite Hout', Hcls. do 4 (split; [done|]).
      destruct (decide (i' = i)) as [->|Hii].
      * rewrite Hi.
        destruct (slot_at Igates s m_next (Z.to_nat ii)) as [i0|] eqn:Hs0;
          [|destruct Hold as [? _]; congruence].
        destruct Hold as (-> & ig0 & Hig0 & Hig & Hup0).
        assert (ig' = ig0) as -> by congruence.
        rewrite Higup, Higm.
        split; [apply elem_of_app; left; congruence|].
        assert (mn' = m_next) as ->
          by (rewrite Hig in Higm; cbn in Higm; congruence).
        split; [done|].
        rewrite Hslots, decide_False by (by intros (? & _)).
        case_decide; [done|].
        done.
      * rewrite Hframe, Hi'; [|by eapply Fo|done].
        split; [done|]. split; [congruence|]. rewrite Hmn'.
        rewrite Hslots, decide_False by (by intros (? & _)).
        rewrite decide_False; [done|].
        intros (_ & -> & Hk). rewrite Hk in Hislot. rewrite Hislot in Hold.
        by destruct Hold as [? _].
  - intros idx g Hg.
    assert (slot_at Igates s' m idx = Some g) as Hs'
      by (apply slot_at_Some; eauto).
    rewrite Hslots in Hs'.
    rewrite decide_False in Hs' by (by intros (? & _)).
    unfold igate_ok. case_decide as Hd2.
    + destruct Hd2 as (_ & -> & ->). injection Hs' as <-.
      rewrite Hi. split; [done|]. split; [lia|]. split; [done|].
      rewrite Higup. split; [by destruct up0|].
      assert (NoDup up0 ∧ Forall (upstream_ok s i (Z.to_nat ii)) up0) as [Hnd Hall].
      { destruct (slot_at Igates s m_next (Z.to_nat ii)) as [i0|] eqn:Hs0.
        - destruct Hold as (-> & ig0 & Hig0 & Hig & Hup0).
          pose proof (consistent_igate s _ _ _ Hc Hs0) as Hok.
          unfold igate_ok in Hok. rewrite Hig0, Hup0 in Hok.
          by destruct Hok as (_ & _ & _ & _ & ? & ?).
        - destruct Hold as [_ ->]. split; [apply NoDup_nil_2|constructor]. }
      split.
      * apply NoDup_app. split; [done|]. split; [|apply NoDup_singleton].
        intros x Hx ->%list_elem_of_singleton. done.
      * apply Forall_app. split.
        -- eapply Forall_impl; [exact Hall|]. intros x. apply T.
        -- apply Forall_singleton. unfold upstream_ok.
           rewrite Ho, Hogm. split; [done|]. split; [lia|]. split; [lia|].
           rewrite Hslots, decide_True; [done|]. by rewrite Hogi.
    + pose proof (consistent_igate s m idx g Hc Hs') as Hok.
      unfold igate_ok in Hok.
      destruct (gmem s !! g) as [ig'|] eqn:Hg'; [|done].
      destruct Hok as (Hgm & Hgi & Hnone' & Hnonempty & Hnd & Hall).
      assert (g ≠ i) as Hgi'.
      { intros ->.
        destruct (slot_at Igates s m_next (Z.to_nat ii)) as [i0|] eqn:Hs0;
          [|destruct Hold as [? _]; congruence].
        destruct Hold as (-> & ig0 & Hig0 & _).
        pose proof (consistent_igate s _ _ _ Hc Hs0) as Hok0.
        unfold igate_ok in Hok0. rewrite Hig0 in Hok0.
        destruct Hok0 as (? & ? & _).
        apply Hd2. split; [done|]. split; [congruence|].
        assert (ig' = ig0) as -> by congruence. lia. }
      rewrite Hframe, Hg'; [|by eapply Fo|done].
      do 5 (split; [done|]).
      eapply Forall_impl; [exact Hall|]. intros x. apply T.
Qed.

Lemma connect_modules_sound s m_prev oi m_next ii s' :
  (MAX_GATES ≤ 32768)%Z → consistent s → (0 ≤ oi)%Z → (0 ≤ ii)%Z →
  connect_modules m_prev oi m_next ii s = Some (0%Z, s') →
  consistent s' ∧ tmem s' = tmem s ∧ ns s' = ns s ∧
  active Ogates s' m_prev oi = true ∧ active Igates s' m_next ii = true.
Proof.
  intros Hmax Hc Hoi Hii Hrun.
  assert (∃ prev next, modules s !! m_prev = Some prev ∧
                       modules s !! m_next = Some next)
    as (prev & next & Hprev & Hnext).
  { unfold connect_modules in Hrun.
    apply bind_Some in Hrun as (prev & s1 & H1 & Hrun).
    pose proof (get_module_reads _ _ _ _ H1) as ->.
    apply bind_Some in Hrun as (next & s1 & H2 & _).
    unfold get_module in H1, H2.
    destruct (modules s !! m_prev), (modules s !! m_next); try done. eauto. }
  destruct (connect_modules_run Hmax s m_prev oi m_next ii prev next Hc Hprev Hnext
              Hoi Hii) as (s'' & Hrun' & Hok).
  rewrite Hrun in Hrun'. injection Hrun' as Hres <-.
  destruct (Hok (eq_sym Hres)) as (o & i & up0 & Hconn).
  pose proof (proj1 (connect_result_zero s prev next oi ii) (eq_sym Hres))
    as (_ & [Hnum _] & _).
  pose proof (connect_modules_sizes m_prev oi m_next ii s 0%Z s'
                (consistent_sizes s Hc) Hrun) as [Hsz _].
  split.
  { exact (connected_consistent s s' m_prev oi m_next ii o i up0 prev
             Hc Hsz Hoi Hii Hprev Hnum Hconn). }
  destruct Hconn as (? & ? & ? & ? & _ & _ & _ & _ & _ & _ & _ & _ & _ & _ & _ & _
                     & _ & _ & _ & _ & _ & _ & _ & Hslots & _ & Htm & Hns & _).
  do 2 (split; [done|]).
  rewrite !active_slot_at, !Hslots.
  rewrite decide_True by done.
  rewrite (decide_False (P := Igates = Ogates ∧ _)) by (by intros (? & _)).
  rewrite decide_True by done.
  destruct (Z.leb_spec 0 oi); [|lia]. destruct (Z.leb_spec 0 ii); [|lia].
  by rewrite !bool_decide_eq_true_2 by eauto.
Qed.

(** A [connect_modules] that returns 0 on a consistent graph leaves a
    consistent graph, in which the two slots are active; tasks and
    namespace are untouched. *)
Theorem connect_modules_keeps_consistent s m_prev oi m_next ii s' :
  (MAX_GATES ≤ 32768)%Z → consistent s → (0 ≤ oi)%Z → (0 ≤ ii)%Z →
  connect_modules m_prev oi m_next ii s = Some (0%Z, s') →
  consistent s' ∧ tmem s' = tmem s ∧ ns s' = ns s ∧
  active Ogates s' m_prev oi = true ∧ active Igates s' m_next ii = true.
Proof. apply connect_modules_sound. Qed.

End connect_keeps.

(** [connect_modules_rejected] on a second connection of output gate 0 of
    module 0 in [Demo.fan_in]: the gate is busy. *)
Lemma connect_modules_rejected_witness :
  connect_modules (H := bess_limits) 0 0 1 0 Demo.fan_in
  = Some ((- EBUSY)%Z,
          Demo.after (connect_modules (H := bess_limits) 0 0 1 0) Demo.fan_in) ∧
  Demo.after (connect_modules (H := bess_limits) 0 0 1 0) Demo.fan_in
  = Demo.fan_in.
Proof.
  assert (connect_modules (H := bess_limits) 0 0 1 0 Demo.fan_in
          = Some ((- EBUSY)%Z,
                  Demo.after (connect_modules (H := bess_limits) 0 0 1 0)
                    Demo.fan_in)) as Hrun
    by (vm_compute; reflexivity).
  split; [exact Hrun|].
  destruct (connect_modules_rejected (H := bess_limits) _ _ _ _ _ _ _ Hrun)
    as [H0|[H1|[_ Hsame]]].
  - discriminate H0.
  - discriminate H1.
  - exact Hsame.
Defined.

(** [connect_modules_keeps_consistent] on the first connection in
    [Demo.three_modules]. *)
Lemma connect_modules_keeps_consistent_witness :
  (MAX_GATES (Limits := bess_limits) ≤ 32768)%Z ∧
  consistent (H := bess_limits) Demo.three_modules ∧
  (0 ≤ 0)%Z ∧
  connect_modules (H := bess_limits) 0 0 1 0 Demo.three_modules
  = Some (0%Z, Demo.after (connect_modules (H := bess_limits) 0 0 1 0)
                 Demo.three_modules) ∧
  consistent (H := bess_limits)
    (Demo.after (connect_modules (H := bess_limits) 0 0 1 0) Demo.three_modules).
Proof.
  assert (MAX_GATES (Limits := bess_limits) ≤ 32768)%Z as Hmax
    by (vm_compute; discriminate).
  assert (consistent (H := bess_limits) Demo.three_modules) as Hc
    by (apply (bool_decide_unpack _); vm_compute; exact I).
  assert (0 ≤ 0)%Z as H0 by lia.
  assert (connect_modules (H := bess_limits) 0 0 1 0 Demo.three_modules
          = Some (0%Z, Demo.after (connect_modules (H := bess_limits) 0 0 1 0)
                         Demo.three_modules)) as Hrun
    by (vm_compute; reflexivity).
  do 4 (split; [assumption|]).
  exact (proj1 (connect_modules_keeps_consistent (H := bess_limits) _ _ _ _ _ _
                  Hmax Hc H0 H0 Hrun)).
Defined.

(** ** What [disconnect_modules] keeps *)

Section disconnect_keeps.
Context `{Limits}.

(** On a slot that holds no gate, the index check decides the result. *)
Lemma disconnect_idle_result s mp oi md :
  modules s !! mp = Some md → (0 ≤ oi)%Z →
  slot_at Ogates s mp (Z.to_nat oi) = None →
  disconnect_modules mp oi s
  = Some ((if (num_ogates (m_mclass md) <=? oi)%Z then - EINVAL else 0)%Z, s).
Proof.
  intros Hm Hoi Hslot. unfold disconnect_modules.
  rewrite (bind_eq _ _ _ _ _ (get_module_eq _ _ _ Hm)).
  destruct (num_ogates (m_mclass md) <=? oi)%Z; [done|].
  pose proof (slot_at_active s Ogates mp md oi Hm Hoi) as Hact.
  cbn [get_gates] in Hact. rewrite Hact, Hslot.
  by rewrite bool_decide_eq_false_2 by (by intros [? ?]).
Qed.

Lemma disconnect_modules_twice s mp oi md :
  consistent s → modules s !! mp = Some md → (0 ≤ oi)%Z →
  ∃ s',
    disconnect_modules mp oi s
    = Some ((if (num_ogates (m_mclass md) <=? oi)%Z then - EINVAL else 0)%Z, s') ∧
    consistent s' ∧ shrinks s s' ∧ active Ogates s' mp oi = false ∧
    disconnect_modules mp oi s'
    = Some ((if (num_ogates (m_mclass md) <=? oi)%Z then - EINVAL else 0)%Z, s').
Proof.
  intros Hc Hm Hoi.
  destruct (slot_at Ogates s mp (Z.to_nat oi)) as [o|] eqn:Hslot.
  - destruct (consistent_link s mp (Z.to_nat oi) o Hc Hslot)
      as (md' & og & i & ig & mn & Hm' & Ho & Hout & Hi & _ & _ & Hlt & _
          & _ & _ & Hmn & _).
    assert (md' = md) as -> by congruence.
    rewrite Z2Nat.id in Hlt by done.
    destruct (Z.leb_spec (num_ogates (m_mclass md)) oi); [lia|].
    pose proof (step_run s mp (Z.to_nat oi) o i og ig mn Hc Hslot Ho Hout Hi
                  Hmn md Hm) as Hrun.
    rewrite Z2Nat.id in Hrun by done.
    pose proof (step_consistent s mp _ o i og ig mn Hc Hslot Ho Hout Hi Hmn)
      as Hc1.
    pose proof (step_shrinks s mp (Z.to_nat oi) o i og ig mn Hi) as Hsh.
    set (s1 := disconnected s mp (Z.to_nat oi) o i ig mn
                 (Z.to_nat (out_igate_idx og))) in *.
    assert (slot_at Ogates s1 mp (Z.to_nat oi) = None) as Hs1.
    { unfold s1. rewrite step_slot. by rewrite decide_True. }
    exists s1. split; [done|]. split; [done|]. split; [done|].
    split.
    { rewrite active_slot_at, Hs1.
      rewrite bool_decide_eq_false_2 by (by intros [? ?]).
      apply andb_false_r. }
    pose proof Hsh as (_ & _ & _ & Hmods & _). specialize (Hmods mp).
    rewrite Hm in Hmods.
    destruct (modules s1 !! mp) as [md1|] eqn:Hm1; [|done].
    destruct Hmods as (Hcls & _).
    rewrite (disconnect_idle_result s1 mp oi md1 Hm1 Hoi Hs1), Hcls.
    by destruct (Z.leb_spec (num_ogates (m_mclass md)) oi); [lia|].
  - pose proof (disconnect_idle_result s mp oi md Hm Hoi Hslot) as Hrun.
    exists s. split; [done|]. split; [done|].
    split; [apply shrinks_refl|]. split; [|done].
    rewrite active_slot_at, Hslot.
    rewrite bool_decide_eq_false_2 by (by intros [? ?]).
    apply andb_false_r.
Qed.

(** A disconnection, whatever its outcome, keeps the gate graph consistent
    and adds nothing to it, leaves the output gate slot inactive, and a
    second call with the same arguments returns the same value and changes
    nothing.  The value is [-EINVAL] exactly for an index the class does not
    have. *)
Theorem disconnect_modules_idempotent s mp oi md :
  consistent s → modules s !! mp = Some md → (0 ≤ oi)%Z →
  ∃ s',
    disconnect_modules mp oi s
    = Some ((if (num_ogates (m_mclass md) <=? oi)%Z then - EINVAL else 0)%Z, s') ∧
    consistent s' ∧ shrinks s s' ∧ active Ogates s' mp oi = false ∧
    disconnect_modules mp oi s'
    = Some ((if (num_ogates (m_mclass md) <=? oi)%Z then - EINVAL else 0)%Z, s').
Proof. apply disconnect_modules_twice. Qed.

Lemma disconnect_modules_others s mp oi o og i ig mn :
  consistent s → (0 ≤ oi)%Z →
  slot_at Ogates s mp (Z.to_nat oi) = Some o →
  gmem s !! o = Some og → out_igate og = Some i →
  gmem s !! i = Some ig → g_m ig = Some mn →
  ∃ s',
    disconnect_modules mp oi s = Some (0%Z, s') ∧
    gmem s' !! o = None ∧
    (∀ x, x ≠ o → x ≠ i → gmem s' !! x = gmem s !! x) ∧
    (∀ m j, slot_at Ogates s' m j =
            if decide (m = mp ∧ j = Z.to_nat oi) then None
            else slot_at Ogates s m j) ∧
    match filter (λ x, x ≠ o) (in_ogates_upstream ig) with
    | [] =>
        gmem s' !! i = None ∧
        ∀ m j, slot_at Igates s' m j =
               if decide (m = mn ∧ j = Z.to_nat (out_igate_idx og)) then None
               else slot_at Igates s m j
    | o' :: rest =>
        gmem s' !! i = Some (set_upstream ig (o' :: rest)) ∧
        ∀ m j, slot_at Igates s' m j = slot_at Igates s m j
    end.
Proof.
  intros Hc Hoi Hslot Ho Hout Hi Hmn.
  pose proof Hslot as (md & Hm & _)%slot_at_Some.
  pose proof (step_run s mp (Z.to_nat oi) o i og ig mn Hc Hslot Ho Hout Hi
                Hmn md Hm) as Hrun.
  rewrite Z2Nat.id in Hrun by done.
  destruct (consistent_link s mp (Z.to_nat oi) o Hc Hslot)
    as (_ & og' & i' & _ & _ & _ & Ho' & Hout' & _ & _ & _ & _ & _ & _ & _ & _
        & _ & _ & Hoi').
  assert (og' = og) as -> by congruence.
  assert (i' = i) as -> by congruence.
  eexists. split; [exact Hrun|].
  split; [by rewrite step_gmem, decide_True|].
  split.
  { intros x Hxo Hxi. by rewrite step_gmem, !decide_False. }
  split.
  { intros m j. rewrite step_slot.
    destruct (decide (m = mp ∧ j = Z.to_nat oi)) as [[-> ->]|Hne].
    - by rewrite decide_True.
    - rewrite decide_False by (intros (_ & ? & ?); by apply Hne).
      by rewrite decide_False by (intros (_ & [=] & _)). }
  unfold unlink.
  destruct (filter (λ x, x ≠ o) (in_ogates_upstream ig)) as [|o' rest] eqn:Hf.
  - split.
    + rewrite step_gmem, decide_False, decide_True by done.
      unfold unlink. rewrite Hf. by rewrite decide_True.
    + intros m j. rewrite step_slot.
      rewrite decide_False by (intros ([=] & _)).
      unfold unlink. rewrite Hf. cbn [in_ogates_upstream set_upstream].
      destruct (decide (m = mn ∧ j = Z.to_nat (out_igate_idx og)))
        as [[-> ->]|Hne].
      * by rewrite decide_True.
      * rewrite decide_False; [done|]. intros (_ & _ & ? & ?). by apply Hne.
  - split.
    + rewrite step_gmem, decide_False, decide_True by done.
      unfold unlink. rewrite Hf.
      by rewrite decide_False.
    + intros m j. rewrite step_slot.
      rewrite decide_False by (intros ([=] & _)).
      unfold unlink. rewrite Hf.
      by rewrite decide_False by (intros ([=] & _)).
Qed.

End disconnect_keeps.

(** Disconnecting an active output gate frees it and empties its slot and
    touches no other output gate slot and no gate but its input gate; that
    input gate stays in place, without the output gate on its upstream list,
    as long as another output gate feeds it, and is freed, its slot emptied,
    when this was the last one. *)
Theorem disconnect_modules_fan_in `{Limits} s mp oi o og i ig mn :
  consistent s → (0 ≤ oi)%Z →
  slot_at Ogates s mp (Z.to_nat oi) = Some o →
  gmem s !! o = Some og → out_igate og = Some i →
  gmem s !! i = Some ig → g_m ig = Some mn →
  ∃ s',
    disconnect_modules mp oi s = Some (0%Z, s') ∧
    gmem s' !! o = None ∧
    (∀ x, x ≠ o → x ≠ i → gmem s' !! x = gmem s !! x) ∧
    (∀ m j, slot_at Ogates s' m j =
            if decide (m = mp ∧ j = Z.to_nat oi) then None
            else slot_at Ogates s m j) ∧
    match filter (λ x, x ≠ o) (in_ogates_upstream ig) with
    | [] =>
        gmem s' !! i = None ∧
        ∀ m j, slot_at Igates s' m j =
               if decide (m = mn ∧ j = Z.to_nat (out_igate_idx og)) then None
               else slot_at Igates s m j
    | o' :: rest =>
        gmem s' !! i = Some (set_upstream ig (o' :: rest)) ∧
        ∀ m j, slot_at Igates s' m j = slot_at Igates s m j
    end.
Proof. apply disconnect_modules_others. Qed.

(** [disconnect_modules_idempotent] on output gate 0 of module 0 in
    [Demo.fan_in]. *)
Lemma disconnect_modules_idempotent_witness :
  consistent (H := bess_limits) Demo.fan_in ∧
  modules Demo.fan_in !! 0 = Some (Demo.module_of Demo.fan_in 0) ∧
  (0 ≤ 0)%Z ∧
  ∃ s', disconnect_modules 0 0 Demo.fan_in = Some (0%Z, s') ∧
        disconnect_modules 0 0 s' = Some (0%Z, s').
Proof.
  assert (consistent (H := bess_limits) Demo.fan_in) as Hc
    by (apply (bool_decide_unpack _); vm_compute; exact I).
  assert (modules Demo.fan_in !! 0 = Some (Demo.module_of Demo.fan_in 0))
    as Hm by (vm_compute; reflexivity).
  assert (0 ≤ 0)%Z as H0 by lia.
  do 3 (split; [assumption|]).
  destruct (disconnect_modules_idempotent (H := bess_limits) _ _ _ _ Hc Hm H0)
    as (s' & Hrun & _ & _ & _ & Hrun').
  exists s'. exact (conj Hrun Hrun').
Defined.

(** [disconnect_modules_fan_in] on output gate 0 of module 0 in
    [Demo.fan_in], whose input gate is also fed by module 2. *)
Lemma disconnect_modules_fan_in_witness :
  consistent (H := bess_limits) Demo.fan_in ∧
  slot_at Ogates Demo.fan_in 0 (Z.to_nat 0) = Some 0 ∧
  gmem Demo.fan_in !! 0 = Some (Gate (Some 0) 0 (Some 1) (Some 1) (Some 1) 0 []) ∧
  gmem Demo.fan_in !! 1 = Some (Gate (Some 1) 0 (Some 1) (Some 1) None 0 [0; 2]) ∧
  ∃ s', disconnect_modules 0 0 Demo.fan_in = Some (0%Z, s') ∧
        gmem s' !! 0 = None ∧
        gmem s' !! 1 = Some (Gate (Some 1) 0 (Some 1) (Some 1) None 0 [2]).
Proof.
  assert (consistent (H := bess_limits) Demo.fan_in) as Hc
    by (apply (bool_decide_unpack _); vm_compute; exact I).
  assert (slot_at Ogates Demo.fan_in 0 (Z.to_nat 0) = Some 0) as Hslot
    by (vm_compute; reflexivity).
  assert (gmem Demo.fan_in !! 0
          = Some (Gate (Some 0) 0 (Some 1) (Some 1) (Some 1) 0 [])) as Ho
    by (vm_compute; reflexivity).
  assert (gmem Demo.fan_in !! 1
          = Some (Gate (Some 1) 0 (Some 1) (Some 1) None 0 [0; 2])) as Hi
    by (vm_compute; reflexivity).
  do 4 (split; [assumption|]).
  destruct (disconnect_modules_fan_in (H := bess_limits) Demo.fan_in 0 0 0 _ 1
              _ 1 Hc (Z.le_refl 0) Hslot Ho eq_refl Hi eq_refl)
    as (s' & Hrun & Hgo & _ & _ & Hrest).
  exists s'. exact (conj Hrun (conj Hgo (proj1 Hrest))).
Defined.

(** ** Listing the modules *)

Section listing.

(** The rounds that only count: the loop skips [offset - iter_cnt] modules. *)
Lemma list_modules_loop_skip it p_arr arr_size offset ret iter_cnt :
  list_modules_loop it p_arr arr_size offset ret iter_cnt
  = list_modules_loop (drop (Z.to_nat (offset - iter_cnt)) it) p_arr arr_size
      offset ret (Z.max iter_cnt offset).
Proof.
  revert iter_cnt. induction it as [|m it IH]; intros iter_cnt.
  - by rewrite drop_nil.
  - destruct (Z.ltb_spec iter_cnt offset) as [Hlt|Hge].
    + cbn [list_modules_loop].
      destruct (Z.ltb_spec iter_cnt offset); [|lia].
      rewrite IH.
      replace (Z.to_nat (offset - iter_cnt))
        with (S (Z.to_nat (offset - (iter_cnt + 1)))) by lia.
      cbn [drop]. f_equal. lia.
    + replace (Z.to_nat (offset - iter_cnt)) with 0 by lia.
      by rewrite Z.max_l by lia.
Qed.

(** The rounds that store: slots [ret], [ret + 1], ... receive the modules
    the iterator yields, up to slot [arr_size - 1]. *)
Lemma list_modules_loop_fill it p_arr arr_size offset r iter_cnt :
  (offset ≤ iter_cnt)%Z → (arr_size ≤ Z.of_nat (length p_arr))%Z →
  list_modules_loop it p_arr arr_size offset (Z.of_nat r) iter_cnt
  = Some (Z.of_nat (r + length (take (Z.to_nat (arr_size - Z.of_nat r)) it)),
          take r p_arr
          ++ (Some <$> take (Z.to_nat (arr_size - Z.of_nat r)) it)
          ++ drop (r + length (take (Z.to_nat (arr_size - Z.of_nat r)) it))
               p_arr).
Proof.
  intros Hoff Hsize. revert r p_arr iter_cnt Hoff Hsize.
  induction it as [|m it IH]; intros r p_arr iter_cnt Hoff Hsize.
  - rewrite take_nil. cbn [list_modules_loop length fmap list_fmap app].
    by rewrite Nat.add_0_r, take_drop.
  - cbn [list_modules_loop].
    destruct (Z.ltb_spec iter_cnt offset); [lia|].
    destruct (Z.leb_spec arr_size (Z.of_nat r)) as [Hfull|Hroom].
    + replace (Z.to_nat (arr_size - Z.of_nat r)) with 0 by lia.
      cbn [take length fmap list_fmap app].
      by rewrite Nat.add_0_r, take_drop.
    + rewrite Nat2Z.id.
      destruct (Nat.ltb_spec r (length p_arr)); [|lia].
      replace (Z.of_nat r + 1)%Z with (Z.of_nat (S r)) by lia.
      rewrite IH by (rewrite ?length_insert; lia).
      replace (Z.to_nat (arr_size - Z.of_nat r))
        with (S (Z.to_nat (arr_size - Z.of_nat (S r)))) by lia.
      cbn [take length fmap list_fmap].
      set (page := take (Z.to_nat (arr_size - Z.of_nat (S r))) it).
      f_equal. f_equal; [f_equal; lia|].
      rewrite (take_S_r _ r (Some m))
        by (by rewrite list_lookup_insert_eq by done).
      rewrite take_insert_ge by done.
      rewrite drop_insert_lt by lia.
      rewrite <- app_assoc. cbn [app]. do 3 f_equal.
      by rewrite Nat.add_succ_r.
Qed.

Lemma list_modules_run s p_arr arr_size offset :
  (0 ≤ offset)%Z → (0 ≤ arr_size ≤ Z.of_nat (length p_arr))%Z →
  list_modules p_arr arr_size offset s
  = Some ((Z.of_nat (length (take (Z.to_nat arr_size)
                               (drop (Z.to_nat offset) (ns_elements s)))),
           (Some <$> take (Z.to_nat arr_size)
                       (drop (Z.to_nat offset) (ns_elements s)))
           ++ drop (length (take (Z.to_nat arr_size)
                              (drop (Z.to_nat offset) (ns_elements s))))
                p_arr), s).
Proof.
  intros Hoff Hsize. unfold list_modules, bind, gets.
  rewrite list_modules_loop_skip. rewrite Z.sub_0_r.
  rewrite (list_modules_loop_fill _ p_arr arr_size offset 0) by lia.
  by rewrite Z.sub_0_r.
Qed.

Lemma ns_elements_bound s m :
  m ∈ ns_elements s ↔ ∃ nm, ns s !! nm = Some m.
Proof.
  unfold ns_elements. rewrite list_elem_of_fmap. split.
  - intros ([nm m'] & -> & Hin). exists nm. by apply elem_of_map_to_list.
  - intros (nm & Hnm). exists (nm, m). split; [done|].
    by apply elem_of_map_to_list.
Qed.

(** Within the array ([arr_size] no more than its length), [list_modules]
    returns without changing anything; it stores the modules the iterator
    yields after the first [offset], at most [arr_size] of them, from slot 0
    on and leaves the rest of the array alone; it returns their number, the
    smaller of [arr_size] and what the namespace holds beyond [offset]; and
    every module it stores is bound to a name [find_module] finds it by. *)
Theorem list_modules_page s p_arr arr_size offset :
  (0 ≤ offset)%Z → (0 ≤ arr_size ≤ Z.of_nat (length p_arr))%Z →
  ∃ page,
    list_modules p_arr arr_size offset s
    = Some ((Z.of_nat (length page),
             (Some <$> page) ++ drop (length page) p_arr), s) ∧
    page = take (Z.to_nat arr_size) (drop (Z.to_nat offset) (ns_elements s)) ∧
    Z.of_nat (length page)
    = Z.min arr_size (Z.max 0 (Z.of_nat (size (ns s)) - offset)) ∧
    ∀ m, m ∈ page → ∃ nm, find_module nm s = Some (Some m, s).
Proof.
  intros Hoff Hsize. eexists. split; [by apply list_modules_run|].
  split; [done|]. split.
  - rewrite length_take, length_drop. unfold ns_elements.
    rewrite length_fmap, length_map_to_list. lia.
  - intros m Hm. apply subseteq_take, subseteq_drop in Hm.
    apply ns_elements_bound in Hm as [nm Hnm]. exists nm.
    unfold find_module, gets. by rewrite Hnm.
Qed.

End listing.

(** [list_modules_page] on [Demo.three_modules]: the second and third
    module into an array of two. *)
Lemma list_modules_page_witness :
  (0 ≤ 1)%Z ∧ (0 ≤ 2 ≤ Z.of_nat (length [None; None (A := ptr)]))%Z ∧
  ∃ page,
    list_modules [None; None] 2 1 Demo.three_modules
    = Some ((Z.of_nat (length page), (Some <$> page) ++ drop (length page) [None; None]),
            Demo.three_modules) ∧
    Z.of_nat (length page) = 2%Z.
Proof.
  assert (0 ≤ 1)%Z as H1 by lia.
  assert (0 ≤ 2 ≤ Z.of_nat (length [None; None (A := ptr)]))%Z as H2
    by (simpl; lia).
  do 2 (split; [assumption|]).
  destruct (list_modules_page Demo.three_modules [None; None] 2 1 H1 H2)
    as (page & Hrun & _ & Hlen & _).
  exists page. split; [exact Hrun|].
  rewrite Hlen. vm_compute. reflexivity.
Defined.

(** ** The default name of a class *)

Section default_names.

Lemma isupper_tolower c : isupper (tolower c) = false.
Proof. by destruct c as [[] [] [] [] [] [] [] []]. Qed.

Lemma tolower_not_upper c : isupper c = false → tolower c = c.
Proof. unfold tolower. by intros ->. Qed.

Lemma snake_case_from_lower prev t :
  Forall (λ c, isupper c = false)
    (String.list_ascii_of_string (snake_case_from prev t)).
Proof.
  revert prev. induction t as [|c t IH]; intros prev; [by constructor|].
  cbn [snake_case_from].
  assert (Forall (λ c, isupper c = false)
            (String.list_ascii_of_string
               (String (tolower c) (snake_case_from (Some c) t)))) as Hrest.
  { cbn [String.list_ascii_of_string]. constructor; [apply isupper_tolower|apply IH]. }
  destruct prev as [p|]; [|done].
  destruct (islower p && isupper c); [|done].
  cbn [String.list_ascii_of_string]. by constructor.
Qed.

Lemma snake_case_from_fixed prev t :
  Forall (λ c, isupper c = false) (String.list_ascii_of_string t) →
  snake_case_from prev t = t.
Proof.
  revert prev. induction t as [|c t IH]; intros prev Hlow; [done|].
  cbn [String.list_ascii_of_string] in Hlow.
  apply Forall_cons in Hlow as [Hc Hlow].
  cbn [snake_case_from]. rewrite IH by done. rewrite tolower_not_upper by done.
  destruct prev as [p|]; [|done].
  by rewrite Hc, andb_false_r.
Qed.

(** The text [set_default_name] makes of a class name has no upper-case
    letter, and converting it again changes nothing. *)
Theorem snake_case_lower template :
  Forall (λ c, isupper c = false)
    (String.list_ascii_of_string (snake_case template)) ∧
  snake_case (snake_case template) = snake_case template.
Proof.
  split; [apply snake_case_from_lower|].
  apply snake_case_from_fixed, snake_case_from_lower.
Qed.

(** The conversion writes one character for each character of the class
    name and an underscore for each upper-case letter that follows a
    lower-case one.  With the [%d] appended and the final NUL the text fits
    the array [fmt] exactly when there are at most 13 such places. *)
Theorem snake_case_length template :
  String.length (snake_case template)
  = String.length template + humps template ∧
  (String.length (snake_case template +:+ "%d") + 1 ≤ fmt_size template
   ↔ humps template ≤ 13).
Proof.
  assert (String.length (snake_case template)
          = String.length template + humps template) as Hlen
    by apply snake_case_from_length.
  split; [done|].
  rewrite length_append, Hlen. unfold fmt_size. cbn [String.length]. lia.
Qed.

End default_names.

(** ** What a connection makes *)

Section connect_links.
Context `{Limits}.

Lemma connect_modules_connected s m_prev oi m_next ii s' :
  (MAX_GATES ≤ 32768)%Z → consistent s → (0 ≤ oi)%Z → (0 ≤ ii)%Z →
  connect_modules m_prev oi m_next ii s = Some (0%Z, s') →
  ∃ o i up0, connected s s' m_prev oi m_next ii o i up0.
Proof.
  intros Hmax Hc Hoi Hii Hrun.
  assert (∃ prev next, modules s !! m_prev = Some prev ∧
                       modules s !! m_next = Some next)
    as (prev & next & Hprev & Hnext).
  { unfold connect_modules in Hrun.
    apply bind_Some in Hrun as (prev & s1 & H1 & Hrun).
    pose proof (get_module_reads _ _ _ _ H1) as ->.
    apply bind_Some in Hrun as (next & s1 & H2 & _).
    unfold get_module in H1, H2.
    destruct (modules s !! m_prev), (modules s !! m_next); try done. eauto. }
  destruct (connect_modules_run Hmax s m_prev oi m_next ii prev next Hc Hprev Hnext
              Hoi Hii) as (s'' & Hrun' & Hok).
  rewrite Hrun in Hrun'. injection Hrun' as Hres <-.
  exact (Hok (eq_sym Hres)).
Qed.

(** A connection that returns 0 on a consistent gate graph has made one new
    output gate, put it in the output slot, which was empty, and at the tail
    of the upstream list of the input gate of the input slot; that input
    gate is the one the slot held, otherwise unchanged, or a new one if the
    slot was empty.  No other gate and no other slot has changed, and the
    modules keep their class, tasks and name. *)
Theorem connect_modules_links s m_prev oi m_next ii s' :
  (MAX_GATES ≤ 32768)%Z → consistent s → (0 ≤ oi)%Z → (0 ≤ ii)%Z →
  connect_modules m_prev oi m_next ii s = Some (0%Z, s') →
  ∃ o i up0, connected s s' m_prev oi m_next ii o i up0.
Proof. apply connect_modules_connected. Qed.

End connect_links.

(** [connect_modules_links] on the second connection to input gate 0 of
    module 1, from output gate 1 of module 2. *)
Lemma connect_modules_links_witness :
  (MAX_GATES (Limits := bess_limits) ≤ 32768)%Z ∧
  consistent (H := bess_limits)
    (Demo.after (connect_modules (H := bess_limits) 0 0 1 0) Demo.three_modules) ∧
  (0 ≤ 1)%Z ∧ (0 ≤ 0)%Z ∧
  connect_modules (H := bess_limits) 2 1 1 0
    (Demo.after (connect_modules (H := bess_limits) 0 0 1 0) Demo.three_modules)
  = Some (0%Z, Demo.fan_in) ∧
  ∃ o i up0,
    connected
      (Demo.after (connect_modules (H := bess_limits) 0 0 1 0) Demo.three_modules)
      Demo.fan_in 2 1 1 0 o i up0.
Proof.
  assert (MAX_GATES (Limits := bess_limits) ≤ 32768)%Z as Hmax
    by (vm_compute; discriminate).
  assert (consistent (H := bess_limits)
            (Demo.after (connect_modules (H := bess_limits) 0 0 1 0)
               Demo.three_modules)) as Hc
    by (apply (bool_decide_unpack _); vm_compute; exact I).
  assert (0 ≤ 1)%Z as H1 by lia.
  assert (0 ≤ 0)%Z as H0 by lia.
  assert (connect_modules (H := bess_limits) 2 1 1 0
            (Demo.after (connect_modules (H := bess_limits) 0 0 1 0)
               Demo.three_modules)
          = Some (0%Z, Demo.fan_in)) as Hrun
    by (vm_compute; reflexivity).
  do 5 (split; [assumption|]).
  exact (connect_modules_links (H := bess_limits) _ _ _ _ _ _ Hmax Hc H1 H0 Hrun).
Defined.

(** ** One connection for an output gate *)

Section connect_once.
Context `{Limits}.

Lemma connect_modules_active s m_prev oi m_next ii next :
  (MAX_GATES ≤ 32768)%Z → consistent s → (0 ≤ oi)%Z → (0 ≤ ii)%Z →
  active Ogates s m_prev oi = true →
  modules s !! m_next = Some next →
  ∃ r, connect_modules m_prev oi m_next ii s = Some (r, s) ∧
       (r = - EBUSY ∨ r = - EINVAL)%Z.
Proof.
  intros Hmax Hc Hoi Hii Hact Hnext. unfold active in Hact.
  destruct (modules s !! m_prev) as [prev|] eqn:Hprev; [|done].
  cbn [get_gates] in Hact.
  destruct (connect_modules_run Hmax s m_prev oi m_next ii prev next Hc Hprev
              Hnext Hoi Hii) as (s' & Hrun & _).
  assert (connect_result s prev next oi ii = - EBUSY ∨
          connect_result s prev next oi ii = - EINVAL)%Z as Hres.
  { unfold connect_result.
    destruct (bool_decide (process_batch (m_mclass next) = None)); [by right|].
    destruct (bool_decide (_ ∨ _)); [by right|].
    destruct (bool_decide (_ ∨ _)); [by right|].
    assert (oi < curr_size (ogates prev))%Z as Hlt.
    { unfold is_active_gate in Hact.
      destruct (Z.ltb_spec oi (curr_size (ogates prev))); [done|].
      by rewrite andb_false_r in Hact. }
    rewrite (bool_decide_eq_false_2 (curr_size (ogates prev) ≤ oi)%Z) by lia.
    cbn [andb]. rewrite Hact. by left. }
  exists (connect_result s prev next oi ii). split; [|done].
  destruct (connect_modules_outcome _ _ _ _ _ _ _ Hrun) as [H0|[H1|[_ ->]]];
    [| |done].
  - exfalso. unfold EBUSY, EINVAL in Hres. lia.
  - exfalso. unfold EBUSY, EINVAL, ENOMEM in *. lia.
Qed.

Lemma connect_modules_second s m_prev oi m_next ii s1 m_next' ii' :
  (MAX_GATES ≤ 32768)%Z → consistent s →
  (0 ≤ oi)%Z → (0 ≤ ii)%Z → (0 ≤ ii')%Z →
  connect_modules m_prev oi m_next ii s = Some (0%Z, s1) →
  is_Some (modules s1 !! m_next') →
  ∃ r, connect_modules m_prev oi m_next' ii' s1 = Some (r, s1) ∧
       (r = - EBUSY ∨ r = - EINVAL)%Z.
Proof.
  intros Hmax Hc Hoi Hii Hii' Hrun [next' Hnext'].
  destruct (connect_modules_sound s m_prev oi m_next ii s1 Hmax Hc Hoi Hii Hrun)
    as (Hc1 & _ & _ & Hact & _).
  by eapply connect_modules_active.
Qed.

(** An output gate feeds one input gate: once [connect_modules] has
    connected it, a further connection of the same output gate, to whatever
    module and input gate, is refused with [-EBUSY] (or [-EINVAL], when the
    arguments fail the checks made before) and changes nothing. *)
Theorem connect_modules_once s m_prev oi m_next ii s1 m_next' ii' :
  (MAX_GATES ≤ 32768)%Z → consistent s →
  (0 ≤ oi)%Z → (0 ≤ ii)%Z → (0 ≤ ii')%Z →
  connect_modules m_prev oi m_next ii s = Some (0%Z, s1) →
  is_Some (modules s1 !! m_next') →
  ∃ r, connect_modules m_prev oi m_next' ii' s1 = Some (r, s1) ∧
       (r = - EBUSY ∨ r = - EINVAL)%Z.
Proof. apply connect_modules_second. Qed.

End connect_once.

(** [connect_modules_once]: output gate 0 of module 0, connected to module 1,
    is not connected to module 2 as well. *)
Lemma connect_modules_once_witness :
  (MAX_GATES (Limits := bess_limits) ≤ 32768)%Z ∧
  consistent (H := bess_limits) Demo.three_modules ∧
  (0 ≤ 0)%Z ∧ (0 ≤ 1)%Z ∧
  connect_modules (H := bess_limits) 0 0 1 0 Demo.three_modules
  = Some (0%Z, Demo.after (connect_modules (H := bess_limits) 0 0 1 0)
                 Demo.three_modules) ∧
  is_Some (modules (Demo.after (connect_modules (H := bess_limits) 0 0 1 0)
                      Demo.three_modules) !! 2) ∧
  ∃ r, connect_modules (H := bess_limits) 0 0 2 1
         (Demo.after (connect_modules (H := bess_limits) 0 0 1 0)
            Demo.three_modules)
       = Some (r, Demo.after (connect_modules (H := bess_limits) 0 0 1 0)
                    Demo.three_modules) ∧
       (r = - EBUSY ∨ r = - EINVAL)%Z.
Proof.
  assert (MAX_GATES (Limits := bess_limits) ≤ 32768)%Z as Hmax
    by (vm_compute; discriminate).
  assert (consistent (H := bess_limits) Demo.three_modules) as Hc
    by (apply (bool_decide_unpack _); vm_compute; exact I).
  assert (0 ≤ 0)%Z as H0 by lia.
  assert (0 ≤ 1)%Z as H1 by lia.
  assert (connect_modules (H := bess_limits) 0 0 1 0 Demo.three_modules
          = Some (0%Z, Demo.after (connect_modules (H := bess_limits) 0 0 1 0)
                         Demo.three_modules)) as Hrun
    by (vm_compute; reflexivity).
  assert (is_Some (modules (Demo.after (connect_modules (H := bess_limits) 0 0 1 0)
                              Demo.three_modules) !! 2)) as Hm
    by (apply (bool_decide_unpack _); vm_compute; exact I).
  do 6 (split; [assumption|]).
  exact (connect_modules_once (H := bess_limits) _ 0 0 1 0 _ 2 1
           Hmax Hc H0 H0 H1 Hrun Hm).
Defined.

(** ** The logger

    The buffer of a logger holds its text, the new message and the NUL of
    [vsnprintf]; the loop of [log_vfmt] cuts the complete lines off the
    front. *)

Section logger.
Context `{Limits}.
Import Log.

Lemma length_store b off data :
  off + length data ≤ length b → length (store b off data) = length b.
Proof.
  intros Hle. unfold store.
  rewrite !length_app, length_take, length_drop. lia.
Qed.


(** The scan of [strchr] over a NUL-free text followed by NUL. *)
Lemma strchr_lf_text t rest :
  NUL ∉ t →
  ((LF ∉ t) ∧ strchr_lf (t ++ NUL :: rest) = Some None) ∨
  (∃ k, strchr_lf (t ++ NUL :: rest) = Some (Some k) ∧
        t !! k = Some LF ∧ LF ∉ take k t).
Proof.
  induction t as [|c t IH]; intros Hnul.
  - left. split; [apply not_elem_of_nil|]. cbn [app strchr_lf].
    rewrite bool_decide_eq_false_2 by done. by rewrite bool_decide_eq_true_2.
  - apply not_elem_of_cons in Hnul as [Hc Hnul]. cbn [app strchr_lf].
    case_bool_decide as Hlf.
    + right. exists 0. subst c. split; [done|]. split; [done|].
      cbn. apply not_elem_of_nil.
    + rewrite bool_decide_eq_false_2 by done.
      destruct (IH Hnul) as [[Hno ->]|(k & -> & Hk & Hbefore)].
      * left. split; [|done]. apply not_elem_of_cons. by split.
      * right. exists (S k). split; [done|]. split; [done|].
        cbn. apply not_elem_of_cons. by split.
Qed.

Lemma flush_lines_S fuel priority b p ln st :
  flush_lines (S fuel) priority b p ln st =
  match strchr_lf (drop p b) with
  | None => None
  | Some None => Some (p, ln, st)
  | Some (Some k) =>
      flush_lines fuel priority b (p + k + 1) (ln - (Z.of_nat k + 1))
        (do_log priority (take (k + 1) (drop p b)) st)
  end.
Proof. done. Qed.

(** The loop of [log_vfmt] over a NUL-free text [t] that starts at [p] and
    is followed by NUL: it hands the complete lines of [t] to [do_log], one
    by one, and stops in front of what follows the last line feed. *)
Lemma flush_lines_run n priority b p t rest st :
  length t ≤ n →
  drop p b = t ++ NUL :: rest →
  NUL ∉ t →
  ∃ ls r,
    flush_lines (S n) priority b p (Z.of_nat (length t)) st
    = Some (p + length (concat ls), Z.of_nat (length r),
            LogState (loggers st) (sink st ++ ((λ l, (priority, l)) <$> ls))) ∧
    concat ls ++ r = t ∧
    Forall (λ l, last l = Some LF) ls ∧
    LF ∉ r.
Proof.
  revert p t st. induction n as [|n IH]; intros p t st Hlen Hdrop Hnul.
  - destruct t; [|cbn in Hlen; lia]. exists [], []. cbn [flush_lines].
    rewrite Hdrop. cbn. rewrite bool_decide_eq_false_2 by done.
    rewrite bool_decide_eq_true_2 by done.
    split; [|by repeat split; try apply not_elem_of_nil].
    destruct st. cbn. by rewrite Nat.add_0_r, app_nil_r.
  - rewrite flush_lines_S, Hdrop.
    destruct (strchr_lf_text t rest Hnul) as [[Hno ->]|(k & -> & Hk & Hbefore)].
    + exists [], t. split; [|done]. destruct st. cbn.
      by rewrite Nat.add_0_r, app_nil_r.
    + pose proof (lookup_lt_Some _ _ _ Hk) as Hklt.
      assert (take (k + 1) (t ++ NUL :: rest) = take (k + 1) t) as ->
        by (apply take_app_le; lia).
      assert (drop (p + k + 1) b = drop (k + 1) t ++ NUL :: rest) as Hdrop'.
      { replace (p + k + 1) with (p + (k + 1)) by lia.
        rewrite <- drop_drop, Hdrop. apply drop_app_le. lia. }
      assert (NUL ∉ drop (k + 1) t) as Hnul'.
      { intros Hin. apply Hnul. rewrite <- (take_drop (k + 1) t).
        apply elem_of_app. by right. }
      destruct (IH (p + k + 1) (drop (k + 1) t)
                  (do_log priority (take (k + 1) t) st))
        as (ls & r & Hrun & Hcat & Hls & Hr);
        [rewrite length_drop; lia|done|done|].
      exists (take (k + 1) t :: ls), r.
      split; [|split; [|split]].
      * replace (Z.of_nat (length t) - (Z.of_nat k + 1))%Z
          with (Z.of_nat (length (drop (k + 1) t)))
          by (rewrite length_drop; lia).
        rewrite Hrun. cbn [concat fmap list_fmap do_log loggers sink].
        rewrite length_app, length_take, <- app_assoc. cbn [app].
        do 3 f_equal. lia.
      * cbn [concat]. rewrite <- app_assoc, Hcat. apply take_drop.
      * constructor; [|done].
        rewrite last_lookup, length_take.
        rewrite lookup_take_lt by lia.
        by replace (Init.Nat.pred ((k + 1) `min` length t)) with k by lia.
      * done.
Qed.


Lemma length_pending lg :
  (0 ≤ len lg ≤ Z.of_nat (length (buf lg)))%Z →
  length (pending lg) = Z.to_nat (len lg).
Proof. intros Hlen. unfold pending. rewrite length_take. lia. Qed.

(** [log_vfmt] with a message that fits. *)
Lemma log_vfmt_fits priority msg st lg :
  loggers st !! Z.to_nat priority = Some lg →
  (0 ≤ len lg)%Z →
  (MAX_LOG_LEN ≤ Z.of_nat (length (buf lg)) - len lg)%Z →
  NUL ∉ pending lg → NUL ∉ msg →
  (Z.of_nat (length msg) < Z.of_nat (length (buf lg)) - len lg)%Z →
  ∃ lg' ls,
    log_vfmt priority msg st
    = Some (LogState (<[Z.to_nat priority := lg']> (loggers st))
              (sink st ++ ((λ l, (priority, l)) <$> ls))) ∧
    concat ls ++ pending lg' = pending lg ++ msg ∧
    Forall (λ l, last l = Some LF) ls ∧
    (LF ∉ pending lg') ∧
    len lg' = Z.of_nat (length (pending lg')) ∧
    length (buf lg') = length (buf lg).
Proof.
  intros Hlg Hlen0 Hfree Hnulp Hnulm Hfits.
  unfold log_vfmt. rewrite Hlg.
  destruct (Z.ltb_spec (Z.of_nat (length (buf lg)) - len lg) MAX_LOG_LEN);
    [lia|].
  unfold vsnprintf.
  destruct (Z.to_nat (Z.of_nat (length (buf lg)) - len lg)) as [|k] eqn:Hk;
    [lia|].
  destruct (Z.leb_spec (Z.of_nat (length (buf lg)) - len lg)
              (Z.of_nat (length msg))); [lia|].
  rewrite take_ge by lia.
  set (off := Z.to_nat (len lg)).
  set (b := store (buf lg) off (msg ++ [NUL])).
  assert (length (pending lg) = off) as Hplen by (apply length_pending; lia).
  assert (b = (pending lg ++ msg) ++ NUL ::
                drop (off + length (msg ++ [NUL])) (buf lg)) as Hb.
  { unfold b, store, pending. fold off. by rewrite <- !app_assoc. }
  assert (length b = length (buf lg)) as Hblen.
  { apply length_store. rewrite length_app. cbn. lia. }
  destruct (flush_lines_run (length b) priority b 0 (pending lg ++ msg)
              (drop (off + length (msg ++ [NUL])) (buf lg)) st)
    as (ls & r & Hrun & Hcat & Hls & Hr).
  { rewrite Hblen, length_app. lia. }
  { by rewrite drop_0. }
  { intros [?|?]%elem_of_app; tauto. }
  replace (len lg + Z.of_nat (length msg))%Z
    with (Z.of_nat (length (pending lg ++ msg)))
    by (rewrite length_app; lia).
  rewrite Hrun. cbn [loggers sink].
  set (p := 0 + length (concat ls)).
  set (b' := if bool_decide (p ≠ 0) && (0 <? Z.of_nat (length r))%Z
             then store b 0 (take (Z.to_nat (Z.of_nat (length r))) (drop p b))
             else b).
  assert (length (concat ls) + length r ≤ length (pending lg ++ msg)) as Hle
    by (rewrite <- Hcat, length_app; lia).
  assert (length (pending lg ++ msg) < length b) as Hlt
    by (rewrite Hblen, length_app; lia).
  assert (take (length r) b' = r ∧ length b' = length b) as [Hpend Hb'len].
  { unfold b'. rewrite Nat2Z.id.
    assert (take (length r) (drop p b) = r) as Hr'.
    { rewrite Hb, <- Hcat, <- !app_assoc. unfold p. cbn [Nat.add].
      rewrite drop_app_length. by rewrite take_app_length. }
    destruct (bool_decide (p ≠ 0) && (0 <? Z.of_nat (length r))%Z) eqn:Hcond.
    - rewrite Hr'. split.
      + unfold store. rewrite take_0. cbn [app]. by rewrite take_app_length.
      + apply length_store. lia.
    - split; [|done].
      apply andb_false_iff in Hcond as [Hp|Hz].
      + apply bool_decide_eq_false in Hp. apply dec_stable in Hp.
        rewrite Hp, drop_0 in Hr'. done.
      + apply Z.ltb_ge in Hz. destruct r; [by rewrite take_0|cbn in Hz; lia]. }
  exists (Logger b' (Z.of_nat (length r))), ls.
  unfold pending. cbn [buf len]. rewrite Nat2Z.id, Hpend.
  split; [done|]. split; [done|]. split; [done|]. split; [done|].
  split; [done|]. by rewrite Hb'len.
Qed.



End logger.



(** The same call, run: the line [cdef] goes out and [gh] stays; and a
    message of 5000 characters draws the complaint and leaves [cd]. *)
Example log_run :
  (∃ st',
     Log._log (H := bess_limits) 6
       (Log.string_chars "ef" ++ Log.LF :: Log.string_chars "gh")
       Demo.log_pending = Some st' ∧
     Log.sink st' = [(6%Z, Log.string_chars "ab" ++ [Log.LF]);
                     (6%Z, Log.string_chars "cdef" ++ [Log.LF])] ∧
     Log.pending (Demo.logger_of st' 6) = Log.string_chars "gh") ∧
  (∃ st',
     Log._log (H := bess_limits) 6 (replicate 5000 "x"%char) Demo.log_pending
     = Some st' ∧
     Log.sink st' = [(6%Z, Log.string_chars "ab" ++ [Log.LF]);
                     (Log.LOG_ERR,
                      Log.string_chars "Too large log message: 5000 bytes"
                      ++ [Log.LF])] ∧
     Log.pending (Demo.logger_of st' 6) = Log.string_chars "cd").
Proof.
  split; eexists; (split; [vm_compute; reflexivity|]);
    split; vm_compute; reflexivity.
Qed.

(** ** Partial lines and the assertion of [log_vfmt] *)

Section partial_lines.
Context `{Limits}.
Import Log.

Lemma in_range_log priority msg st :
  (0 ≤ priority ≤ MAX_LOG_PRIORITY)%Z →
  _log priority msg st = log_vfmt priority msg st.
Proof.
  intros Hp. unfold _log.
  destruct (Z.ltb_spec priority 0); [lia|].
  by destruct (Z.ltb_spec MAX_LOG_PRIORITY priority); [lia|].
Qed.

(** Lines that end in a line feed and whose concatenation has none. *)
Lemma no_lines (ls : list (list ascii)) :
  Forall (λ l, last l = Some LF) ls → (LF ∉ concat ls) → ls = [].
Proof.
  intros Hls Hno. destruct ls as [|l ls]; [done|]. exfalso.
  apply Forall_cons in Hls as [Hl _]. apply Hno. cbn [concat].
  apply elem_of_app. left.
  destruct l as [|a l] using rev_ind; [done|].
  rewrite last_snoc in Hl. injection Hl as ->. set_solver.
Qed.

Lemma log_partial priority msg st lg :
  (0 ≤ priority ≤ MAX_LOG_PRIORITY)%Z →
  loggers st !! Z.to_nat priority = Some lg →
  (0 ≤ len lg)%Z →
  (MAX_LOG_LEN ≤ Z.of_nat (length (buf lg)) - len lg)%Z →
  NUL ∉ pending lg → NUL ∉ msg → LF ∉ pending lg → LF ∉ msg →
  (Z.of_nat (length msg) < Z.of_nat (length (buf lg)) - len lg)%Z →
  ∃ lg',
    _log priority msg st
    = Some (LogState (<[Z.to_nat priority := lg']> (loggers st)) (sink st)) ∧
    pending lg' = pending lg ++ msg ∧
    len lg' = (len lg + Z.of_nat (length msg))%Z ∧
    length (buf lg') = length (buf lg) ∧
    ((Z.of_nat (length (buf lg)) - MAX_LOG_LEN
      < len lg + Z.of_nat (length msg))%Z →
     ∀ msg',
       _log priority msg'
         (LogState (<[Z.to_nat priority := lg']> (loggers st)) (sink st))
       = None).
Proof.
  intros Hp Hlg Hlen Hfree Hnul Hnulm Hlf Hlfm Hfits.
  destruct (log_vfmt_fits priority msg st lg Hlg Hlen Hfree Hnul Hnulm Hfits)
    as (lg' & ls & Hrun & Hcat & Hls & Hlf' & Hlen' & Hbuf).
  assert (ls = []) as ->.
  { apply no_lines; [done|]. intros Hin.
    assert (LF ∈ pending lg ++ msg) as Hin'
      by (rewrite <- Hcat; apply elem_of_app; by left).
    apply elem_of_app in Hin' as [?|?]; done. }
  cbn [concat app fmap list_fmap] in Hcat, Hrun. rewrite app_nil_r in Hrun.
  exists lg'. rewrite in_range_log by done.
  split; [by destruct st|]. split; [done|].
  split.
  { rewrite Hlen', Hcat, length_app, length_pending by lia. lia. }
  split; [done|].
  intros Hover msg'. rewrite in_range_log by done. unfold log_vfmt.
  cbn [loggers].
  rewrite list_lookup_insert_eq by (by eapply lookup_lt_Some).
  assert (len lg' = len lg + Z.of_nat (length msg))%Z as Hl
    by (rewrite Hlen', Hcat, length_app, length_pending by lia; lia).
  by destruct (Z.ltb_spec (Z.of_nat (length (buf lg')) - len lg') MAX_LOG_LEN);
    [|lia].
Qed.

Lemma log_line priority msg st lg :
  (0 ≤ priority ≤ MAX_LOG_PRIORITY)%Z →
  loggers st !! Z.to_nat priority = Some lg →
  (0 ≤ len lg)%Z →
  (MAX_LOG_LEN ≤ Z.of_nat (length (buf lg)) - len lg)%Z →
  NUL ∉ pending lg → NUL ∉ msg →
  (Z.of_nat (length msg) < Z.of_nat (length (buf lg)) - len lg)%Z →
  last msg = Some LF →
  ∃ lg' ls,
    _log priority msg st
    = Some (LogState (<[Z.to_nat priority := lg']> (loggers st))
              (sink st ++ ((λ l, (priority, l)) <$> ls))) ∧
    Forall (λ l, last l = Some LF) ls ∧
    concat ls = pending lg ++ msg ∧
    pending lg' = [] ∧ len lg' = 0%Z ∧
    length (buf lg') = length (buf lg).
Proof.
  intros Hp Hlg Hlen Hfree Hnul Hnulm Hfits Hlast.
  destruct (log_vfmt_fits priority msg st lg Hlg Hlen Hfree Hnul Hnulm Hfits)
    as (lg' & ls & Hrun & Hcat & Hls & Hlf' & Hlen' & Hbuf).
  assert (pending lg' = []) as Hnil.
  { destruct (pending lg') as [|a r] using rev_ind; [done|]. exfalso.
    assert (last (concat ls ++ r ++ [a]) = Some LF) as Hl.
    { rewrite Hcat. destruct msg as [|c msg] using rev_ind; [done|].
      rewrite last_snoc in Hlast. injection Hlast as ->.
      by rewrite app_assoc, last_snoc. }
    rewrite !app_assoc, last_snoc in Hl. injection Hl as ->.
    apply Hlf'. apply elem_of_app. right. by apply list_elem_of_singleton. }
  exists lg', ls. rewrite in_range_log by done.
  split; [done|]. rewrite Hnil, app_nil_r in Hcat.
  split; [done|]. split; [done|]. split; [done|]. split; [|done].
  by rewrite Hlen', Hnil.
Qed.

(** A message without a line feed that fits is only stored: nothing goes to
    [do_log], the logger holds its text followed by the message.  Once the
    stored text is longer than the buffer less [MAX_LOG_LEN], every later
    call of [_log] at this priority fails the assertion of [log_vfmt],
    whatever the message. *)
Theorem log_partial_line priority msg st lg :
  (0 ≤ priority ≤ MAX_LOG_PRIORITY)%Z →
  loggers st !! Z.to_nat priority = Some lg →
  (0 ≤ len lg)%Z →
  (MAX_LOG_LEN ≤ Z.of_nat (length (buf lg)) - len lg)%Z →
  NUL ∉ pending lg → NUL ∉ msg → LF ∉ pending lg → LF ∉ msg →
  (Z.of_nat (length msg) < Z.of_nat (length (buf lg)) - len lg)%Z →
  ∃ lg',
    _log priority msg st
    = Some (LogState (<[Z.to_nat priority := lg']> (loggers st)) (sink st)) ∧
    pending lg' = pending lg ++ msg ∧
    len lg' = (len lg + Z.of_nat (length msg))%Z ∧
    length (buf lg') = length (buf lg) ∧
    ((Z.of_nat (length (buf lg)) - MAX_LOG_LEN
      < len lg + Z.of_nat (length msg))%Z →
     ∀ msg',
       _log priority msg'
         (LogState (<[Z.to_nat priority := lg']> (loggers st)) (sink st))
       = None).
Proof. apply log_partial. Qed.

(** With no NUL in the text the logger holds nor in the message, a message
    that fits and ends in a line feed empties the logger: the stored text
    and the message go to [do_log], cut into lines, and [len] is 0
    afterwards. *)
Theorem log_line_empties priority msg st lg :
  (0 ≤ priority ≤ MAX_LOG_PRIORITY)%Z →
  loggers st !! Z.to_nat priority = Some lg →
  (0 ≤ len lg)%Z →
  (MAX_LOG_LEN ≤ Z.of_nat (length (buf lg)) - len lg)%Z →
  NUL ∉ pending lg → NUL ∉ msg →
  (Z.of_nat (length msg) < Z.of_nat (length (buf lg)) - len lg)%Z →
  last msg = Some LF →
  ∃ lg' ls,
    _log priority msg st
    = Some (LogState (<[Z.to_nat priority := lg']> (loggers st))
              (sink st ++ ((λ l, (priority, l)) <$> ls))) ∧
    Forall (λ l, last l = Some LF) ls ∧
    concat ls = pending lg ++ msg ∧
    pending lg' = [] ∧ len lg' = 0%Z ∧
    length (buf lg') = length (buf lg).
Proof. apply log_line. Qed.

End partial_lines.

(** [log_partial_line] on the logger of [Demo.log_pending], which holds
    [cd]: a message of 2047 characters is stored, and the next call
    fails. *)
Lemma log_partial_line_witness :
  (0 ≤ 6 ≤ Log.MAX_LOG_PRIORITY)%Z ∧
  Log.loggers Demo.log_pending !! Z.to_nat 6
  = Some (Demo.logger_of Demo.log_pending 6) ∧
  (0 ≤ Log.len (Demo.logger_of Demo.log_pending 6))%Z ∧
  (MAX_LOG_LEN (Limits := bess_limits)
   ≤ Z.of_nat (length (Log.buf (Demo.logger_of Demo.log_pending 6)))
     - Log.len (Demo.logger_of Demo.log_pending 6))%Z ∧
  (Log.NUL ∉ Log.pending (Demo.logger_of Demo.log_pending 6)) ∧
  (Log.NUL ∉ replicate 2047 "y"%char) ∧
  (Log.LF ∉ Log.pending (Demo.logger_of Demo.log_pending 6)) ∧
  (Log.LF ∉ replicate 2047 "y"%char) ∧
  (Z.of_nat (length (replicate 2047 "y"%char))
   < Z.of_nat (length (Log.buf (Demo.logger_of Demo.log_pending 6)))
     - Log.len (Demo.logger_of Demo.log_pending 6))%Z ∧
  ∃ st1,
    Log._log (H := bess_limits) 6 (replicate 2047 "y"%char) Demo.log_pending
    = Some st1 ∧
    Log.sink st1 = Log.sink Demo.log_pending ∧
    Log._log (H := bess_limits) 6 (Log.string_chars "z") st1 = None.
Proof.
  assert (0 ≤ 6 ≤ Log.MAX_LOG_PRIORITY)%Z as H1
    by (vm_compute; split; discriminate).
  assert (Log.loggers Demo.log_pending !! Z.to_nat 6
          = Some (Demo.logger_of Demo.log_pending 6)) as H2
    by (vm_compute; reflexivity).
  assert (0 ≤ Log.len (Demo.logger_of Demo.log_pending 6))%Z as H3
    by (vm_compute; discriminate).
  assert (MAX_LOG_LEN (Limits := bess_limits)
          ≤ Z.of_nat (length (Log.buf (Demo.logger_of Demo.log_pending 6)))
            - Log.len (Demo.logger_of Demo.log_pending 6))%Z as H4
    by (vm_compute; discriminate).
  assert (Log.NUL ∉ Log.pending (Demo.logger_of Demo.log_pending 6)) as H5
    by (apply (bool_decide_unpack _); vm_compute; exact I).
  assert (Log.NUL ∉ replicate 2047 "y"%char) as H6
    by (apply (bool_decide_unpack _); vm_compute; exact I).
  assert (Log.LF ∉ Log.pending (Demo.logger_of Demo.log_pending 6)) as H7
    by (apply (bool_decide_unpack _); vm_compute; exact I).
  assert (Log.LF ∉ replicate 2047 "y"%char) as H8
    by (apply (bool_decide_unpack _); vm_compute; exact I).
  assert (Z.of_nat (length (replicate 2047 "y"%char))
          < Z.of_nat (length (Log.buf (Demo.logger_of Demo.log_pending 6)))
            - Log.len (Demo.logger_of Demo.log_pending 6))%Z as H9
    by (vm_compute; reflexivity).
  do 9 (split; [assumption|]).
  destruct (log_partial_line (H := bess_limits) 6 _ Demo.log_pending _
              H1 H2 H3 H4 H5 H6 H7 H8 H9) as (lg' & Hrun & _ & _ & _ & Hlater).
  assert (Z.of_nat (length (Log.buf (Demo.logger_of Demo.log_pending 6)))
          - MAX_LOG_LEN (Limits := bess_limits)
          < Log.len (Demo.logger_of Demo.log_pending 6)
            + Z.of_nat (length (replicate 2047 "y"%char)))%Z as Hover
    by (vm_compute; reflexivity).
  eexists. split; [exact Hrun|]. split; [reflexivity|].
  exact (Hlater Hover _).
Defined.

(** [log_line_empties] on the logger of [Demo.log_pending] and the message
    [ef] with a line feed. *)
Lemma log_line_empties_witness :
  (0 ≤ 6 ≤ Log.MAX_LOG_PRIORITY)%Z ∧
  Log.loggers Demo.log_pending !! Z.to_nat 6
  = Some (Demo.logger_of Demo.log_pending 6) ∧
  (0 ≤ Log.len (Demo.logger_of Demo.log_pending 6))%Z ∧
  (MAX_LOG_LEN (Limits := bess_limits)
   ≤ Z.of_nat (length (Log.buf (Demo.logger_of Demo.log_pending 6)))
     - Log.len (Demo.logger_of Demo.log_pending 6))%Z ∧
  (Log.NUL ∉ Log.pending (Demo.logger_of Demo.log_pending 6)) ∧
  (Log.NUL ∉ Log.string_chars "ef" ++ [Log.LF]) ∧
  (Z.of_nat (length (Log.string_chars "ef" ++ [Log.LF]))
   < Z.of_nat (length (Log.buf (Demo.logger_of Demo.log_pending 6)))
     - Log.len (Demo.logger_of Demo.log_pending 6))%Z ∧
  last (Log.string_chars "ef" ++ [Log.LF]) = Some Log.LF ∧
  ∃ lg' ls,
    Log._log (H := bess_limits) 6 (Log.string_chars "ef" ++ [Log.LF])
      Demo.log_pending
    = Some (Log.LogState (<[Z.to_nat 6 := lg']> (Log.loggers Demo.log_pending))
              (Log.sink Demo.log_pending ++ ((λ l, (6%Z, l)) <$> ls))) ∧
    Log.len lg' = 0%Z.
Proof.
  assert (0 ≤ 6 ≤ Log.MAX_LOG_PRIORITY)%Z as H1
    by (vm_compute; split; discriminate).
  assert (Log.loggers Demo.log_pending !! Z.to_nat 6
          = Some (Demo.logger_of Demo.log_pending 6)) as H2
    by (vm_compute; reflexivity).
  assert (0 ≤ Log.len (Demo.logger_of Demo.log_pending 6))%Z as H3
    by (vm_compute; discriminate).
  assert (MAX_LOG_LEN (Limits := bess_limits)
          ≤ Z.of_nat (length (Log.buf (Demo.logger_of Demo.log_pending 6)))
            - Log.len (Demo.logger_of Demo.log_pending 6))%Z as H4
    by (vm_compute; discriminate).
  assert (Log.NUL ∉ Log.pending (Demo.logger_of Demo.log_pending 6)) as H5
    by (apply (bool_decide_unpack _); vm_compute; exact I).
  assert (Log.NUL ∉ Log.string_chars "ef" ++ [Log.LF]) as H6
    by (apply (bool_decide_unpack _); vm_compute; exact I).
  assert (Z.of_nat (length (Log.string_chars "ef" ++ [Log.LF]))
          < Z.of_nat (length (Log.buf (Demo.logger_of Demo.log_pending 6)))
            - Log.len (Demo.logger_of Demo.log_pending 6))%Z as H7
    by (vm_compute; reflexivity).
  assert (last (Log.string_chars "ef" ++ [Log.LF]) = Some Log.LF) as H8
    by (vm_compute; reflexivity).
  do 8 (split; [assumption|]).
  destruct (log_line_empties (H := bess_limits) 6 _ Demo.log_pending _
              H1 H2 H3 H4 H5 H6 H7 H8)
    as (lg' & ls & Hrun & _ & _ & _ & Hlen & _).
  exists lg', ls. exact (conj Hrun Hlen).
Defined.
